(** * Gen2NodeProvider: a shallow embedding of
      python/ray/autoscaler/_private/gen2/node_provider.py

    The provider keeps four in-memory caches (cached nodes, pending nodes,
    previously seen ids per query, deleted ids) and talks to three backend
    services (VPC, global tagging, global search).  The backend is a
    parameter of the development: a type of worlds with one transition per
    SDK call.  Provider methods are computations in a state-and-exception
    monad over a world and the provider object; mutations made before an
    exception is raised stay visible, as in Python.

    Conventions.
    - Logging calls ([logger], [cli_logger]) have no effect on the provider
      or on the backend and are left out.
    - [self.lock] is a re-entrant lock; the model is sequential, so taking it
      is a no-op, but for the threads of the pool of [create_node], which
      holds the lock while they run: see [blocked].
    - [fuel] bounds the depth of re-entrant calls and the number of
      iterations of the loops that have no static bound; a computation that
      runs out of it ends in [Diverge], which no [except] clause catches. *)

From stdpp Require Import gmap strings list sorting.
From Stdlib Require Import ZArith Lia.
From Stdlib Require OrderedTypeEx.

Open Scope string_scope.

(** ** Module constants *)

Definition INSTANCE_NAME_UUID_LEN : nat := 8.
Definition INSTANCE_NAME_MAX_LEN : nat := 64.
Definition PENDING_TIMEOUT : Z := 120%Z.
Definition PROFILE_NAME_DEFAULT : string := "cx2-2x4".
Definition VOLUME_TIER_NAME_DEFAULT : string := "general-purpose".
Definition RAY_RECYCLABLE : string := "ray-recyclable".

Definition ALL_STATUS_TAGS : list string :=
  [ "ray-node-status:uninitialized"; "ray-node-status:waiting-for-ssh";
    "ray-node-status:setting-up"; "ray-node-status:syncing-files";
    "ray-node-status:up-to-date"; "ray-node-status:update-failed" ].

Definition RETRIES : nat := 10.
Definition WORKER : string := "worker".
Definition HEAD : string := "head".

(** Modelled from the spec: the four tag keys are imported from
    [ray.autoscaler.tags], which is not part of the sources at hand.  The
    values of the first two are those of the example in the comment that
    opens [non_terminated_nodes]; the query grammar of the specification
    ("first clause is always the cluster name tag") fixes their role. *)
Definition TAG_RAY_CLUSTER_NAME : string := "ray-cluster-name".
Definition TAG_RAY_NODE_KIND : string := "ray-node-type".
Definition TAG_RAY_NODE_NAME : string := "ray-node-name".
Definition TAG_RAY_LAUNCH_CONFIG : string := "ray-launch-config".

(** ** Python values used by the provider *)

(** Exceptions.  [ApiException] is the SDK's exception and the only one
    that carries [code] and [message]; the others are Python built-ins. *)
Inductive exn : Type :=
| ApiException (code : Z) (message : string)
| TypeError (detail : string)
| ValueError (detail : string)
| KeyError (key : string)
| IndexError (detail : string)
| AttributeError (detail : string)
| UnboundLocalError (variable : string)
| RuntimeError (detail : string)
| AssertionError (detail : string)
| Exception (detail : string).

#[global] Instance exn_eq_dec : EqDecision exn.
Proof. solve_decision. Defined.

(** [e.message]: only [ApiException] has the attribute. *)
Definition exn_message (e : exn) : option string :=
  match e with
  | ApiException _ m => Some m
  | _ => None
  end.

Definition is_ApiException (e : exn) : bool :=
  match e with
  | ApiException _ _ => true
  | _ => false
  end.

(** A local variable is bound or not; reading an unbound one raises
    [UnboundLocalError].  In Python 3 the target of [except ... as e] is
    deleted when the clause ends. *)
Inductive local (A : Type) : Type :=
| Unbound
| Bound (a : A).
Arguments Unbound {A}.
Arguments Bound {A} a.

(** [needle in hay] on strings. *)
Fixpoint contains (needle hay : string) : bool :=
  String.prefix needle hay ||
  match hay with
  | EmptyString => false
  | String _ hay' => contains needle hay'
  end.

(** [sorted] on lists of strings (insertion sort, stable). *)
Fixpoint insert_sorted (x : string) (l : list string) : list string :=
  match l with
  | [] => [x]
  | y :: l' => if String.leb x y then x :: l else y :: insert_sorted x l'
  end.

Definition sorted (l : list string) : list string :=
  foldr insert_sorted [] l.

(** [sorted(d.items())] on a dictionary from strings to strings: tuples
    compare by key, then by value. *)
Definition item_leb (a b : string * string) : bool :=
  if String.eqb a.1 b.1 then String.leb a.2 b.2 else String.leb a.1 b.1.

Fixpoint insert_item (x : string * string) (l : list (string * string))
  : list (string * string) :=
  match l with
  | [] => [x]
  | y :: l' => if item_leb x y then x :: l else y :: insert_item x l'
  end.

Definition sorted_items (l : list (string * string)) : list (string * string) :=
  foldr insert_item [] l.

(** ** Dictionaries that are iterated: insertion-ordered association lists *)

Module odict.
Section defs.
Context {V : Type}.

Definition t := list (string * V).

Fixpoint get (k : string) (d : list (string * V)) : option V :=
  match d with
  | [] => None
  | (k', v) :: d' => if String.eqb k k' then Some v else get k d'
  end.

(** [d[k] = v]: an existing key keeps its position. *)
Fixpoint set (k : string) (v : V) (d : list (string * V)) : list (string * V) :=
  match d with
  | [] => [(k, v)]
  | (k', v') :: d' =>
      if String.eqb k k' then (k, v) :: d' else (k', v') :: set k v d'
  end.

(** [d.pop(k, None)] *)
Fixpoint pop (k : string) (d : list (string * V)) : list (string * V) :=
  match d with
  | [] => []
  | (k', v') :: d' =>
      if String.eqb k k' then d' else (k', v') :: pop k d'
  end.

Definition keys (d : list (string * V)) : list string := d.*1.

Definition mem (k : string) (d : list (string * V)) : bool :=
  match get k d with Some _ => true | None => false end.
End defs.
End odict.

(** ** Records exchanged with the backend *)

Record nic : Type := {
  nic_id : string;
  primary_ipv4_address : option string
}.

Record floating_ip : Type := {
  fip_id : string;
  fip_name : string;
  fip_address : string
}.

(** The ["doc"] of a search result. *)
Record document : Type := {
  status : string;
  network_interfaces : list nic
}.

(** An item returned by the global search service.  ["floating_ips"] is
    the key that [non_terminated_nodes] sets on head nodes. *)
Record item : Type := {
  resource_id : string;
  name : string;
  crn : string;
  tags : list string;
  doc : document;
  floating_ips : option (list floating_ip)
}.

(** An instance record of the VPC service.  ["tags"] is absent until
    [_get_node] sets it. *)
Record instance : Type := {
  inst_id : string;
  inst_name : string;
  inst_crn : string;
  inst_status : string;
  inst_network_interfaces : list nic;
  inst_primary_network_interface : nic;
  inst_tags : option (list string)
}.

(** What a variable called [node] may hold: a search item or an instance
    record. *)
Inductive node : Type :=
| Item (n : item)
| Instance (i : instance).

Definition node_name (n : node) : string :=
  match n with
  | Item n => name n
  | Instance i => inst_name i
  end.

Definition node_crn (n : node) : string :=
  match n with
  | Item n => crn n
  | Instance i => inst_crn i
  end.

(** [node.get("floating_ips")] *)
Definition node_get_floating_ips (n : node) : option (list floating_ip) :=
  match n with
  | Item n => floating_ips n
  | Instance _ => None
  end.

(** The prototype sent to [create_instance]. *)
Record instance_prototype : Type := {
  proto_name : string;
  proto_key_id : string;
  proto_profile_name : string;
  proto_resource_group_id : string;
  proto_vpc_id : string;
  proto_image_id : string;
  proto_zone_name : string;
  proto_boot_volume_capacity : Z;
  proto_boot_volume_name : string;
  proto_boot_volume_tier : string;
  proto_subnet_id : string;
  proto_security_group_id : string
}.

Record floating_ip_prototype : Type := {
  fproto_name : string;
  fproto_zone_name : string;
  fproto_resource_group_id : string
}.

(** The node configuration ([base_config]); a key may be missing. *)
Record base_config : Type := {
  security_group_id : option string;
  subnet_id : option string;
  boot_volume_capacity : option Z;
  volume_tier_name : option string;
  key_id : option string;
  instance_profile_name : option string;
  resource_group_id : option string;
  vpc_id : option string;
  image_id : option string;
  head_ip : option string
}.

(** The result of [attach_tag] and [detach_tag]: the ["is_error"] flags of
    its ["results"]. *)
Record tag_results : Type := { results : list bool }.

(** What [_global_tagging_with_retries] returns: the tagging result, the
    listed tag names, or [False]. *)
Inductive tagging_ret : Type :=
| TagResults (r : tag_results)
| TagItems (names : list string)
| PyFalse.

(** Truth value: a dictionary with a key is true, a list is true when it
    is not empty. *)
Definition truthy (r : tagging_ret) : bool :=
  match r with
  | TagResults _ => true
  | TagItems l => negb (bool_decide (l = []))
  | PyFalse => false
  end.

(** ** The backend *)

Inductive response (A : Type) : Type :=
| Success (a : A)
| Failure (e : exn).
Arguments Success {A} a.
Arguments Failure {A} e.

(** One transition per SDK call.  The first argument of a call is the
    client object it is made on: a client is identified by its generation,
    and re-initialisation makes a new one. *)
Class Backend (W : Type) : Type := {
  search : nat -> string -> option Z -> W -> response (list item) * W;
  get_instance : nat -> string -> W -> response instance * W;
  list_instance_network_interface_floating_ips :
    nat -> string -> string -> W -> response (list floating_ip) * W;
  list_instances : nat -> string -> W -> response (list instance) * W;
  create_instance : nat -> instance_prototype -> W -> response instance * W;
  list_floating_ips : nat -> W -> response (list floating_ip) * W;
  create_floating_ip :
    nat -> floating_ip_prototype -> W -> response floating_ip * W;
  add_instance_network_interface_floating_ip :
    nat -> string -> string -> string -> W -> response unit * W;
  create_instance_action : nat -> string -> string -> W -> response unit * W;
  delete_instance : nat -> string -> W -> response unit * W;
  delete_floating_ip : nat -> string -> W -> response unit * W;
  attach_tag :
    nat -> string -> option (list string) -> W -> response tag_results * W;
  detach_tag :
    nat -> string -> option (list string) -> W -> response tag_results * W;
  list_tags : nat -> string -> W -> response (list string) * W;
  (** [time.time()], [time.sleep(seconds)] and [uuid4().hex] *)
  time_time : W -> Z;
  time_sleep : Z -> W -> W;
  uuid4_hex : W -> string * W
}.

(** ** The provider object *)

Record provider : Type := {
  cluster_name : string;
  use_hybrid_ips : bool;
  zone_name : option string;
  cache_stopped_nodes : bool;
  ibm_vpc_client : nat;
  global_tagging_service : nat;
  global_search_service : nat;
  cached_nodes : gmap string node;
  pending_nodes : list (string * instance);
  prev_nodes : gmap string (gset string);
  deleted_nodes : list string
}.

Definition set_clients (v t s : nat) (p : provider) : provider :=
  {| cluster_name := cluster_name p; use_hybrid_ips := use_hybrid_ips p;
     zone_name := zone_name p; cache_stopped_nodes := cache_stopped_nodes p;
     ibm_vpc_client := v; global_tagging_service := t;
     global_search_service := s;
     cached_nodes := cached_nodes p; pending_nodes := pending_nodes p;
     prev_nodes := prev_nodes p; deleted_nodes := deleted_nodes p |}.

Definition set_cached_nodes (c : gmap string node) (p : provider) : provider :=
  {| cluster_name := cluster_name p; use_hybrid_ips := use_hybrid_ips p;
     zone_name := zone_name p; cache_stopped_nodes := cache_stopped_nodes p;
     ibm_vpc_client := ibm_vpc_client p;
     global_tagging_service := global_tagging_service p;
     global_search_service := global_search_service p;
     cached_nodes := c; pending_nodes := pending_nodes p;
     prev_nodes := prev_nodes p; deleted_nodes := deleted_nodes p |}.

Definition set_pending_nodes (d : list (string * instance)) (p : provider)
  : provider :=
  {| cluster_name := cluster_name p; use_hybrid_ips := use_hybrid_ips p;
     zone_name := zone_name p; cache_stopped_nodes := cache_stopped_nodes p;
     ibm_vpc_client := ibm_vpc_client p;
     global_tagging_service := global_tagging_service p;
     global_search_service := global_search_service p;
     cached_nodes := cached_nodes p; pending_nodes := d;
     prev_nodes := prev_nodes p; deleted_nodes := deleted_nodes p |}.

Definition set_prev_nodes (m : gmap string (gset string)) (p : provider)
  : provider :=
  {| cluster_name := cluster_name p; use_hybrid_ips := use_hybrid_ips p;
     zone_name := zone_name p; cache_stopped_nodes := cache_stopped_nodes p;
     ibm_vpc_client := ibm_vpc_client p;
     global_tagging_service := global_tagging_service p;
     global_search_service := global_search_service p;
     cached_nodes := cached_nodes p; pending_nodes := pending_nodes p;
     prev_nodes := m; deleted_nodes := deleted_nodes p |}.

Definition set_deleted_nodes (l : list string) (p : provider) : provider :=
  {| cluster_name := cluster_name p; use_hybrid_ips := use_hybrid_ips p;
     zone_name := zone_name p; cache_stopped_nodes := cache_stopped_nodes p;
     ibm_vpc_client := ibm_vpc_client p;
     global_tagging_service := global_tagging_service p;
     global_search_service := global_search_service p;
     cached_nodes := cached_nodes p; pending_nodes := pending_nodes p;
     prev_nodes := prev_nodes p; deleted_nodes := l |}.

(** ** The monad of provider methods *)

Inductive outcome (A : Type) : Type :=
| Ok (a : A)
| Raise (e : exn)
| Diverge.
Arguments Ok {A} a.
Arguments Raise {A} e.
Arguments Diverge {A}.

Record state (W : Type) : Type := State { world : W; self : provider }.
Arguments State {W} world self.
Arguments world {W} s.
Arguments self {W} s.

Definition M (W A : Type) : Type := state W -> outcome A * state W.

Section monad.
Context {W : Type}.

Definition ret {A} (a : A) : M W A := fun s => (Ok a, s).

Definition bind {A B} (m : M W A) (k : A -> M W B) : M W B :=
  fun s =>
    match m s with
    | (Ok a, s') => k a s'
    | (Raise e, s') => (Raise e, s')
    | (Diverge, s') => (Diverge, s')
    end.

Definition raise {A} (e : exn) : M W A := fun s => (Raise e, s).

Definition diverge {A} : M W A := fun s => (Diverge, s).

(** [try: m  except Exception as e: ...] seen from the handler: the
    exception, if any, becomes a value. *)
Definition catch {A} (m : M W A) : M W (exn + A) :=
  fun s =>
    match m s with
    | (Ok a, s') => (Ok (inr a), s')
    | (Raise e, s') => (Ok (inl e), s')
    | (Diverge, s') => (Diverge, s')
    end.

(** [try: m  except ApiException as e: ...]: other exceptions pass. *)
Definition catch_api {A} (m : M W A) : M W (exn + A) :=
  fun s =>
    match m s with
    | (Ok a, s') => (Ok (inr a), s')
    | (Raise e, s') =>
        if is_ApiException e then (Ok (inl e), s') else (Raise e, s')
    | (Diverge, s') => (Diverge, s')
    end.

Definition get_self : M W provider := fun s => (Ok (self s), s).

Definition modify_self (f : provider -> provider) : M W unit :=
  fun s => (Ok tt, State (world s) (f (self s))).

(** A backend call. *)
Definition call {A} (op : W -> response A * W) : M W A :=
  fun s =>
    match op (world s) with
    | (Success a, w) => (Ok a, State w (self s))
    | (Failure e, w) => (Raise e, State w (self s))
    end.

(** A Python value that may be missing: [d[k]] raises [KeyError]. *)
Definition subscript {A} (key : string) (o : option A) : M W A :=
  match o with
  | Some a => ret a
  | None => raise (KeyError key)
  end.
End monad.

Declare Scope py_scope.
Delimit Scope py_scope with py.
Notation "x <- m ;; k" := (bind m (fun x => k))
  (at level 100, m at next level, right associativity) : py_scope.
Notation "m ;;; k" := (bind m (fun _ => k))
  (at level 100, right associativity) : py_scope.
Open Scope py_scope.

(** ** Provider methods *)

Section provider.
Context {W : Type} {B : Backend W}.

Definition sleep (seconds : Z) : M W unit :=
  fun s => (Ok tt, State (time_sleep seconds (world s)) (self s)).

Definition now : M W Z := fun s => (Ok (time_time (world s)), s).

Definition uuid4 : M W string :=
  fun s => let (h, w) := uuid4_hex (world s) in (Ok h, State w (self s)).

(** The tracing decorator: it logs, and re-raises what [func] raises. *)
Definition log_in_out {A} (func : M W A) : M W A :=
  r <- catch func;;
  match r with
  | inr result => ret result
  | inl e => raise e
  end.

(** [_init_clients]: three new client objects. *)
Definition _init_clients : M W unit :=
  log_in_out
    (modify_self (fun p =>
       set_clients (S (ibm_vpc_client p)) (S (global_tagging_service p))
                   (S (global_search_service p)) p)).

(** The decorator [retry_on_except].  [e] is the local variable of
    [decorated_func]: bound to [None] before the loop, bound to the
    exception inside the [except] clause and deleted when the clause
    ends. *)
Definition raise_local {A} (e : local (option exn)) : M W A :=
  match e with
  | Unbound => raise (UnboundLocalError "e")
  | Bound None => raise (TypeError "exceptions must derive from BaseException")
  | Bound (Some x) => raise x
  end.

Fixpoint retry_on_except_loop {A} (func : M W A) (retries : list nat)
    (e : local (option exn)) : M W A :=
  match retries with
  | [] =>
      (* we got run out of retries, now raising *)
      raise_local e
  | retry :: retries' =>
      r <- catch func;;
      match r with
      | inr result => ret result
      | inl _ =>
          _init_clients;;;
          sleep 1;;;
          retry_on_except_loop func retries' Unbound
      end
  end.

Definition retry_on_except {A} (func : M W A) : M W A :=
  retry_on_except_loop func (seq 0 RETRIES) (Bound None).

(** because create + tag is not atomic returns node type based on node
    name *)
Definition _get_node_type (p : provider) (name : string) : option string :=
  if contains (cluster_name p +:+ "-" +:+ WORKER) name then Some WORKER
  else if contains (cluster_name p +:+ "-" +:+ HEAD) name then Some HEAD
  else None.

(** *** Tagging with verification *)

(** How one pass through the [try] block of
    [_global_tagging_with_retries] ends when nothing is raised. *)
Inductive attempt : Type :=
| AReturn (r : tagging_ret)
| AContinue
| AFallThrough.

(** [tag_results["results"][0]["is_error"]] *)
Definition first_is_error (r : tag_results) : M W bool :=
  match results r with
  | is_error :: _ => ret is_error
  | [] => raise (IndexError "list index out of range")
  end.

(** [[t["name"] for t in r]] for the value [r] returned by the nested
    call for ["list_tags"]. *)
Definition tag_names (r : tagging_ret) : M W (list string) :=
  match r with
  | TagItems names => ret names
  | TagResults _ => raise (TypeError "string indices must be integers")
  | PyFalse => raise (TypeError "'bool' object is not iterable")
  end.

(** [set(tags)] *)
Definition set_of (tags : option (list string)) : M W (gset string) :=
  match tags with
  | Some l => ret (list_to_set l)
  | None => raise (TypeError "'NoneType' object is not iterable")
  end.

Definition tagging_attempt (list_tags_again : M W tagging_ret)
    (resource_crn f_name : string) (tags : option (list string))
  : M W attempt :=
  if String.eqb f_name "attach_tag" then
    p <- get_self;;
    tag_results <-
      call (attach_tag (global_tagging_service p) resource_crn tags);;
    is_error <- first_is_error tag_results;;
    if negb is_error then
      (* validate tags really attached *)
      listed <- list_tags_again;;
      node_tags <- tag_names listed;;
      wanted <- set_of tags;;
      if negb (bool_decide (wanted ∖ list_to_set node_tags = ∅))
      then ret AContinue
      else ret (AReturn (TagResults tag_results))
    else ret AFallThrough
  else if String.eqb f_name "list_tags" then
    p <- get_self;;
    items <- call (list_tags (global_tagging_service p) resource_crn);;
    ret (AReturn (TagItems items))
  else
    (* detach *)
    p <- get_self;;
    tag_results <-
      call (detach_tag (global_tagging_service p) resource_crn tags);;
    is_error <- first_is_error tag_results;;
    if negb is_error then
      listed <- list_tags_again;;
      node_tags <- tag_names listed;;
      unwanted <- set_of tags;;
      if negb (bool_decide (list_to_set node_tags ∩ unwanted = ∅))
      then ret AFallThrough
      else ret (AReturn (TagResults tag_results))
    else ret AFallThrough.

(** The end of a loop iteration: [retry == RETRIES / 2] compares an
    integer with the quotient of a true division. *)
Definition tagging_after_attempt (retry : nat) : M W unit :=
  (if Nat.eqb (2 * retry) RETRIES then
     (* try to reinit client *)
     modify_self (fun p =>
       set_clients (ibm_vpc_client p) (S (global_tagging_service p))
                   (global_search_service p) p)
   else ret tt);;;
  sleep 5.

Fixpoint tagging_loop (attempt_once : M W attempt) (retries : list nat)
    (e : local (option exn)) : M W tagging_ret :=
  match retries with
  | [] =>
      (* if exception occured and reinit didn't help, raise exception *)
      match e with
      | Unbound => raise (UnboundLocalError "e")
      | Bound (Some x) => raise x
      | Bound None => ret PyFalse
      end
  | retry :: retries' =>
      r <- catch attempt_once;;
      match r with
      | inr (AReturn v) => ret v
      | inr AContinue => tagging_loop attempt_once retries' e
      | inr AFallThrough =>
          tagging_after_attempt retry;;;
          tagging_loop attempt_once retries' e
      | inl _ =>
          tagging_after_attempt retry;;;
          tagging_loop attempt_once retries' Unbound
      end
  end.

Fixpoint _global_tagging_with_retries (fuel : nat)
    (resource_crn f_name : string) (tags : option (list string))
  : M W tagging_ret :=
  match fuel with
  | O => diverge
  | S fuel' =>
      log_in_out
        (tagging_loop
           (tagging_attempt
              (_global_tagging_with_retries fuel' resource_crn "list_tags" None)
              resource_crn f_name tags)
           (seq 0 RETRIES) (Bound None))
  end.

(** *** Reconciliation: [non_terminated_nodes] *)

(** The character that delimits a tag in a query. *)
Definition dquote : string := String (Ascii.ascii_of_nat 34) EmptyString.

Definition build_query (p : provider) (tag_filters : list (string * string))
  : string :=
  fold_left
    (fun query kv =>
       query +:+ " AND tags:" +:+ dquote +:+ kv.1 +:+ ":" +:+ kv.2 +:+ dquote)
    (sorted_items tag_filters)
    ("tags:" +:+ dquote +:+ TAG_RAY_CLUSTER_NAME +:+ ":" +:+ cluster_name p
       +:+ dquote).

Definition NT_RETRIES : nat := 20.

(** The variables of the retry loop that live across iterations.
    [nodes] and [found_nodes] are assigned in every iteration and read
    after the loop. *)
Record loop_vars : Type := {
  retry : nat;
  missing_nodes : list string;
  nodes : list item;
  found_nodes : gmap string item
}.

Inductive control : Type := Break | Continue.

Definition set_floating_ips (fips : list floating_ip) (n : item) : item :=
  {| resource_id := resource_id n; name := name n; crn := crn n;
     tags := tags n; doc := doc n; floating_ips := Some fips |}.

(** [e.message == "Instance not found"] inside an [except Exception]
    clause. *)
Definition is_instance_not_found (e : exn) : M W bool :=
  match exn_message e with
  | Some m => ret (String.eqb m "Instance not found")
  | None => raise (AttributeError "message")
  end.

(** The loop over the items of a search result. *)
Fixpoint collect_nodes (items : list item) (nodes : list item)
  : M W (list item) :=
  match items with
  | [] => ret nodes
  | node :: items' =>
      p <- get_self;;
      (* check if node scheduled for delete *)
      if bool_decide (resource_id node ∈ deleted_nodes p) then
        collect_nodes items' nodes
      (* validate instance in correct state *)
      else if negb (bool_decide
                      (status (doc node) ∈ ["pending"; "starting"; "running"]))
      then collect_nodes items' nodes
      else
        let instance_id := resource_id node in
        r <- catch (call (get_instance (ibm_vpc_client p) instance_id));;
        match r with
        | inl e =>
            not_found <- is_instance_not_found e;;
            if not_found then collect_nodes items' nodes else raise e
        | inr _ =>
            if bool_decide (_get_node_type p (name node) = Some "head") then
              nic0 <- match network_interfaces (doc node) with
                      | n0 :: _ => ret n0
                      | [] => raise (IndexError "list index out of range")
                      end;;
              (* find head not external ip *)
              fips <- call (list_instance_network_interface_floating_ips
                              (ibm_vpc_client p) instance_id (nic_id nic0));;
              if Nat.eqb (length fips) 0 then
                (* not adding a head node missing floating ip *)
                collect_nodes items' nodes
              else
                collect_nodes items' (nodes ++ [set_floating_ips fips node])
            else collect_nodes items' (nodes ++ [node])
        end
  end.

(** [{node["resource_id"]: node for node in nodes}] *)
Definition by_resource_id (nodes : list item) : gmap string item :=
  fold_left (fun m n => <[resource_id n := n]> m) nodes ∅.

(** [self.prev_nodes[key].add(x)] and [.discard(x)] *)
Definition prev_nodes_update (key : string) (f : gset string -> gset string)
  : M W unit :=
  p <- get_self;;
  ids <- subscript key (prev_nodes p !! key);;
  modify_self (set_prev_nodes (<[key := f ids]> (prev_nodes p))).

(** temporary save in cache previous query results *)
Fixpoint save_prev_nodes (query : string) (nodes : list item) : M W unit :=
  match nodes with
  | [] => ret tt
  | node :: nodes' =>
      (if bool_decide ("ray-node-type:head" ∈ tags node)
       then prev_nodes_update HEAD (fun ids => ids ∪ {[resource_id node]})
       else prev_nodes_update query (fun ids => ids ∪ {[resource_id node]}));;;
      save_prev_nodes query nodes'
  end.

(** One iteration of [while retry < NT_RETRIES]. *)
Definition nt_iteration (query : string) (v : loop_vars)
  : M W (loop_vars * control) :=
  let retry := S (retry v) in
  p <- get_self;;
  items <- call (search (global_search_service p) query (Some 1000%Z));;
  nodes <- collect_nodes items [];;
  let found_nodes := by_resource_id nodes in
  p <- get_self;;
  prev_nodes_keys <-
    (* we manage a single set of HEAD node *)
    (if contains HEAD query then ret (default ∅ (prev_nodes p !! HEAD))
     (* and set of nodes unique for each query *)
     else
       let keys := default ∅ (prev_nodes p !! query) in
       (if bool_decide (keys = ∅)
        then modify_self (set_prev_nodes (<[query := keys]> (prev_nodes p)))
        else ret tt);;;
       ret keys);;
  let missing := prev_nodes_keys ∖ dom found_nodes in
  if negb (bool_decide (missing = ∅)) then
    if contains "ray-node-status:uninitialized" query
       && contains "ray-node-type:head" query
    then
      ret ({| retry := retry; missing_nodes := missing_nodes v;
              nodes := nodes; found_nodes := found_nodes |}, Break)
    else
      (* save currently missing nodes *)
      let retry :=
        if negb (bool_decide (missing_nodes v = []))
           && negb (bool_decide (sorted (elements missing) = missing_nodes v))
        then O else retry in
      sleep 3;;;
      ret ({| retry := retry; missing_nodes := sorted (elements missing);
              nodes := nodes; found_nodes := found_nodes |}, Continue)
  else
    save_prev_nodes query nodes;;;
    ret ({| retry := retry; missing_nodes := [];
            nodes := nodes; found_nodes := found_nodes |}, Break).

Fixpoint nt_while (fuel : nat) (query : string) (v : loop_vars)
  : M W loop_vars :=
  match fuel with
  | O => diverge
  | S fuel' =>
      if Nat.ltb (retry v) NT_RETRIES then
        r <- nt_iteration query v;;
        match r with
        | (v', Break) => ret v'
        | (v', Continue) => nt_while fuel' query v'
        end
      else ret v
  end.

(** update caches in case one or more nodes been removed *)
Fixpoint prune_missing (query : string) (missing : list string) : M W unit :=
  match missing with
  | [] => ret tt
  | n :: missing' =>
      prev_nodes_update HEAD (fun ids => ids ∖ {[n]});;;
      prev_nodes_update query (fun ids => ids ∖ {[n]});;;
      modify_self (fun p => set_cached_nodes (delete n (cached_nodes p)) p);;;
      prune_missing query missing'
  end.

(** Operands of [self.pending_nodes[pend_id] - time.time()]: the entry
    of the pending dictionary is the instance record that [_create_node]
    stored; the clock is a number. *)
Inductive pyval : Type :=
| PyFloat (x : Z)
| PyDict (i : instance).

Definition py_sub (a b : pyval) : M W pyval :=
  match a, b with
  | PyFloat x, PyFloat y => ret (PyFloat (x - y))
  | PyDict _, PyFloat _ =>
      raise (TypeError "unsupported operand type(s) for -: 'dict' and 'float'")
  | PyFloat _, PyDict _ =>
      raise (TypeError "unsupported operand type(s) for -: 'float' and 'dict'")
  | PyDict _, PyDict _ =>
      raise (TypeError "unsupported operand type(s) for -: 'dict' and 'dict'")
  end.

Definition py_gt (a : pyval) (b : Z) : M W bool :=
  match a with
  | PyFloat x => ret (Z.ltb b x)
  | PyDict _ =>
      raise (TypeError "'>' not supported between instances of 'dict' and 'int'")
  end.

(** workaround for tagging + create not atomic *)
Fixpoint merge_pending (_delete_node : string -> M W unit)
    (found_nodes : gmap string item) (pend_ids : list string)
    (node_ids : list string) : M W (list string) :=
  match pend_ids with
  | [] => ret node_ids
  | pend_id :: pend_ids' =>
      (* check if instance already been found by tag search *)
      match found_nodes !! pend_id with
      | Some found =>
          (if String.eqb (status (doc found)) "running" then
             (* the instance already running, remove it from pendings *)
             modify_self (fun p =>
               set_pending_nodes (odict.pop pend_id (pending_nodes p)) p)
           else ret tt);;;
          merge_pending _delete_node found_nodes pend_ids' node_ids
      | None =>
          (* delete instance if pendings longer than PENDING_TIMEOUT *)
          p <- get_self;;
          pending <- subscript pend_id (odict.get pend_id (pending_nodes p));;
          t <- now;;
          pending_time <- py_sub (PyDict pending) (PyFloat t);;
          expired <- py_gt pending_time PENDING_TIMEOUT;;
          if expired then
            _delete_node pend_id;;;
            p <- get_self;;
            _ <- subscript pend_id (odict.get pend_id (pending_nodes p));;
            modify_self (fun p =>
              set_pending_nodes (odict.pop pend_id (pending_nodes p)) p);;;
            merge_pending _delete_node found_nodes pend_ids' node_ids
          else if negb (bool_decide (pend_id ∈ node_ids)) then
            (* add it to the list of node ids.  it is missing tags so it
               is not going to be updated *)
            p <- get_self;;
            pending <- subscript pend_id (odict.get pend_id (pending_nodes p));;
            modify_self (fun p =>
              set_cached_nodes
                (<[pend_id := Instance pending]> (cached_nodes p)) p);;;
            merge_pending _delete_node found_nodes pend_ids'
              (node_ids ++ [pend_id])
          else merge_pending _delete_node found_nodes pend_ids' node_ids
      end
  end.

(** The variables of the retry loop before its first iteration;
    [nodes] and [found_nodes] are not bound yet. *)
Definition nt_start : loop_vars :=
  {| retry := O; missing_nodes := []; nodes := []; found_nodes := ∅ |}.

(** The body of [non_terminated_nodes], before decoration.
    [_delete_node] is the method of that name; it is passed in because
    it calls [non_terminated_nodes] again through [_get_node]. *)
Definition non_terminated_nodes_body (fuel : nat)
    (_delete_node : string -> M W unit)
    (tag_filters : list (string * string)) : M W (list string) :=
  p <- get_self;;
  let query := build_query p tag_filters in
  v <- nt_while fuel query nt_start;;
  prune_missing query (missing_nodes v);;;
  modify_self (fun p =>
    set_cached_nodes ((Item <$> found_nodes v) ∪ cached_nodes p) p);;;
  let node_ids := resource_id <$> nodes v in
  p <- get_self;;
  merge_pending _delete_node (found_nodes v) (odict.keys (pending_nodes p))
    node_ids.

(** [_get_node], given the decorated [non_terminated_nodes]. *)
Definition get_node_with
    (non_terminated_nodes : list (string * string) -> M W (list string))
    (fuel : nat) (node_id : string) : M W node :=
  (* Side effect: updates cache *)
  non_terminated_nodes [];;;
  p <- get_self;;
  match cached_nodes p !! node_id with
  | Some n => ret n
  | None =>
      node <- call (get_instance (ibm_vpc_client p) node_id);;
      listed <- _global_tagging_with_retries fuel (inst_crn node) "list_tags" None;;
      node_tags <- tag_names listed;;
      ret (Instance
             {| inst_id := inst_id node; inst_name := inst_name node;
                inst_crn := inst_crn node; inst_status := inst_status node;
                inst_network_interfaces := inst_network_interfaces node;
                inst_primary_network_interface :=
                  inst_primary_network_interface node;
                inst_tags := Some node_tags |})
  end.

(** The loop of [_delete_node] over the floating ips of the node. *)
Fixpoint delete_recyclable (fips : list floating_ip) : M W unit :=
  match fips with
  | [] => ret tt
  | ip :: fips' =>
      (if String.prefix RAY_RECYCLABLE (fip_name ip) then
         p <- get_self;;
         call (delete_floating_ip (ibm_vpc_client p) (fip_id ip))
       else ret tt);;;
      delete_recyclable fips'
  end.

Definition delete_node_with (_get_node : string -> M W node)
    (resource_id : string) : M W unit :=
  r <- catch_api
         (got <- catch (_get_node resource_id);;
          let floating_ips :=
            match got with
            | inr node => default [] (node_get_floating_ips node)
            | inl _ => []
            end in
          p <- get_self;;
          call (delete_instance (ibm_vpc_client p) resource_id);;;
          delete_recyclable floating_ips);;
  match r with
  | inr _ => ret tt
  | inl e =>
      match e with
      | ApiException code _ => if Z.eqb code 404 then ret tt else raise e
      | _ => raise e
      end
  end.

Fixpoint non_terminated_nodes (fuel : nat)
    (tag_filters : list (string * string)) : M W (list string) :=
  match fuel with
  | O => diverge
  | S fuel' =>
      log_in_out
        (retry_on_except
           (non_terminated_nodes_body fuel
              (delete_node_with
                 (get_node_with (non_terminated_nodes fuel') fuel))
              tag_filters))
  end.

Definition _get_node (fuel : nat) (node_id : string) : M W node :=
  get_node_with (non_terminated_nodes fuel) fuel node_id.

Definition _delete_node (fuel : nat) (resource_id : string) : M W unit :=
  delete_node_with (_get_node fuel) resource_id.

(** Return node info from cache if possible, otherwise fetches it. *)
Definition _get_cached_node (fuel : nat) (node_id : string) : M W node :=
  p <- get_self;;
  match cached_nodes p !! node_id with
  | Some n => ret n
  | None => _get_node fuel node_id
  end.

(** [node["doc"]]: an instance record has no such key. *)
Definition node_doc (n : node) : M W document :=
  match n with
  | Item n => ret (doc n)
  | Instance _ => raise (KeyError "doc")
  end.

Definition is_running (fuel : nat) (node_id : string) : M W bool :=
  log_in_out
    (node <- _get_cached_node fuel node_id;;
     d <- node_doc node;;
     ret (String.eqb (status d) "running")).

Definition is_terminated (fuel : nat) (node_id : string) : M W bool :=
  log_in_out
    (node <- _get_cached_node fuel node_id;;
     d <- node_doc node;;
     ret (negb (bool_decide (status d ∈ ["running"; "starting"; "pending"])))).

(** *** Addresses *)

(** [node["doc"]["network_interfaces"][0].get("primary_ipv4_address")] *)
Definition node_primary_ipv4 (n : node) : M W (option string) :=
  d <- node_doc n;;
  match network_interfaces d with
  | n0 :: _ => ret (primary_ipv4_address n0)
  | [] => raise (IndexError "list index out of range")
  end.

Definition internal_ip (fuel : nat) (node_id : string) : M W (option string) :=
  log_in_out
    (node <- _get_cached_node fuel node_id;;
     r <- catch (primary_ipv4_address <- node_primary_ipv4 node;;
                 match primary_ipv4_address with
                 | None => _get_node fuel node_id
                 | Some _ => ret node
                 end);;
     node <- match r with
             | inr node => ret node
             | inl _ => _get_node fuel node_id
             end;;
     node_primary_ipv4 node).

(** [if fip: return fip[0]["address"]]: the address when the list is
    there and not empty. *)
Definition first_address (fip : option (list floating_ip)) : option string :=
  match fip with
  | Some (ip :: _) => Some (fip_address ip)
  | _ => None
  end.

(** return exteranl ip for head and private ips for workers *)
Definition _get_hybrid_ip (fuel : nat) (node_id : string)
  : M W (option string) :=
  node <- _get_cached_node fuel node_id;;
  p <- get_self;;
  if bool_decide (_get_node_type p (node_name node) = Some "head") then
    match first_address (node_get_floating_ips node) with
    | Some address => ret (Some address)
    | None =>
        node <- _get_node fuel node_id;;
        match first_address (node_get_floating_ips node) with
        | Some address => ret (Some address)
        | None => ret None
        end
    end
  else internal_ip fuel node_id.

Definition external_ip (fuel : nat) (node_id : string) : M W (option string) :=
  log_in_out
    (p <- get_self;;
     if use_hybrid_ips p then _get_hybrid_ip fuel node_id
     else
       node <- _get_cached_node fuel node_id;;
       match first_address (node_get_floating_ips node) with
       | Some address => ret (Some address)
       | None =>
           node <- _get_node fuel node_id;;
           match first_address (node_get_floating_ips node) with
           | Some address => ret (Some address)
           | None => ret None
           end
       end).

(** *** Setting tags *)

(** [[f"{k}:{v}" for k, v in tags.items()]] *)
Definition to_gen2_tags (tags : list (string * string)) : list string :=
  (fun kv => kv.1 +:+ ":" +:+ kv.2) <$> tags.

(** [l.remove(x)]: the first occurrence goes; [None] stands for the
    [ValueError] raised when there is none. *)
Fixpoint list_remove (x : string) (l : list string) : option (list string) :=
  match l with
  | [] => None
  | y :: l' =>
      if String.eqb x y then Some l'
      else match list_remove x l' with
           | Some r => Some (y :: r)
           | None => None
           end
  end.

(** A bare [raise] where no exception is being handled. *)
Definition bare_raise {A} : M W A :=
  raise (RuntimeError "No active exception to reraise").

Definition set_node_tags (fuel : nat) (node_id : string)
    (tags : list (string * string)) : M W unit :=
  log_in_out
    (node <- _get_node fuel node_id;;
     let resource_crn := node_crn node in
     (* 1. convert tags to gen2 format *)
     let new_tags := to_gen2_tags tags in
     (* 2. attach new tags *)
     attached <- _global_tagging_with_retries fuel resource_crn "attach_tag"
                   (Some new_tags);;
     if negb (truthy attached) then bare_raise
     else
       (* 3. check that status is been updated and detach old statuses *)
       match odict.get "ray-node-status" tags with
       | Some new_status =>
           (* remove updated status from tags_to_detach *)
           match list_remove ("ray-node-status:" +:+ new_status)
                   ALL_STATUS_TAGS with
           | None => raise (ValueError "list.remove(x): x not in list")
           | Some tags_to_detach =>
               (* detach any status tags not appearing in new tags *)
               detached <- _global_tagging_with_retries fuel resource_crn
                             "detach_tag" (Some tags_to_detach);;
               if negb (truthy detached) then bare_raise
               else sleep 1
           end
       | None => ret tt
       end).

(** *** Creating nodes *)

(** Returns the instance information *)
Definition _get_instance_data (name : string) : M W (option instance) :=
  p <- get_self;;
  instances <- call (list_instances (ibm_vpc_client p) name);;
  match instances with
  | first :: _ => ret (Some first)
  | [] => ret None
  end.

(** The first part of [_create_instance]: the prototype, built from
    [base_config] and the provider configuration. *)
Definition instance_prototype_of (p : provider) (name : string)
    (base_config : base_config) : M W instance_prototype :=
  security_group <- subscript "security_group_id" (security_group_id base_config);;
  subnet <- subscript "subnet_id" (subnet_id base_config);;
  key <- subscript "key_id" (key_id base_config);;
  resource_group <- subscript "resource_group_id" (resource_group_id base_config);;
  vpc <- subscript "vpc_id" (vpc_id base_config);;
  image <- subscript "image_id" (image_id base_config);;
  zone <- subscript "zone_name" (zone_name p);;
  ret {| proto_name := name;
         proto_key_id := key;
         proto_profile_name :=
           default PROFILE_NAME_DEFAULT (instance_profile_name base_config);
         proto_resource_group_id := resource_group;
         proto_vpc_id := vpc;
         proto_image_id := image;
         proto_zone_name := zone;
         proto_boot_volume_capacity :=
           default 100%Z (boot_volume_capacity base_config);
         proto_boot_volume_name := name +:+ "-boot";
         proto_boot_volume_tier :=
           default VOLUME_TIER_NAME_DEFAULT (volume_tier_name base_config);
         proto_subnet_id := subnet;
         proto_security_group_id := security_group |}.

(** Creates a new VM instance.  The result is [None] when the name is
    taken and [_get_instance_data] finds no instance of that name. *)
Definition _create_instance (name : string) (base_config : base_config)
  : M W (option instance) :=
  p <- get_self;;
  instance_prototype <- instance_prototype_of p name base_config;;
  r <- catch_api (call (create_instance (ibm_vpc_client p) instance_prototype));;
  match r with
  | inr resp => ret (Some resp)
  | inl e =>
      match e with
      | ApiException code message =>
          if Z.eqb code 400 && contains "already exists" message then
            _get_instance_data name
          else if Z.eqb code 400 && contains "over quota" message then
            raise e
          else raise e
      | _ => raise e
      end
  end.

(** [for ip in ...: if ip["address"] == base_config["head_ip"]: return ip] *)
Fixpoint find_address (address : string) (ips : list floating_ip)
  : option floating_ip :=
  match ips with
  | [] => None
  | ip :: ips' =>
      if String.eqb (fip_address ip) address then Some ip
      else find_address address ips'
  end.

Definition new_floating_ip (base_config : base_config) : M W floating_ip :=
  hex <- uuid4;;
  let floating_ip_name := RAY_RECYCLABLE +:+ "-" +:+ String.substring 0 4 hex in
  p <- get_self;;
  zone <- subscript "zone_name" (zone_name p);;
  resource_group <- subscript "resource_group_id" (resource_group_id base_config);;
  call (create_floating_ip (ibm_vpc_client p)
          {| fproto_name := floating_ip_name;
             fproto_zone_name := zone;
             fproto_resource_group_id := resource_group |}).

(** Creates or attaches floating IP address *)
Definition _create_floating_ip (base_config : base_config) : M W floating_ip :=
  match head_ip base_config with
  | Some (String c rest as address) =>
      p <- get_self;;
      ips <- call (list_floating_ips (ibm_vpc_client p));;
      match find_address address ips with
      | Some ip => ret ip
      | None => new_floating_ip base_config
      end
  | _ => new_floating_ip base_config
  end.

(** [inst_p_nic["primary_ipv4_address"]] is read for its truth value;
    the VPC service always sends the key. *)
Definition _attach_floating_ip (instance : instance) (fip_data : floating_ip)
  : M W unit :=
  let fip_id := fip_id fip_data in
  (* check if floating ip is not attached yet *)
  let inst_p_nic := inst_primary_network_interface instance in
  let has_address :=
    match primary_ipv4_address inst_p_nic with
    | Some (String _ _) => true
    | _ => false
    end in
  if has_address && String.eqb (nic_id inst_p_nic) fip_id then
    (* floating ip already attached. do nothing *)
    ret tt
  else
    (* attach floating ip *)
    nic0 <- match inst_network_interfaces instance with
            | n0 :: _ => ret n0
            | [] => raise (IndexError "list index out of range")
            end;;
    p <- get_self;;
    call (add_instance_network_interface_floating_ip (ibm_vpc_client p)
            (inst_id instance) (nic_id nic0) fip_id).

(** The continuation lines of the two f-strings of [_stopped_nodes]
    start with twelve blanks, which are part of the query. *)
Definition continuation_indent : string := "            ".

Definition stopped_query (p : provider) (tags : list (string * string))
  : M W string :=
  let query :=
    "tags:" +:+ dquote +:+ TAG_RAY_CLUSTER_NAME +:+ ":" +:+ cluster_name p
      +:+ dquote in
  kind <- subscript TAG_RAY_NODE_KIND (odict.get TAG_RAY_NODE_KIND tags);;
  let query :=
    query +:+ " AND tags:" +:+ dquote +:+ TAG_RAY_NODE_KIND +:+ ":"
      +:+ continuation_indent +:+ kind +:+ dquote in
  launch <- subscript TAG_RAY_LAUNCH_CONFIG
              (odict.get TAG_RAY_LAUNCH_CONFIG tags);;
  ret (query +:+ " AND tags:" +:+ dquote +:+ TAG_RAY_LAUNCH_CONFIG +:+ ":"
         +:+ continuation_indent +:+ launch +:+ dquote).

(** filter instances by state (stopped,stopping) *)
Fixpoint filter_stopped (items : list item) (nodes : list item)
  : M W (list item) :=
  match items with
  | [] => ret nodes
  | node :: items' =>
      let instance_id := resource_id node in
      p <- get_self;;
      r <- catch (call (get_instance (ibm_vpc_client p) instance_id));;
      match r with
      | inr instance =>
          if bool_decide (inst_status instance ∈ ["stopped"; "stopping"])
          then filter_stopped items' (nodes ++ [node])
          else filter_stopped items' nodes
      | inl e =>
          not_found <- is_instance_not_found e;;
          if not_found then filter_stopped items' nodes else raise e
      end
  end.

Definition _stopped_nodes (tags : list (string * string)) : M W (list item) :=
  p <- get_self;;
  query <- stopped_query p tags;;
  r <- catch_api (call (search (global_search_service p) query None));;
  items <- match r with
           | inr items => ret items
           | inl _ =>
               (* failed to query global search service, reiniting now *)
               modify_self (fun p =>
                 set_clients (ibm_vpc_client p) (global_tagging_service p)
                             (S (global_search_service p)) p);;;
               p <- get_self;;
               call (search (global_search_service p) query None)
           end;;
  filter_stopped items [].

(** The loop of [_wait_running]; [start] is the time of the call.
    [_delete_node] is the method of that name, as the calling thread can
    run it. *)
Fixpoint wait_running_loop (_delete_node : string -> M W unit) (fuel : nat)
    (start : Z) (instance_id : string) (instance : instance) : M W unit :=
  match fuel with
  | O => diverge
  | S fuel' =>
      if negb (String.eqb (inst_status instance) "running") then
        sleep 1;;;
        p <- get_self;;
        instance <- call (get_instance (ibm_vpc_client p) instance_id);;
        t <- now;;
        if Z.ltb PENDING_TIMEOUT (t - start) then
          _delete_node instance_id;;;
          raise (Exception
                   ("Instance " +:+ instance_id +:+
                    " been hanging in pending state too long, deleting"))
        else wait_running_loop _delete_node fuel' start instance_id instance
      else ret tt
  end.

Definition wait_running_with (_delete_node : string -> M W unit) (fuel : nat)
    (instance_id : string) : M W unit :=
  start <- now;;
  p <- get_self;;
  instance <- call (get_instance (ibm_vpc_client p) instance_id);;
  wait_running_loop _delete_node fuel start instance_id instance.

(** if instance starting longer than PENDING_TIMEOUT delete it *)
Definition _wait_running (fuel : nat) (instance_id : string) : M W unit :=
  wait_running_with (_delete_node fuel) fuel instance_id.

(** A thread of the pool of [create_node] that comes to [with self.lock]:
    [create_node] holds the lock until the pool is done, and the pool is
    done when its threads are, so the thread waits for ever.  That is
    where [_delete_node] ends when a task calls it: it calls [_get_node],
    which calls [non_terminated_nodes], which takes the lock before any
    call of the backend. *)
Definition blocked {A} : M W A := diverge.

(** [re.match("^[a-z0-9-:-]*$", name_tag)]: lower-case letters, digits,
    hyphen and colon; [$] also matches before a final newline. *)
Definition name_char_ok (c : Ascii.ascii) : bool :=
  let n := Ascii.nat_of_ascii c in
  (Nat.leb 97 n && Nat.leb n 122) || (Nat.leb 48 n && Nat.leb n 57)
  || Nat.eqb n 45 || Nat.eqb n 58.

Fixpoint name_tag_matches (s : string) : bool :=
  match s with
  | EmptyString => true
  | String c EmptyString => name_char_ok c || Nat.eqb (Ascii.nat_of_ascii c) 10
  | String c s' => name_char_ok c && name_tag_matches s'
  end.

(** [instance["id"]] and the like on the result of [_create_instance]. *)
Definition subscript_instance (key : string) (o : option instance)
  : M W instance :=
  match o with
  | Some i => ret i
  | None => raise (TypeError "'NoneType' object is not subscriptable")
  end.

(** [_create_node] up to the point where it writes to [tags].  It runs
    in a thread of the pool of [create_node], so its [_wait_running] cannot
    delete the instance when the timeout is reached. *)
Definition create_node_instance (fuel : nat) (base_config : base_config)
    (tags : list (string * string)) : M W (string * instance) :=
  name_tag <- subscript TAG_RAY_NODE_NAME (odict.get TAG_RAY_NODE_NAME tags);;
  if negb (Nat.leb (String.length name_tag)
             (INSTANCE_NAME_MAX_LEN - INSTANCE_NAME_UUID_LEN - 1)
           && name_tag_matches name_tag)
  then raise (AssertionError name_tag)
  else
    (* append instance name with uuid *)
    hex <- uuid4;;
    let name :=
      name_tag +:+ "-" +:+ String.substring 0 INSTANCE_NAME_UUID_LEN hex in
    (* create instance in vpc *)
    created <- _create_instance name base_config;;
    (* currently create and tag is not an atomic operation
       adding instance to cache to be returned by non_terminated_nodes
       but with no tags *)
    instance <- subscript_instance "id" created;;
    modify_self (fun p =>
      set_pending_nodes
        (odict.set (inst_id instance) instance (pending_nodes p)) p);;;
    (* currently always creating public ip for head node *)
    p <- get_self;;
    (if bool_decide (_get_node_type p name = Some "head") then
       fip_data <- _create_floating_ip base_config;;
       _attach_floating_ip instance fip_data
     else ret tt);;;
    wait_running_with (fun _ => blocked) fuel (inst_id instance);;;
    ret (name, instance).

(** [_create_node] as a task of the thread pool.  The dictionary [tags]
    belongs to the caller and is shared by all tasks: the task returns it
    as it leaves it, together with what its future holds (the exception
    raised, or the dictionary with the new instance). *)
Definition _create_node (fuel : nat) (base_config : base_config)
    (tags : list (string * string))
  : M W (list (string * string) * (exn + gmap string node)) :=
  r <- catch (create_node_instance fuel base_config tags);;
  match r with
  | inl e => ret (tags, inl e)
  | inr (name, instance) =>
      p <- get_self;;
      let tags := odict.set TAG_RAY_CLUSTER_NAME (cluster_name p) tags in
      let tags := odict.set TAG_RAY_NODE_NAME name tags in
      (* convert tags to provider format and tag instance *)
      let new_tags := to_gen2_tags tags in
      r <- catch (attached <- _global_tagging_with_retries fuel
                                (inst_crn instance) "attach_tag"
                                (Some new_tags);;
                  if negb (truthy attached) then bare_raise
                  else ret ({[ inst_id instance := Instance instance ]}
                              : gmap string node));;
      ret (tags, r)
  end.

(** [ex.submit(self._create_node, base_config, tags)], [count] times.
    The pool runs its tasks concurrently; here they run one after the
    other in the order of submission, which is one of its schedules. *)
Fixpoint submit_create_node (fuel : nat) (count : nat)
    (base_config : base_config) (tags : list (string * string))
  : M W (list (exn + gmap string node)) :=
  match count with
  | O => ret []
  | S count' =>
      r <- _create_node fuel base_config tags;;
      futures <- submit_create_node fuel count' base_config r.1;;
      ret (r.2 :: futures)
  end.

(** [for future in cf.as_completed(futures): ...update(future.result())] *)
Fixpoint collect_created (futures : list (exn + gmap string node))
    (created_nodes_dict : gmap string node) : M W (gmap string node) :=
  match futures with
  | [] => ret created_nodes_dict
  | inr created_node :: futures' =>
      collect_created futures' (created_node ∪ created_nodes_dict)
  | inl e :: _ => raise e
  end.

(** [cf.ThreadPoolExecutor(max_workers)] *)
Definition thread_pool_executor (max_workers : Z) : M W unit :=
  if Z.leb max_workers 0 then
    raise (ValueError "max_workers must be greater than 0")
  else ret tt.

Fixpoint start_instances (stopped_nodes : list item) : M W unit :=
  match stopped_nodes with
  | [] => ret tt
  | node :: stopped_nodes' =>
      p <- get_self;;
      call (create_instance_action (ibm_vpc_client p) (resource_id node)
              "start");;;
      start_instances stopped_nodes'
  end.

Fixpoint retag_stopped (fuel : nat) (stopped_nodes_ids : list string)
    (tags : list (string * string)) : M W unit :=
  match stopped_nodes_ids with
  | [] => ret tt
  | node_id :: ids' =>
      set_node_tags fuel node_id tags;;;
      p <- get_self;;
      match list_remove node_id (deleted_nodes p) with
      | Some l => modify_self (set_deleted_nodes l)
      | None => raise (ValueError "list.remove(x): x not in list")
      end;;;
      retag_stopped fuel ids' tags
  end.

Definition create_node (fuel : nat) (base_config : base_config)
    (tags : list (string * string)) (count : Z) : M W (gmap string node) :=
  log_in_out
    (p <- get_self;;
     (* Try to reuse previously stopped nodes with compatible configs *)
     reused <-
       (if cache_stopped_nodes p then
          stopped_nodes <- _stopped_nodes tags;;
          let stopped_nodes_ids := resource_id <$> stopped_nodes in
          let stopped_nodes_dict := by_resource_id stopped_nodes in
          start_instances stopped_nodes;;;
          sleep 1;;;
          retag_stopped fuel stopped_nodes_ids tags;;;
          ret (stopped_nodes_dict,
               (count - Z.of_nat (length stopped_nodes_ids))%Z)
        else ret (∅, count));;
     let stopped_nodes_dict := reused.1 in
     let count := reused.2 in
     (* create multiple instances concurrently *)
     thread_pool_executor count;;;
     futures <- submit_create_node fuel (Z.to_nat count) base_config tags;;
     created_nodes_dict <- collect_created futures ∅;;
     ret (created_nodes_dict ∪ (Item <$> stopped_nodes_dict))).

(** *** Terminating nodes *)

(** Deletes the VM instance and the associated volume *)
Definition terminate_node (fuel : nat) (node_id : string) : M W unit :=
  log_in_out
    (r <- catch_api
            (p <- get_self;;
             (if cache_stopped_nodes p then
                call (create_instance_action (ibm_vpc_client p) node_id "stop")
              else _delete_node fuel node_id);;;
             modify_self (fun p =>
               set_deleted_nodes (deleted_nodes p ++ [node_id]) p);;;
             (* and remove it from all caches *)
             modify_self (fun p =>
               set_prev_nodes ((fun ids => ids ∖ {[node_id]}) <$> prev_nodes p) p);;;
             modify_self (fun p =>
               set_cached_nodes (delete node_id (cached_nodes p)) p));;
     match r with
     | inr _ => ret tt
     | inl e =>
         match e with
         | ApiException code _ => if Z.eqb code 404 then ret tt else raise e
         | _ => raise e
         end
     end).

(** [ex.submit(self.terminate_node, node_id)] for every id: the tasks of
    the pool, run in the order of submission. *)
Fixpoint submit_terminate_node (fuel : nat) (node_ids : list string)
  : M W (list (exn + unit)) :=
  match node_ids with
  | [] => ret []
  | node_id :: node_ids' =>
      r <- catch (terminate_node fuel node_id);;
      futures <- submit_terminate_node fuel node_ids';;
      ret (r :: futures)
  end.

Fixpoint collect_terminated (futures : list (exn + unit)) : M W unit :=
  match futures with
  | [] => ret tt
  | inr _ :: futures' => collect_terminated futures'
  | inl e :: _ => raise e
  end.

Definition terminate_nodes (fuel : nat) (node_ids : list string) : M W unit :=
  log_in_out
    (match node_ids with
     | [] => ret tt
     | _ =>
         thread_pool_executor (Z.of_nat (length node_ids));;;
         futures <- submit_terminate_node fuel node_ids;;
         collect_terminated futures
     end).

(** *** Tags as a dictionary *)

(** [s.split(sep)] for a separator of one character: the pieces between
    the separators, at least one. *)
Fixpoint str_split (sep : Ascii.ascii) (s : string) : list string :=
  match s with
  | EmptyString => [EmptyString]
  | String c s' =>
      if Ascii.eqb c sep then EmptyString :: str_split sep s'
      else match str_split sep s' with
           | piece :: pieces => String c piece :: pieces
           | [] => [String c EmptyString]
           end
  end.

Definition colon : Ascii.ascii := Ascii.ascii_of_nat 58.

(** [node["tags"]]: an instance record has the key once [_get_node] has
    set it. *)
Definition node_tags_of (n : node) : M W (list string) :=
  match n with
  | Item n => ret (tags n)
  | Instance i => subscript "tags" (inst_tags i)
  end.

(** [for tag in node["tags"]: ...] *)
Fixpoint tags_to_dict_loop (node_tags : list string)
    (tags_dict : list (string * string)) : M W (list (string * string)) :=
  match node_tags with
  | [] => ret tags_dict
  | tag :: node_tags' =>
      match str_split colon tag with
      | key :: value :: _ =>
          tags_to_dict_loop node_tags' (odict.set key value tags_dict)
      | _ => raise (IndexError "list index out of range")
      end
  end.

(** convert ibm cloud tags format to ray tags format *)
Definition _tags_to_dict (node : node) : M W (list (string * string)) :=
  p <- get_self;;
  if contains (cluster_name p) (node_name node) then
    let tags_dict := odict.set TAG_RAY_CLUSTER_NAME (cluster_name p) [] in
    let tags_dict :=
      odict.set TAG_RAY_NODE_KIND
        (if contains (cluster_name p +:+ "-" +:+ WORKER) (node_name node)
         then WORKER else HEAD)
        tags_dict in
    let tags_dict := odict.set TAG_RAY_NODE_NAME (node_name node) tags_dict in
    node_tags <- node_tags_of node;;
    tags_to_dict_loop node_tags tags_dict
  else ret [].

Definition node_tags (fuel : nat) (node_id : string)
  : M W (list (string * string)) :=
  log_in_out
    (node <- _get_cached_node fuel node_id;;
     _tags_to_dict node).

End provider.

(** ** Notions used in the statements *)

Section notions.
Context {W : Type} {B : Backend W}.

(** [m] keeps the invariant [I] however it ends, and the value it
    returns, when it returns one, satisfies [Q]. *)
Definition keeps (I : state W -> Prop) {A} (m : M W A) (Q : A -> Prop) : Prop :=
  forall s, I s -> I (m s).2 /\ forall a, (m s).1 = Ok a -> Q a.

(** [m] never runs out of fuel. *)
Definition returns {A} (m : M W A) : Prop :=
  forall s, (m s).1 <> Diverge.

(** A node id is masked when it is among the deleted ids and not among
    the cached nodes. *)
Definition masked (id : string) (p : provider) : Prop :=
  id ∈ deleted_nodes p /\ cached_nodes p !! id = None.

(** The same, of a state. *)
Definition masked_in (id : string) (s : state W) : Prop := masked id (self s).

(** What [terminate_node] does to the caches: the id is masked and in no
    set of previously seen ids. *)
Definition purged (id : string) (p : provider) : Prop :=
  masked id p /\ forall key ids, prev_nodes p !! key = Some ids -> id ∉ ids.

(** The nodes collected by an iteration of the retry loop leave [id]
    out. *)
Definition without_id (id : string) (v : loop_vars) : Prop :=
  Forall (fun n => resource_id n <> id) (nodes v)
  /\ found_nodes v !! id = None.

(** The loop variables at the start of every iteration that [nt_while]
    runs from [v] in state [s]: one entry per search. *)
Fixpoint nt_trace (fuel : nat) (query : string) (v : loop_vars)
    (s : state W) : list loop_vars :=
  match fuel with
  | O => []
  | S fuel' =>
      if Nat.ltb (retry v) NT_RETRIES then
        v :: match nt_iteration query v s with
             | (Ok (v', Continue), s') => nt_trace fuel' query v' s'
             | _ => []
             end
      else []
  end.

(** The iterations, after the first, that start with the counter at
    zero: each follows an iteration that found the sorted missing ids
    changed and reset the counter. *)
Definition resets (trace : list loop_vars) : nat :=
  length (List.filter (fun v => Nat.eqb (retry v) 0) (tail trace)).

(** Between two consecutive iterations the sorted missing ids have
    changed: those that the first iteration started with were not empty,
    and those that it left are others.  This is the test of the loop for
    setting its counter back to zero. *)
Definition missing_changed (v v' : loop_vars) : bool :=
  negb (bool_decide (missing_nodes v = []))
  && negb (bool_decide (missing_nodes v' = missing_nodes v)).

(** How often the missing ids change along a trace. *)
Fixpoint changes (trace : list loop_vars) : nat :=
  match trace with
  | [] => 0
  | v :: trace' =>
      match trace' with
      | v' :: _ => if missing_changed v v' then 1 else 0
      | [] => 0
      end + changes trace'
  end.

(** The counter along a trace: below the cap at the start of every
    iteration, one more than in the iteration before, and zero after a
    change of the missing ids. *)
Fixpoint counted (trace : list loop_vars) : Prop :=
  match trace with
  | [] => True
  | v :: trace' =>
      retry v < NT_RETRIES
      /\ match trace' with
         | v' :: _ =>
             retry v' = if missing_changed v v' then 0 else S (retry v)
         | [] => True
         end
      /\ counted trace'
  end.

(** The node carries no floating ip: the key is absent or the list is
    empty. *)
Definition no_floating_ip (n : node) : Prop :=
  default [] (node_get_floating_ips n) = [].

(** A property of the provider object, as a property of states. *)
Definition on_self (J : provider -> Prop) (s : state W) : Prop := J (self s).

(** The settings of the provider and its deleted ids are those of [p0]. *)
Definition same_settings (p0 p : provider) : Prop :=
  cluster_name p = cluster_name p0
  /\ use_hybrid_ips p = use_hybrid_ips p0
  /\ zone_name p = zone_name p0
  /\ cache_stopped_nodes p = cache_stopped_nodes p0
  /\ deleted_nodes p = deleted_nodes p0.

(** What [non_terminated_nodes] asks of a search item before it lists it:
    the id is not deleted, the status is one of the three live ones, and a
    node with the name of a head node carries a floating ip. *)
Definition eligible (p : provider) (n : item) : Prop :=
  (resource_id n ∉ deleted_nodes p)
  /\ (status (doc n) ∈ ["pending"; "starting"; "running"])
  /\ (_get_node_type p (name n) = Some "head" ->
      exists ip ips, floating_ips n = Some (ip :: ips)).

(** The variables of the retry loop hold eligible nodes, and the
    dictionary of the found nodes is made of them. *)
Definition found_eligible (p : provider) (v : loop_vars) : Prop :=
  Forall (eligible p) (nodes v) /\ found_nodes v = by_resource_id (nodes v).

(** The checks of [_stopped_nodes] on the items of a search answer, from
    world [w] to world [w']: the VPC client [h] is asked for the instance of
    every item, in order, each time in the world that the question before
    has left.  An item is kept when its instance is reported stopped or
    stopping; it is left out when the instance is reported in another state
    or is not found. *)
Inductive stopped_run (h : nat) : W -> list item -> list item -> W -> Prop :=
| stopped_run_nil w : stopped_run h w [] [] w
| stopped_run_keep w n i w1 items kept w' :
    get_instance h (resource_id n) w = (Success i, w1) ->
    inst_status i ∈ ["stopped"; "stopping"] ->
    stopped_run h w1 items kept w' ->
    stopped_run h w (n :: items) (n :: kept) w'
| stopped_run_other w n i w1 items kept w' :
    get_instance h (resource_id n) w = (Success i, w1) ->
    inst_status i ∉ ["stopped"; "stopping"] ->
    stopped_run h w1 items kept w' ->
    stopped_run h w (n :: items) kept w'
| stopped_run_gone w n e w1 items kept w' :
    get_instance h (resource_id n) w = (Failure e, w1) ->
    exn_message e = Some "Instance not found" ->
    stopped_run h w1 items kept w' ->
    stopped_run h w (n :: items) kept w'.

(** The dictionary that a task of [create_node] returns: one new
    instance under its id. *)
Definition one_instance (d : gmap string node) : Prop :=
  exists i, d = {[ inst_id i := Instance i ]}.

(** Every cached node is an item of the search with a live status. *)
Definition cache_live (p : provider) : Prop :=
  forall id n,
    cached_nodes p !! id = Some n ->
    exists it,
      n = Item it /\ status (doc it) ∈ ["pending"; "starting"; "running"].

(** The order of [sorted(tag_filters.items())]. *)
Definition item_le (a b : string * string) : Prop := item_leb a b = true.

(** No colon in the string. *)
Definition colon_free (s : string) : Prop := contains ":" s = false.

End notions.

(** Tag [t] is attached to the resource [crn] in state [s], for a reading
    [attached] of the worlds. *)
Definition attached_in {W : Type} (attached : W -> string -> gset string)
    (crn t : string) (s : state W) : Prop :=
  t ∈ attached (world s) crn.

(** A tagging service whose [list_tags] reads the tags that are attached,
    and where a tag goes only when it is detached. *)
Class TagStore {W : Type} {B : Backend W} (attached : W -> string -> gset string)
  : Prop := {
  list_tags_reads h crn w names w' :
    list_tags h crn w = (Success names, w') ->
    list_to_set names = attached w' crn;
  list_tags_keeps h crn w r w' crn' :
    list_tags h crn w = (r, w') -> attached w' crn' = attached w crn';
  time_sleep_keeps seconds w crn :
    attached (time_sleep seconds w) crn = attached w crn;
  detach_tag_keeps h crn l w r w' t :
    detach_tag h crn (Some l) w = (r, w') ->
    t ∉ l -> t ∈ attached w crn -> t ∈ attached w' crn
}.

(** ** A simulated backend

    A small cloud to run the provider on: instances, a tag store, a search
    index behind a script of replies, and injected faults.  It serves the
    examples of this development; the general results hold for every
    backend. *)

Module Sim.

Record cloud : Type := {
  clock : Z;
  (** replies of the next searches, in order; once they are used up the
      search service answers with [index] *)
  search_script : list (response (list item));
  index : list item;
  instances : list instance;
  (** the floating ips of every network interface *)
  nic_floating_ips : list floating_ip;
  tag_store : gmap string (list string);
  (** the tagging service accepts attach and detach without effect *)
  tags_frozen : bool;
  (** the next call of the named operation raises (once) *)
  faults : list (string * exn);
  (** every call of the named operation raises *)
  outages : list (string * exn);
  uuids : list string;
  (** the calls made so far, latest first: operation and main argument *)
  calls : list (string * string)
}.

Definition with_calls (l : list (string * string)) (c : cloud) : cloud :=
  {| clock := clock c; search_script := search_script c; index := index c;
     instances := instances c; nic_floating_ips := nic_floating_ips c;
     tag_store := tag_store c; tags_frozen := tags_frozen c;
     faults := faults c; outages := outages c; uuids := uuids c;
     calls := l |}.

Definition with_faults (l : list (string * exn)) (c : cloud) : cloud :=
  {| clock := clock c; search_script := search_script c; index := index c;
     instances := instances c; nic_floating_ips := nic_floating_ips c;
     tag_store := tag_store c; tags_frozen := tags_frozen c;
     faults := l; outages := outages c; uuids := uuids c;
     calls := calls c |}.

Definition with_search_script (l : list (response (list item))) (c : cloud)
  : cloud :=
  {| clock := clock c; search_script := l; index := index c;
     instances := instances c; nic_floating_ips := nic_floating_ips c;
     tag_store := tag_store c; tags_frozen := tags_frozen c;
     faults := faults c; outages := outages c; uuids := uuids c;
     calls := calls c |}.

Definition with_instances (l : list instance) (c : cloud) : cloud :=
  {| clock := clock c; search_script := search_script c; index := index c;
     instances := l; nic_floating_ips := nic_floating_ips c;
     tag_store := tag_store c; tags_frozen := tags_frozen c;
     faults := faults c; outages := outages c; uuids := uuids c;
     calls := calls c |}.

Definition with_tag_store (m : gmap string (list string)) (c : cloud) : cloud :=
  {| clock := clock c; search_script := search_script c; index := index c;
     instances := instances c; nic_floating_ips := nic_floating_ips c;
     tag_store := m; tags_frozen := tags_frozen c;
     faults := faults c; outages := outages c; uuids := uuids c;
     calls := calls c |}.

Definition with_clock (t : Z) (c : cloud) : cloud :=
  {| clock := t; search_script := search_script c; index := index c;
     instances := instances c; nic_floating_ips := nic_floating_ips c;
     tag_store := tag_store c; tags_frozen := tags_frozen c;
     faults := faults c; outages := outages c; uuids := uuids c;
     calls := calls c |}.

Definition with_uuids (l : list string) (c : cloud) : cloud :=
  {| clock := clock c; search_script := search_script c; index := index c;
     instances := instances c; nic_floating_ips := nic_floating_ips c;
     tag_store := tag_store c; tags_frozen := tags_frozen c;
     faults := faults c; outages := outages c; uuids := l;
     calls := calls c |}.

Fixpoint take_fault (op : string) (l : list (string * exn))
  : option (exn * list (string * exn)) :=
  match l with
  | [] => None
  | (op', e) :: l' =>
      if String.eqb op op' then Some (e, l')
      else match take_fault op l' with
           | Some (e', r) => Some (e', (op', e) :: r)
           | None => None
           end
  end.

(** Every operation is logged, then fails if an outage or a fault is
    set for it, and otherwise answers. *)
Definition operation {A} (op arg : string)
    (answer : cloud -> response A * cloud) (c : cloud) : response A * cloud :=
  let c := with_calls ((op, arg) :: calls c) c in
  match odict.get op (outages c) with
  | Some e => (Failure e, c)
  | None =>
      match take_fault op (faults c) with
      | Some (e, rest) => (Failure e, with_faults rest c)
      | None => answer c
      end
  end.

Definition find_instance (id : string) (c : cloud) : option instance :=
  List.find (fun i => String.eqb (inst_id i) id) (instances c).

Definition not_found {A} : response A :=
  Failure (ApiException 404 "Instance not found").

Definition set_status (st : string) (i : instance) : instance :=
  {| inst_id := inst_id i; inst_name := inst_name i; inst_crn := inst_crn i;
     inst_status := st;
     inst_network_interfaces := inst_network_interfaces i;
     inst_primary_network_interface := inst_primary_network_interface i;
     inst_tags := inst_tags i |}.

Definition new_instance (proto : instance_prototype) : instance :=
  let eth0 := {| nic_id := "eth0-" +:+ proto_name proto;
                 primary_ipv4_address := Some "10.0.0.1" |} in
  {| inst_id := "id-" +:+ proto_name proto;
     inst_name := proto_name proto;
     inst_crn := "crn:" +:+ proto_name proto;
     inst_status := "running";
     inst_network_interfaces := [eth0];
     inst_primary_network_interface := eth0;
     inst_tags := None |}.

Definition tags_at (crn : string) (c : cloud) : list string :=
  default [] (tag_store c !! crn).

Definition add_tags (new old : list string) : list string :=
  old ++ List.filter (fun t => negb (bool_decide (t ∈ old))) new.

Definition remove_tags (gone old : list string) : list string :=
  List.filter (fun t => negb (bool_decide (t ∈ gone))) old.

Definition change_tags (f : list string -> list string -> list string)
    (crn : string) (tags : option (list string)) (c : cloud)
  : response tag_results * cloud :=
  match tags with
  | None => (Failure (ApiException 400 "tag_names is required"), c)
  | Some l =>
      (Success {| results := [false] |},
       if tags_frozen c then c
       else with_tag_store (<[crn := f l (tags_at crn c)]> (tag_store c)) c)
  end.

#[global] Instance backend : Backend cloud := {|
  search _ query _ :=
    operation "search" query (fun c =>
      match search_script c with
      | reply :: rest => (reply, with_search_script rest c)
      | [] => (Success (index c), c)
      end);
  get_instance _ id :=
    operation "get_instance" id (fun c =>
      match find_instance id c with
      | Some i => (Success i, c)
      | None => (not_found, c)
      end);
  list_instance_network_interface_floating_ips _ id _ :=
    operation "list_instance_network_interface_floating_ips" id (fun c =>
      (Success (nic_floating_ips c), c));
  list_instances _ name :=
    operation "list_instances" name (fun c =>
      (Success (List.filter (fun i => String.eqb (inst_name i) name)
                  (instances c)), c));
  create_instance _ proto :=
    operation "create_instance" (proto_name proto) (fun c =>
      (Success (new_instance proto),
       with_instances (instances c ++ [new_instance proto]) c));
  list_floating_ips _ :=
    operation "list_floating_ips" EmptyString (fun c =>
      (Success (nic_floating_ips c), c));
  create_floating_ip _ proto :=
    operation "create_floating_ip" (fproto_name proto) (fun c =>
      (Success {| fip_id := "fip-" +:+ fproto_name proto;
                  fip_name := fproto_name proto;
                  fip_address := "203.0.113.7" |}, c));
  add_instance_network_interface_floating_ip _ id _ _ :=
    operation "add_instance_network_interface_floating_ip" id (fun c =>
      (Success tt, c));
  create_instance_action _ id action :=
    operation ("create_instance_action:" +:+ action) id (fun c =>
      match find_instance id c with
      | Some _ =>
          (Success tt,
           with_instances
             ((fun i => if String.eqb (inst_id i) id
                        then set_status (if String.eqb action "stop"
                                         then "stopped" else "running") i
                        else i) <$> instances c) c)
      | None => (not_found, c)
      end);
  delete_instance _ id :=
    operation "delete_instance" id (fun c =>
      match find_instance id c with
      | Some _ =>
          (Success tt,
           with_instances
             (List.filter (fun i => negb (String.eqb (inst_id i) id))
                (instances c)) c)
      | None => (not_found, c)
      end);
  delete_floating_ip _ id :=
    operation "delete_floating_ip" id (fun c => (Success tt, c));
  attach_tag _ crn tags := operation "attach_tag" crn (change_tags add_tags crn tags);
  detach_tag _ crn tags := operation "detach_tag" crn (change_tags remove_tags crn tags);
  list_tags _ crn :=
    operation "list_tags" crn (fun c => (Success (tags_at crn c), c));
  time_time c := clock c;
  time_sleep seconds c := with_clock (clock c + seconds)%Z c;
  uuid4_hex c :=
    match uuids c with
    | h :: rest => (h, with_uuids rest c)
    | [] => ("00000000000000000000000000000000", c)
    end
|}.

(** How often an operation has been called. *)
Definition count_calls (op : string) (c : cloud) : nat :=
  length (List.filter (fun call => String.eqb call.1 op) (calls c)).

Definition empty : cloud :=
  {| clock := 1000; search_script := []; index := []; instances := [];
     nic_floating_ips := []; tag_store := ∅; tags_frozen := false;
     faults := []; outages := []; uuids := []; calls := [] |}.

(** A provider as [__init__] leaves it for the cluster ["c1"]. *)
Definition init (stop_instead_of_delete : bool) : provider :=
  {| cluster_name := "c1"; use_hybrid_ips := false;
     zone_name := Some "us-south-1";
     cache_stopped_nodes := stop_instead_of_delete;
     ibm_vpc_client := 0; global_tagging_service := 0;
     global_search_service := 0;
     cached_nodes := ∅; pending_nodes := [];
     prev_nodes := {[ HEAD := ∅ ]}; deleted_nodes := [] |}.

(** A worker as the search service reports it. *)
Definition worker (id st : string) : item :=
  {| resource_id := id; name := "ray-c1-worker-" +:+ id;
     crn := "crn:" +:+ id; tags := ["ray-cluster-name:c1"; "ray-node-type:worker"];
     doc := {| status := st;
               network_interfaces :=
                 [{| nic_id := "eth0-" +:+ id;
                     primary_ipv4_address := Some "10.0.0.2" |}] |};
     floating_ips := None |}.

(** The instance record of a worker. *)
Definition vsi (id st : string) : instance :=
  let eth0 := {| nic_id := "eth0-" +:+ id;
                 primary_ipv4_address := Some "10.0.0.2" |} in
  {| inst_id := id; inst_name := "ray-c1-worker-" +:+ id;
     inst_crn := "crn:" +:+ id; inst_status := st;
     inst_network_interfaces := [eth0];
     inst_primary_network_interface := eth0;
     inst_tags := None |}.

End Sim.


(** ** Scenarios on the simulated backend *)

Module Scenario.
Import Sim.

Definition fuel : nat := 30.

(** The tags attached by the simulated service to a resource. *)
Definition attached (c : cloud) (crn : string) : gset string :=
  list_to_set (tags_at crn c).

Definition cfg : base_config :=
  {| security_group_id := Some "sg-1"; subnet_id := Some "subnet-1";
     boot_volume_capacity := None; volume_tier_name := None;
     key_id := Some "key-1"; instance_profile_name := None;
     resource_group_id := Some "rg-1"; vpc_id := Some "vpc-1";
     image_id := Some "image-1"; head_ip := None |}.

(** The tags the autoscaler asks for on a new worker. *)
Definition worker_tags : list (string * string) :=
  [ ("ray-node-type", "worker"); ("ray-launch-config", "abc");
    ("ray-node-name", "ray-c1-worker");
    ("ray-node-status", "uninitialized") ].

Definition new_id : string := "id-ray-c1-worker-aaaaaaaa".

(** *** A stopped node is reused

    Instance ["i-1"] runs and the search service keeps reporting it.
    The provider stops it, then [create_node] asks for two nodes, and
    the search index knows the new instance by the time of the last
    listing. *)
Definition reuse_cloud : cloud :=
  {| clock := 1000;
     search_script := [ Success [worker "i-1" "running"];
                        Success [worker "i-1" "running"] ];
     index := [worker "i-1" "running"; worker new_id "running"];
     instances := [vsi "i-1" "running"];
     nic_floating_ips := []; tag_store := ∅; tags_frozen := false;
     faults := []; outages := [];
     uuids := ["aaaaaaaabbbbccccddddeeeeffff0000"]; calls := [] |}.

(** The ids of the dictionary that [create_node] returns. *)
Definition created_ids (r : outcome (gmap string node)) : list string :=
  match r with
  | Ok created => elements (dom created)
  | _ => []
  end.

Definition reuse_start : state cloud := State reuse_cloud (init true).
Definition reuse_stopped : state cloud :=
  (terminate_node fuel "i-1" reuse_start).2.
Definition reuse_created : state cloud :=
  (create_node fuel cfg worker_tags 2 reuse_stopped).2.

(** *** The search service flaps

    Two workers run.  After a first listing that finds both, the search
    service reports one or the other, in turn, twenty-four times, and
    then both again. *)
Fixpoint flapping (n : nat) : list (response (list item)) :=
  match n with
  | O => []
  | S n' =>
      Success [worker "a" "running"] :: Success [worker "b" "running"]
        :: flapping n'
  end.

Definition flapping_cloud : cloud :=
  {| clock := 1000;
     search_script :=
       Success [worker "a" "running"; worker "b" "running"] :: flapping 12;
     index := [worker "a" "running"; worker "b" "running"];
     instances := [vsi "a" "running"; vsi "b" "running"];
     nic_floating_ips := []; tag_store := ∅; tags_frozen := false;
     faults := []; outages := []; uuids := []; calls := [] |}.

Definition flapping_seen : state cloud :=
  (non_terminated_nodes 100 [] (State flapping_cloud (init false))).2.

(** The provider of [flapping_seen] in front of a search service with
    the replies [script] to come, at time [t] and after the calls [cs]. *)
Definition flapping_at (script : list (response (list item))) (t : Z)
    (cs : list (string * string)) : state cloud :=
  State {| clock := t; search_script := script;
           index := [worker "a" "running"; worker "b" "running"];
           instances := [vsi "a" "running"; vsi "b" "running"];
           nic_floating_ips := []; tag_store := ∅; tags_frozen := false;
           faults := []; outages := []; uuids := []; calls := cs |}
        (self flapping_seen).

(** The query of a listing without filters. *)
Definition all_nodes : string := build_query (self flapping_seen) [].

(** The variables of the loop after a search that found one worker. *)
Definition found_one (id : string) (r : nat) (missing : list string)
  : loop_vars :=
  {| retry := r; missing_nodes := missing;
     nodes := [worker id "running"];
     found_nodes := by_resource_id [worker id "running"] |}.

(** *** A node has just been created

    [_create_node] has made a worker; the search service does not know
    its tags yet. *)
Definition created : state cloud :=
  (_create_node fuel cfg worker_tags
     (State (with_uuids ["aaaaaaaabbbbccccddddeeeeffff0000"] empty)
        (init false))).2.

(** The same, two hundred seconds later. *)
Definition created_long_ago : state cloud :=
  State (time_sleep 200 (world created)) (self created).

(** *** The search service is down *)
Definition search_down : state cloud :=
  State {| clock := 1000; search_script := []; index := []; instances := [];
           nic_floating_ips := []; tag_store := ∅; tags_frozen := false;
           faults := [];
           outages := [("search", ApiException 503 "service unavailable")];
           uuids := []; calls := [] |}
        (init false).

(** *** The tagging service fails or does not take the tags *)
Definition attach_down : state cloud :=
  State {| clock := 1000; search_script := []; index := []; instances := [];
           nic_floating_ips := []; tag_store := ∅; tags_frozen := false;
           faults := [];
           outages := [("attach_tag", ApiException 500 "internal error")];
           uuids := []; calls := [] |}
        (init false).

(** one failure, then the service answers without attaching anything *)
Definition attach_fails_once : state cloud :=
  State {| clock := 1000; search_script := []; index := []; instances := [];
           nic_floating_ips := []; tag_store := ∅; tags_frozen := true;
           faults := [("attach_tag", ApiException 500 "internal error")];
           outages := []; uuids := []; calls := [] |}
        (init false).

Definition tags_never_taken : state cloud :=
  State {| clock := 1000; search_script := []; index := []; instances := [];
           nic_floating_ips := []; tag_store := ∅; tags_frozen := true;
           faults := []; outages := []; uuids := []; calls := [] |}
        (init false).

(** *** A status is set

    Worker ["i-1"] is being set up; its status becomes up-to-date. *)
Definition setting_up : state cloud :=
  State {| clock := 1000; search_script := [];
           index := [worker "i-1" "running"];
           instances := [vsi "i-1" "running"];
           nic_floating_ips := [];
           tag_store := {[ "crn:i-1" := [ "ray-cluster-name:c1";
                                          "ray-node-status:setting-up" ] ]};
           tags_frozen := false; faults := []; outages := [];
           uuids := []; calls := [] |}
        (init false).

Definition up_to_date : state cloud :=
  (set_node_tags fuel "i-1" [("ray-node-status", "up-to-date")] setting_up).2.

(** *** An instance name is taken *)
Definition taken_name : string := "ray-c1-worker-aaaaaaaa".

Definition taken_instance : instance :=
  {| inst_id := "i-7"; inst_name := taken_name;
     inst_crn := "crn:i-7"; inst_status := "running";
     inst_network_interfaces := [];
     inst_primary_network_interface :=
       {| nic_id := "eth0"; primary_ipv4_address := None |};
     inst_tags := None |}.

Definition name_taken : state cloud :=
  State {| clock := 1000; search_script := []; index := [];
           instances := [taken_instance];
           nic_floating_ips := []; tag_store := ∅; tags_frozen := false;
           faults :=
             [("create_instance",
               ApiException 400 "instance with this name already exists")];
           outages := []; uuids := []; calls := [] |}
        (init false).

(** *** A fresh provider finds a stopped node

    The provider has just been made (no deleted ids); instance ["i-1"]
    of the cluster is stopped and the search service reports it. *)
Definition fresh_with_stopped : state cloud :=
  State {| clock := 1000; search_script := [];
           index := [worker "i-1" "stopped"];
           instances := [vsi "i-1" "stopped"];
           nic_floating_ips := []; tag_store := ∅; tags_frozen := false;
           faults := []; outages := [];
           uuids := ["aaaaaaaabbbbccccddddeeeeffff0000";
                     "ccccccccbbbbccccddddeeeeffff0000"];
           calls := [] |}
        (init true).

(** *** A head node without a floating ip, hybrid addresses *)
Definition head_vsi : instance :=
  let eth0 := {| nic_id := "eth0-h"; primary_ipv4_address := Some "10.0.0.9" |} in
  {| inst_id := "h-1"; inst_name := "ray-c1-head-0a1b2c3d";
     inst_crn := "crn:h-1"; inst_status := "running";
     inst_network_interfaces := [eth0];
     inst_primary_network_interface := eth0;
     inst_tags := None |}.

Definition hybrid_head : state cloud :=
  State {| clock := 1000; search_script := []; index := [];
           instances := [head_vsi];
           nic_floating_ips := []; tag_store := ∅; tags_frozen := false;
           faults := []; outages := []; uuids := []; calls := [] |}
        {| cluster_name := "c1"; use_hybrid_ips := true;
           zone_name := Some "us-south-1"; cache_stopped_nodes := true;
           ibm_vpc_client := 0; global_tagging_service := 0;
           global_search_service := 0;
           cached_nodes := ∅; pending_nodes := [];
           prev_nodes := {[ HEAD := ∅ ]}; deleted_nodes := [] |}.

(** *** More states for the examples *)

(** A provider that has just been made, and an empty cloud. *)
Definition fresh : state cloud := State empty (init false).

(** The state in which [_create_node] makes the worker of [created]. *)
Definition before_create : state cloud :=
  State (with_uuids ["aaaaaaaabbbbccccddddeeeeffff0000"] empty) (init false).

(** The instance that the simulated service makes for it. *)
Definition new_worker : instance :=
  new_instance
    {| proto_name := "ray-c1-worker-aaaaaaaa"; proto_key_id := "key-1";
       proto_profile_name := PROFILE_NAME_DEFAULT;
       proto_resource_group_id := "rg-1"; proto_vpc_id := "vpc-1";
       proto_image_id := "image-1"; proto_zone_name := "us-south-1";
       proto_boot_volume_capacity := 100;
       proto_boot_volume_name := "ray-c1-worker-aaaaaaaa-boot";
       proto_boot_volume_tier := VOLUME_TIER_NAME_DEFAULT;
       proto_subnet_id := "subnet-1"; proto_security_group_id := "sg-1" |}.

(** Worker ["i-1"] after a listing has found it. *)
Definition listed : state cloud := (non_terminated_nodes fuel [] setting_up).2.

(** The new worker of [created] once the search service knows it, while
    it is starting. *)
Definition created_and_indexed : state cloud :=
  State {| clock := 1000; search_script := [];
           index := [worker new_id "starting"];
           instances := instances (world created);
           nic_floating_ips := []; tag_store := tag_store (world created);
           tags_frozen := false; faults := []; outages := [];
           uuids := []; calls := [] |}
        (self created).

(** Two workers of a provider that deletes its nodes. *)
Definition two_workers : state cloud :=
  State {| clock := 1000; search_script := [];
           index := [worker "a" "running"; worker "b" "running"];
           instances := [vsi "a" "running"; vsi "b" "running"];
           nic_floating_ips := []; tag_store := ∅; tags_frozen := false;
           faults := []; outages := []; uuids := []; calls := [] |}
        (init false).

(** The dictionary that [create_node] returns in [reuse_stopped]. *)
Definition created_dict : gmap string node :=
  match (create_node fuel cfg worker_tags 2 reuse_stopped).1 with
  | Ok d => d
  | _ => ∅
  end.

(** A worker that carries a label beside its tags. *)
Definition labelled_worker : item :=
  {| resource_id := "i-2"; name := "ray-c1-worker-i-2"; crn := "crn:i-2";
     tags := ["ray-cluster-name:c1"; "ray-node-type:worker"; "production"];
     doc := {| status := "running";
               network_interfaces :=
                 [{| nic_id := "eth0-i-2";
                     primary_ipv4_address := Some "10.0.0.3" |}] |};
     floating_ips := None |}.

Definition labelled : state cloud :=
  (non_terminated_nodes fuel []
     (State {| clock := 1000; search_script := [];
               index := [labelled_worker];
               instances := [vsi "i-2" "running"];
               nic_floating_ips := []; tag_store := ∅; tags_frozen := false;
               faults := []; outages := []; uuids := []; calls := [] |}
        (init false))).2.

(** A head node with a floating ip, as the search service reports it. *)
Definition head_item : item :=
  {| resource_id := "h-1"; name := "ray-c1-head-0a1b2c3d"; crn := "crn:h-1";
     tags := ["ray-cluster-name:c1"; "ray-node-type:head"];
     doc := {| status := "running";
               network_interfaces :=
                 [{| nic_id := "eth0-h";
                     primary_ipv4_address := Some "10.0.0.9" |}] |};
     floating_ips := None |}.

Definition head_up : state cloud :=
  State {| clock := 1000; search_script := []; index := [head_item];
           instances := [head_vsi];
           nic_floating_ips :=
             [{| fip_id := "fip-1"; fip_name := "ray-recyclable-0a1b";
                 fip_address := "203.0.113.7" |}];
           tag_store := ∅; tags_frozen := false;
           faults := []; outages := []; uuids := []; calls := [] |}
        (init false).

End Scenario.

(** * Properties *)

(** ** Facts about the monad *)

Section monad_facts.
Context {W : Type} {B : Backend W}.

Lemma bind_Ok {A C} (m : M W A) (k : A -> M W C) s c s' :
  bind m k s = (Ok c, s') ->
  exists a s1, m s = (Ok a, s1) /\ k a s1 = (Ok c, s').
Proof.
  unfold bind. destruct (m s) as [[a|x|] s1]; try discriminate. eauto.
Qed.

Lemma catch_Ok_inr {A} (m : M W A) s a s' :
  catch m s = (Ok (inr a), s') -> m s = (Ok a, s').
Proof. unfold catch. destruct (m s) as [[?|?|] ?]; congruence. Qed.

Lemma catch_api_Ok_inr {A} (m : M W A) s a s' :
  catch_api m s = (Ok (inr a), s') -> m s = (Ok a, s').
Proof.
  unfold catch_api. destruct (m s) as [[?|x|] ?]; try congruence.
  destruct (is_ApiException x); congruence.
Qed.

Lemma catch_api_Ok_inl {A} (m : M W A) s e s' :
  catch_api m s = (Ok (inl e), s') ->
  m s = (Raise e, s') /\ is_ApiException e = true.
Proof.
  unfold catch_api. destruct (m s) as [[?|x|] ?]; try congruence.
  destruct (is_ApiException x) eqn:E; [|congruence]. by intros [= <- <-].
Qed.

Lemma catch_api_Raise {A} (m : M W A) s e s' :
  catch_api m s = (Raise e, s') -> is_ApiException e = false.
Proof.
  unfold catch_api. destruct (m s) as [[a|x|] s1]; try discriminate.
  destruct (is_ApiException x) eqn:E; [discriminate|]. by intros [= <- <-].
Qed.

Lemma call_Ok {A} (op : W -> response A * W) s a s' :
  call op s = (Ok a, s') ->
  op (world s) = (Success a, world s') /\ self s' = self s.
Proof.
  unfold call. destruct (op (world s)) as [[x|e] w]; [|discriminate].
  intros [= <- <-]. done.
Qed.

Lemma log_in_out_eq {A} (m : M W A) s : log_in_out m s = m s.
Proof. unfold log_in_out, bind, catch. by destruct (m s) as [[?|?|] ?]. Qed.

(** *** Invariants *)

Lemma keeps_ret (I : state W -> Prop) {A} (a : A) (Q : A -> Prop) : Q a -> keeps I (ret a) Q.
Proof. intros Ha s Hs. split; [done|]. cbn. intros ? [= <-]. done. Qed.

Lemma keeps_raise (I : state W -> Prop) {A} e (Q : A -> Prop) : keeps I (raise e) Q.
Proof. intros s Hs. split; [done|]. cbn. discriminate. Qed.

Lemma keeps_diverge (I : state W -> Prop) {A} (Q : A -> Prop) : keeps I diverge Q.
Proof. intros s Hs. split; [done|]. cbn. discriminate. Qed.

Lemma keeps_bind (I : state W -> Prop) {A C} (m : M W A) (k : A -> M W C) Q1 Q :
  keeps I m Q1 -> (forall a, Q1 a -> keeps I (k a) Q) -> keeps I (bind m k) Q.
Proof.
  intros Hm Hk s Hs. unfold bind. destruct (Hm s Hs) as [H1 H2].
  destruct (m s) as [[a| e |] s1]; cbn in *.
  - apply (Hk a); auto.
  - split; [done | discriminate].
  - split; [done | discriminate].
Qed.

Lemma keeps_catch (I : state W -> Prop) {A} (m : M W A) Q :
  keeps I m Q -> keeps I (catch m) (fun r => forall a, r = inr a -> Q a).
Proof.
  intros Hm s Hs. unfold catch. destruct (Hm s Hs) as [H1 H2].
  destruct (m s) as [[a| e |] s1]; cbn in *; split; try done.
  - intros ? [= <-] ? [= <-]. auto.
  - intros ? [= <-] ? [=].
Qed.

Lemma keeps_log_in_out (I : state W -> Prop) {A} (m : M W A) Q :
  keeps I m Q -> keeps I (log_in_out m) Q.
Proof.
  intros Hm. unfold log_in_out. eapply keeps_bind; [by apply keeps_catch|].
  intros [e|a] Ha; [apply keeps_raise | apply keeps_ret; auto].
Qed.

Lemma keeps_subscript (I : state W -> Prop) {A} key (o : option A) :
  keeps I (subscript key o) (fun a => o = Some a).
Proof. destruct o; [apply keeps_ret; done | apply keeps_raise]. Qed.

(** Invariants of the provider object alone. *)

Lemma keeps_get_self (J : provider -> Prop) :
  keeps (fun s : state W => J (self s)) get_self J.
Proof. intros s Hs. split; [done|]. cbn. intros ? [= <-]. done. Qed.

Lemma keeps_modify_self (J : provider -> Prop) f :
  (forall p, J p -> J (f p)) ->
  keeps (fun s : state W => J (self s)) (modify_self f) (fun _ => True).
Proof. intros Hf s Hs. split; [cbn; auto | done]. Qed.

Lemma keeps_call (J : provider -> Prop) {A} (op : W -> response A * W) :
  keeps (fun s : state W => J (self s)) (call op) (fun _ => True).
Proof.
  intros s Hs. unfold call. destruct (op (world s)) as [[a|e] w]; cbn; done.
Qed.

Lemma keeps_sleep (J : provider -> Prop) n :
  keeps (fun s : state W => J (self s)) (sleep n) (fun _ => True).
Proof. intros s Hs. done. Qed.

Lemma keeps_now (J : provider -> Prop) :
  keeps (fun s : state W => J (self s)) now (fun _ => True).
Proof. intros s Hs. done. Qed.

(** *** Computations that do not use fuel *)

Lemma returns_ret {A} (a : A) : returns (@ret W A a).
Proof. intros s. cbn. discriminate. Qed.

Lemma returns_raise {A} e : returns (@raise W A e).
Proof. intros s. cbn. discriminate. Qed.

Lemma returns_bind {A C} (m : M W A) (k : A -> M W C) :
  returns m -> (forall a, returns (k a)) -> returns (bind m k).
Proof.
  intros Hm Hk s. unfold bind. specialize (Hm s).
  destruct (m s) as [[a|e|] s1]; cbn in *; [apply Hk | discriminate | done].
Qed.

Lemma returns_catch {A} (m : M W A) : returns m -> returns (catch m).
Proof.
  intros Hm s. unfold catch. specialize (Hm s).
  destruct (m s) as [[a|e|] s1]; cbn in *; try discriminate. done.
Qed.

Lemma returns_call {A} (op : W -> response A * W) : returns (call op).
Proof.
  intros s. unfold call. destruct (op (world s)) as [[a|e] w]; cbn; discriminate.
Qed.

Lemma returns_get_self : returns (@get_self W).
Proof. intros s. cbn. discriminate. Qed.

Lemma returns_modify_self f : returns (@modify_self W f).
Proof. intros s. cbn. discriminate. Qed.

Lemma returns_sleep n : returns (sleep n).
Proof. intros s. cbn. discriminate. Qed.

Lemma returns_subscript {A} k (o : option A) : returns (@subscript W A k o).
Proof. destruct o; [apply returns_ret | apply returns_raise]. Qed.

End monad_facts.

Create HintDb returns.

#[export] Hint Resolve returns_ret returns_raise returns_call returns_get_self
  returns_modify_self returns_sleep returns_subscript : returns.

(** [H] says that a sequence of steps returned: split it into its steps. *)
Ltac bind_inv H :=
  let a := fresh "a" in
  let s := fresh "s" in
  let E := fresh "E" in
  apply bind_Ok in H as (a & s & E & H).

(** ** Terminated nodes stay out of the listing *)

Section masked.
Context {W : Type} {B : Backend W}.
Variable id : string.

Lemma masked_init_clients : keeps (masked_in (W := W) id) _init_clients (fun _ => True).
Proof.
  apply keeps_log_in_out. apply (keeps_modify_self (masked id)).
  intros p Hp. exact Hp.
Qed.

Lemma masked_is_instance_not_found e :
  keeps (masked_in (W := W) id) (is_instance_not_found e) (fun _ => True).
Proof.
  unfold is_instance_not_found.
  destruct (exn_message e); [by apply keeps_ret | apply keeps_raise].
Qed.

(** The search items that are kept leave the masked id out: an item with
    a deleted id is skipped. *)
Lemma masked_collect_nodes items nodes :
  Forall (fun n => resource_id n <> id) nodes ->
  keeps (masked_in (W := W) id) (collect_nodes items nodes) (Forall (fun n => resource_id n <> id)).
Proof.
  revert nodes.
  induction items as [|node items IH]; intros nodes Hn; cbn [collect_nodes].
  { by apply keeps_ret. }
  eapply keeps_bind; [apply (keeps_get_self (masked id))|].
  intros p [Hdel Hc]. case_bool_decide as Hd; [by apply IH|].
  assert (resource_id node <> id) as Hne
    by (intros Heq; apply Hd; by rewrite Heq).
  destruct (negb _); [by apply IH|].
  eapply keeps_bind; [apply keeps_catch, (keeps_call (masked id))|].
  intros [e|_] _.
  - eapply keeps_bind; [apply masked_is_instance_not_found|].
    intros [] _; [by apply IH | apply keeps_raise].
  - case_bool_decide.
    + eapply keeps_bind.
      { instantiate (1 := fun _ => True).
        destruct (network_interfaces (doc node));
          [apply keeps_raise | by apply keeps_ret]. }
      intros n0 _.
      eapply keeps_bind; [apply (keeps_call (masked id))|].
      intros fips _. destruct (Nat.eqb _ _); [by apply IH|].
      apply IH. apply Forall_app. split; [done|]. by constructor.
    + apply IH. apply Forall_app. split; [done|]. by constructor.
Qed.

Lemma by_resource_id_other nodes :
  Forall (fun n => resource_id n <> id) nodes ->
  by_resource_id nodes !! id = None.
Proof.
  unfold by_resource_id.
  assert (forall m : gmap string item, m !! id = None ->
            Forall (fun n => resource_id n <> id) nodes ->
            fold_left (fun m n => <[resource_id n := n]> m) nodes m !! id
            = None) as H.
  { induction nodes as [|n nodes IH]; intros m Hm Hn; cbn; [done|].
    inversion Hn; subst. apply IH; [|done]. by rewrite lookup_insert_ne. }
  apply H. apply lookup_empty.
Qed.

Lemma masked_prev_nodes_update key f :
  keeps (masked_in (W := W) id) (prev_nodes_update key f) (fun _ => True).
Proof.
  unfold prev_nodes_update.
  eapply keeps_bind; [apply (keeps_get_self (masked id))|]. intros p _.
  eapply keeps_bind; [apply keeps_subscript|]. intros ids _.
  apply (keeps_modify_self (masked id)). intros q Hq. exact Hq.
Qed.

Lemma masked_save_prev_nodes query nodes :
  keeps (masked_in (W := W) id) (save_prev_nodes query nodes) (fun _ => True).
Proof.
  induction nodes as [|n nodes IH]; cbn [save_prev_nodes];
    [by apply keeps_ret|].
  eapply keeps_bind; [|intros _ _; apply IH].
  case_bool_decide; apply masked_prev_nodes_update.
Qed.

Lemma masked_nt_iteration query v :
  keeps (masked_in (W := W) id) (nt_iteration query v) (fun r => without_id id r.1).
Proof.
  unfold nt_iteration.
  eapply keeps_bind; [apply (keeps_get_self (masked id))|]. intros p _.
  eapply keeps_bind; [apply (keeps_call (masked id))|]. intros items _.
  eapply keeps_bind; [apply masked_collect_nodes; constructor|].
  intros ns Hns.
  assert (without_id_ns : forall r m,
            without_id id {| retry := r; missing_nodes := m; nodes := ns;
                             found_nodes := by_resource_id ns |}).
  { intros. split; [done|]. by apply by_resource_id_other. }
  eapply keeps_bind; [apply (keeps_get_self (masked id))|]. intros q _.
  eapply keeps_bind.
  { instantiate (1 := fun _ => True).
    destruct (contains HEAD query); [by apply keeps_ret|].
    eapply keeps_bind; [|intros _ _; by apply keeps_ret].
    instantiate (1 := fun _ => True).
    case_bool_decide; [|by apply keeps_ret].
    apply (keeps_modify_self (masked id)). intros q' Hq'. exact Hq'. }
  intros prev_nodes_keys _.
  destruct (negb (bool_decide (prev_nodes_keys ∖ dom (by_resource_id ns) = ∅))).
  - destruct (_ && _).
    + apply keeps_ret. apply without_id_ns.
    + eapply keeps_bind; [apply (keeps_sleep (masked id))|]. intros _ _.
      apply keeps_ret. apply without_id_ns.
  - eapply keeps_bind; [apply masked_save_prev_nodes|]. intros _ _.
    apply keeps_ret. apply without_id_ns.
Qed.

Lemma masked_nt_while fuel query v :
  without_id id v -> keeps (masked_in (W := W) id) (nt_while fuel query v) (without_id id).
Proof.
  revert v. induction fuel as [|fuel IH]; intros v Hv; cbn [nt_while].
  { apply keeps_diverge. }
  destruct (Nat.ltb _ _); [|by apply keeps_ret].
  eapply keeps_bind; [apply masked_nt_iteration|].
  intros [v' []] Hv'; [by apply keeps_ret | by apply IH].
Qed.

Lemma masked_prune_missing query missing :
  keeps (masked_in (W := W) id) (prune_missing query missing) (fun _ => True).
Proof.
  induction missing as [|n missing IH]; cbn [prune_missing];
    [by apply keeps_ret|].
  eapply keeps_bind; [apply masked_prev_nodes_update|]. intros _ _.
  eapply keeps_bind; [apply masked_prev_nodes_update|]. intros _ _.
  eapply keeps_bind; [|intros _ _; apply IH].
  apply (keeps_modify_self (masked id)). intros p [Hd Hc]. split; [done|].
  cbn. rewrite lookup_delete. by case_decide.
Qed.

(** A pending id that the search did not find stops the merge: the entry
    of the pending dictionary is an instance record, and a record minus a
    number is a [TypeError].  The branches that delete the instance or
    put it in the cache are never reached. *)
Lemma masked_merge_pending _delete_node found pend_ids node_ids :
  found !! id = None -> id ∉ node_ids ->
  keeps (masked_in (W := W) id) (merge_pending _delete_node found pend_ids node_ids)
    (fun l => id ∉ l).
Proof.
  intros Hf. revert node_ids.
  induction pend_ids as [|pend_id pend_ids IH]; intros node_ids Hn;
    cbn [merge_pending].
  { by apply keeps_ret. }
  destruct (found !! pend_id) as [n|].
  - eapply keeps_bind; [|intros _ _; by apply IH].
    instantiate (1 := fun _ => True).
    destruct (String.eqb _ _); [|by apply keeps_ret].
    apply (keeps_modify_self (masked id)). intros p Hp. exact Hp.
  - eapply keeps_bind; [apply (keeps_get_self (masked id))|]. intros p _.
    eapply keeps_bind; [apply keeps_subscript|]. intros pending _.
    eapply keeps_bind; [apply (keeps_now (masked id))|]. intros t _.
    eapply (keeps_bind _ _ _ (fun _ => False)); [apply keeps_raise|].
    intros _ [].
Qed.

Lemma masked_body fuel _delete_node tag_filters :
  keeps (masked_in (W := W) id) (non_terminated_nodes_body fuel _delete_node tag_filters)
    (fun l => id ∉ l).
Proof.
  unfold non_terminated_nodes_body.
  eapply keeps_bind; [apply (keeps_get_self (masked id))|]. intros p _.
  eapply keeps_bind.
  { apply masked_nt_while. split; [constructor | apply lookup_empty]. }
  intros v [Hv1 Hv2].
  eapply keeps_bind; [apply masked_prune_missing|]. intros _ _.
  eapply keeps_bind.
  { apply (keeps_modify_self (masked id)). intros q [Hd Hc]. split; [done|].
    cbn. rewrite lookup_union, lookup_fmap, Hv2, Hc. done. }
  intros _ _.
  eapply keeps_bind; [apply (keeps_get_self (masked id))|]. intros q _.
  apply masked_merge_pending; [done|].
  rewrite list_elem_of_fmap. intros (n & Hn & Hin).
  rewrite Forall_forall in Hv1. by apply (Hv1 n).
Qed.

Lemma masked_retry_on_except {A} (func : M W A) Q :
  keeps (masked_in (W := W) id) func Q -> keeps (masked_in (W := W) id) (retry_on_except func) Q.
Proof.
  intros Hf. unfold retry_on_except. generalize (Bound (@None exn)).
  induction (seq 0 RETRIES) as [|r rs IH]; intros e;
    cbn [retry_on_except_loop].
  { destruct e as [|[x|]]; apply keeps_raise. }
  eapply keeps_bind; [by apply keeps_catch|].
  intros [x|a] Ha; [|apply keeps_ret; auto].
  eapply keeps_bind; [apply masked_init_clients|]. intros _ _.
  eapply keeps_bind; [apply (keeps_sleep (masked id))|]. intros _ _.
  apply IH.
Qed.

Lemma masked_non_terminated_nodes fuel tag_filters :
  keeps (masked_in (W := W) id) (non_terminated_nodes fuel tag_filters) (fun l => id ∉ l).
Proof.
  destruct fuel as [|fuel]; cbn [non_terminated_nodes];
    [apply keeps_diverge|].
  apply keeps_log_in_out, masked_retry_on_except, masked_body.
Qed.

End masked.

Section terminate.
Context {W : Type} {B : Backend W}.

(** [_delete_node] lets no 404 through. *)
Lemma delete_node_with_not_404 (_get_node : string -> M W node) id s code m s' :
  delete_node_with _get_node id s = (Raise (ApiException code m), s') ->
  code <> 404%Z.
Proof.
  unfold delete_node_with. unfold bind at 1.
  destruct (catch_api _ s) as [[[e|u]| e |] s1] eqn:E; try discriminate.
  - apply catch_api_Ok_inl in E as [_ E].
    destruct e as [c msg| | | | | | | | |]; try discriminate.
    destruct (Z.eqb_spec c 404); [discriminate|]. intros [= <- <- <-]. done.
  - apply catch_api_Raise in E. intros [= -> <-]. discriminate.
Qed.

Lemma terminate_node_purges fuel id s s' :
  terminate_node fuel id s = (Ok tt, s') ->
  (cache_stopped_nodes (self s) = true ->
   forall m w',
     create_instance_action (ibm_vpc_client (self s)) id "stop" (world s)
     <> (Failure (ApiException 404 m), w')) ->
  purged id (self s').
Proof.
  unfold terminate_node. rewrite log_in_out_eq.
  intros H Hstop. apply bind_Ok in H as ([e|[]] & s1 & E & H).
  - (* an ApiException was caught: it is not a 404 *)
    exfalso. apply catch_api_Ok_inl in E as [E He].
    destruct e as [c msg| | | | | | | | |]; try discriminate.
    destruct (Z.eqb_spec c 404) as [->|]; [|discriminate].
    revert E. unfold bind at 1, get_self.
    destruct (cache_stopped_nodes (self s)) eqn:Hmode.
    + unfold bind at 1, call.
      destruct (create_instance_action _ _ _ _) as [[[]|x] w] eqn:Ec;
        [discriminate|].
      intros [= -> <-]. by eapply Hstop.
    + unfold bind at 1.
      destruct (_delete_node fuel id s) as [[[]|x|] s2] eqn:Ed;
        try discriminate.
      intros [= -> <-]. by apply delete_node_with_not_404 in Ed.
  - (* the caches were updated *)
    injection H as <-. apply catch_api_Ok_inr in E.
    bind_inv E. bind_inv E. injection E as <-. repeat split; cbn.
    + apply elem_of_app. right. by apply list_elem_of_singleton.
    + apply lookup_delete_eq.
    + intros key ids. rewrite lookup_fmap.
      destruct (prev_nodes (self s2) !! key); intros [= <-].
      rewrite elem_of_difference, elem_of_singleton. tauto.
Qed.

(** C1 (amended).  When [terminate_node] returns and the stop action was
    not answered with 404, the node id is among the deleted ids, out of
    the cached nodes and out of every set of previously seen ids.  From
    then on, as long as the id is among the deleted ids (only [create_node]
    takes ids out of them, when it restarts a stopped node) and out of the
    cached nodes, every call of [non_terminated_nodes], with any tag filter
    and whatever the backend answers, leaves it so and returns, when it
    returns, a list without the id. *)
Theorem terminated_node_stays_masked fuel node_id s s1 :
  terminate_node fuel node_id s = (Ok tt, s1) ->
  (cache_stopped_nodes (self s) = true ->
   forall m w',
     create_instance_action (ibm_vpc_client (self s)) node_id "stop" (world s)
     <> (Failure (ApiException 404 m), w')) ->
  purged node_id (self s1)
  /\ (forall fuel' tag_filters (s2 : state W),
        masked node_id (self s2) ->
        masked node_id (self (non_terminated_nodes fuel' tag_filters s2).2)
        /\ (forall node_ids,
              (non_terminated_nodes fuel' tag_filters s2).1 = Ok node_ids ->
              node_id ∉ node_ids)).
Proof.
  intros Hterm Hstop. split; [by eapply terminate_node_purges|].
  intros fuel' tag_filters s2 Hm.
  exact (masked_non_terminated_nodes node_id fuel' tag_filters s2 Hm).
Qed.

End terminate.

(** ** What the retries raise, and where the merge of pending nodes stops *)

Section retries.
Context {W : Type} {B : Backend W}.

Lemma catch_never_raises {A} (m : M W A) s x s' :
  catch m s <> (Raise x, s').
Proof. unfold catch. by destruct (m s) as [[?|?|] ?]. Qed.

(** Once an [except] clause has run, the variable [e] of
    [decorated_func] is unbound: the [raise e] that ends the retries raises
    [UnboundLocalError], whatever [func] raised. *)
Lemma retry_on_except_loop_raises {A} (func : M W A) retries e s x s' :
  retries <> [] \/ e = Unbound ->
  retry_on_except_loop func retries e s = (Raise x, s') ->
  x = UnboundLocalError "e".
Proof.
  revert e s. induction retries as [|retry retries IH]; intros e s He;
    cbn [retry_on_except_loop].
  { destruct He as [He | ->]; [done|]. by intros [= <- _]. }
  unfold bind at 1.
  destruct (catch func s) as [[[y|a]|y|] s1] eqn:E; try discriminate.
  - unfold bind at 1, _init_clients. rewrite log_in_out_eq. cbn. apply IH. by right.
  - by apply catch_never_raises in E.
Qed.

Lemma retry_on_except_raises {A} (func : M W A) s x s' :
  retry_on_except func s = (Raise x, s') -> x = UnboundLocalError "e".
Proof. apply retry_on_except_loop_raises. by left. Qed.

Lemma tagging_after_attempt_Ok retry (s : state W) :
  exists s', tagging_after_attempt retry s = (Ok tt, s').
Proof.
  unfold tagging_after_attempt, bind. destruct (Nat.eqb _ _); cbn; eauto.
Qed.

(** The same holds of [_global_tagging_with_retries]: no exception of an
    attempt is raised again when the retries are over. *)
Lemma tagging_loop_raises (attempt_once : M W attempt) retries e s x s' :
  e = Unbound \/ e = Bound None ->
  tagging_loop attempt_once retries e s = (Raise x, s') ->
  x = UnboundLocalError "e".
Proof.
  revert e s. induction retries as [|retry retries IH]; intros e s He;
    cbn [tagging_loop].
  { destruct He as [-> | ->]; [by intros [= <- _] | discriminate]. }
  unfold bind at 1.
  destruct (catch attempt_once s) as [[[y|[v| |]]|y|] s1] eqn:E;
    try discriminate.
  - unfold bind at 1.
    destruct (tagging_after_attempt_Ok retry s1) as [s2 ->]. apply IH. by left.
  - by apply IH.
  - unfold bind at 1.
    destruct (tagging_after_attempt_Ok retry s1) as [s2 ->]. by apply IH.
  - by apply catch_never_raises in E.
Qed.

Lemma global_tagging_raises fuel crn f_name tags s x s' :
  _global_tagging_with_retries fuel crn f_name tags s = (Raise x, s') ->
  x = UnboundLocalError "e".
Proof.
  destruct fuel as [|fuel]; [discriminate|].
  cbn [_global_tagging_with_retries]. rewrite log_in_out_eq.
  apply tagging_loop_raises. by right.
Qed.

(** A pending id that the search has not found stops the merge with a
    [TypeError], whatever the clock says. *)
Lemma merge_pending_not_found _delete_node found pend_id pend_ids node_ids
    (s : state W) pending :
  found !! pend_id = None ->
  odict.get pend_id (pending_nodes (self s)) = Some pending ->
  merge_pending _delete_node found (pend_id :: pend_ids) node_ids s
  = (Raise (TypeError "unsupported operand type(s) for -: 'dict' and 'float'"),
     s).
Proof.
  intros Hf Hp. cbn [merge_pending]. rewrite Hf.
  unfold bind at 1, get_self. unfold bind at 1. rewrite Hp. done.
Qed.

(** A pending id that the search has found running leaves the pending
    dictionary. *)
Lemma merge_pending_found_running _delete_node found pend_id pend_ids node_ids
    (s : state W) n :
  found !! pend_id = Some n ->
  status (doc n) = "running" ->
  merge_pending _delete_node found (pend_id :: pend_ids) node_ids s
  = merge_pending _delete_node found pend_ids node_ids
      (State (world s)
         (set_pending_nodes (odict.pop pend_id (pending_nodes (self s)))
            (self s))).
Proof.
  intros Hf Hs. cbn [merge_pending]. rewrite Hf, Hs. done.
Qed.

End retries.

(** ** The retry loop of [non_terminated_nodes] *)

Section retry_loop.
Context {W : Type} {B : Backend W}.

Lemma returns_collect_nodes items nodes :
  returns (collect_nodes (W := W) items nodes).
Proof.
  revert nodes. induction items as [|node items IH]; intros nodes;
    cbn [collect_nodes]; [auto with returns|].
  apply returns_bind; [auto with returns|]. intros p.
  case_bool_decide; [apply IH|]. destruct (negb _); [apply IH|].
  apply returns_bind; [apply returns_catch; auto with returns|].
  intros [e|_].
  - apply returns_bind.
    + unfold is_instance_not_found.
      destruct (exn_message e); auto with returns.
    + intros []; [apply IH | auto with returns].
  - case_bool_decide; [|apply IH].
    apply returns_bind.
    { destruct (network_interfaces _); auto with returns. }
    intros n0. apply returns_bind; [auto with returns|].
    intros fips. destruct (Nat.eqb _ _); apply IH.
Qed.

Lemma returns_prev_nodes_update key f :
  returns (prev_nodes_update (W := W) key f).
Proof.
  unfold prev_nodes_update.
  apply returns_bind; [auto with returns|]. intros p.
  apply returns_bind; auto with returns.
Qed.

Lemma returns_save_prev_nodes query nodes :
  returns (save_prev_nodes (W := W) query nodes).
Proof.
  induction nodes as [|n nodes IH]; cbn [save_prev_nodes];
    [auto with returns|].
  apply returns_bind; [|intros _; apply IH].
  case_bool_decide; apply returns_prev_nodes_update.
Qed.

(** An iteration uses no fuel. *)
Lemma returns_nt_iteration query v : returns (nt_iteration query v).
Proof.
  unfold nt_iteration.
  apply returns_bind; [auto with returns|]. intros p.
  apply returns_bind; [auto with returns|]. intros items.
  apply returns_bind; [apply returns_collect_nodes|]. intros ns.
  apply returns_bind; [auto with returns|]. intros q.
  apply returns_bind.
  { destruct (contains HEAD query); [auto with returns|].
    apply returns_bind; [|auto with returns].
    case_bool_decide; auto with returns. }
  intros keys. destruct (negb _).
  - destruct (_ && _); [auto with returns|].
    apply returns_bind; auto with returns.
  - apply returns_bind; [apply returns_save_prev_nodes|]. auto with returns.
Qed.

(** An iteration adds one to the counter, or resets it. *)
Lemma nt_iteration_retry query v s v' c s' :
  nt_iteration query v s = (Ok (v', c), s') ->
  retry v' = S (retry v) \/ retry v' = O.
Proof.
  unfold nt_iteration. intros H. do 5 bind_inv H.
  destruct (negb _).
  - destruct (_ && _) in H.
    + injection H as <- _ _. by left.
    + bind_inv H. injection H as <- _ _. cbn. destruct (_ && _); auto.
  - bind_inv H. injection H as <- _ _. by left.
Qed.

Lemma nt_trace_bound fuel query v s :
  retry v <= NT_RETRIES ->
  length (nt_trace fuel query v s) + retry v
  <= NT_RETRIES * (1 + resets (nt_trace fuel query v s)).
Proof.
  revert v s. induction fuel as [|fuel IH]; intros v s Hv; cbn [nt_trace].
  { cbn [length]. lia. }
  destruct (Nat.ltb_spec (retry v) NT_RETRIES) as [Hlt|]; [|cbn [length]; lia].
  destruct (nt_iteration query v s) as [[[v' []]|e|] s'] eqn:E;
    try (cbn [length]; lia).
  pose proof (nt_iteration_retry _ _ _ _ _ _ E) as Hr.
  specialize (IH v' s'). unfold resets in *. cbn [tail length].
  destruct fuel as [|fuel'].
  { cbn [nt_trace List.filter length]. lia. }
  cbn [nt_trace] in *.
  destruct (Nat.ltb_spec (retry v') NT_RETRIES) as [Hlt'|];
    [|cbn [List.filter length]; lia].
  cbn [List.filter tail length] in *.
  destruct Hr as [Hr|Hr]; rewrite Hr in *; cbn [Nat.eqb length] in *; lia.
Qed.

Lemma nt_while_returns fuel query v s :
  length (nt_trace fuel query v s) < fuel ->
  (nt_while fuel query v s).1 <> Diverge.
Proof.
  revert v s. induction fuel as [|fuel IH]; intros v s; cbn [nt_trace nt_while].
  { cbn [length]. lia. }
  destruct (Nat.ltb (retry v) NT_RETRIES); [|cbn; discriminate].
  unfold bind. pose proof (returns_nt_iteration query v s) as Hi.
  destruct (nt_iteration query v s) as [[[v' []]|e|] s']; cbn [length];
    cbn in Hi |- *; try discriminate; [|done].
  intros Hl. apply IH. lia.
Qed.

(** An iteration that ends in [continue] sets the counter back to zero
    when the missing ids have changed, and adds one to it when they have
    not. *)
Lemma nt_iteration_Continue query v s v' s' :
  nt_iteration query v s = (Ok (v', Continue), s') ->
  retry v' = if missing_changed v v' then 0 else S (retry v).
Proof.
  unfold nt_iteration. intros H. do 5 bind_inv H.
  destruct (negb _).
  - destruct (_ && _) in H; [discriminate|].
    bind_inv H. by injection H as <-.
  - bind_inv H. discriminate.
Qed.

Lemma nt_trace_counted fuel query v s : counted (nt_trace fuel query v s).
Proof.
  revert v s. induction fuel as [|fuel IH]; intros v s; cbn [nt_trace];
    [done|].
  destruct (Nat.ltb_spec (retry v) NT_RETRIES) as [Hlt|]; [|done].
  destruct (nt_iteration query v s) as [[[v' []]|e|] s'] eqn:E;
    try (by repeat split).
  specialize (IH v' s'). split; [done|]. split; [|done].
  destruct fuel as [|fuel']; [done|]. cbn [nt_trace] in IH |- *.
  destruct (Nat.ltb (retry v') NT_RETRIES); [|done].
  by apply nt_iteration_Continue in E.
Qed.

(** The counter starts from zero where the missing ids have changed, and
    nowhere else. *)
Lemma counted_resets trace : counted trace -> resets trace = changes trace.
Proof.
  unfold resets. induction trace as [|v trace IH]; [done|].
  intros (_ & Hv & Hc). specialize (IH Hc).
  destruct trace as [|v' trace]; [done|].
  cbn [tail List.filter changes] in *. rewrite <- IH, Hv.
  destruct (missing_changed v v'); cbn [Nat.eqb length]; lia.
Qed.

Lemma counted_app l1 l2 : counted (l1 ++ l2) -> counted l1 /\ counted l2.
Proof.
  induction l1 as [|v l1 IH]; [done|]. cbn [app counted].
  intros (Hv & Hn & Hc). destruct (IH Hc) as [H1 H2]. split; [|done].
  split; [done|]. split; [|done].
  destruct l1 as [|v' l1]; [done | exact Hn].
Qed.

(** While the missing ids do not change the counter goes up to the cap. *)
Lemma counted_run run :
  counted run -> changes run = 0 ->
  length run + match run with v :: _ => retry v | [] => 0 end <= NT_RETRIES.
Proof.
  induction run as [|v run IH]; [unfold NT_RETRIES; cbn; lia|].
  intros (Hv & Hn & Hc) Hch. destruct run as [|v' run]; [cbn [length]; lia|].
  cbn [changes] in Hch. revert Hn Hch.
  destruct (missing_changed v v'); [lia|]. intros Hn Hch.
  specialize (IH Hc Hch). cbn [length] in *. lia.
Qed.

End retry_loop.

(** *** A search service that flaps

    The two workers of [flapping_seen] have been seen; from then on the
    search service reports one of them, then the other, and so on.  Every
    search finds other ids missing than the one before, so the counter
    never gets beyond one. *)

Section flapping.
Import Sim Scenario.

Lemma nt_trace_S fuel query v (s : state cloud) :
  nt_trace (S fuel) query v s
  = if Nat.ltb (retry v) NT_RETRIES then
      v :: match nt_iteration query v s with
           | (Ok (v', Continue), s') => nt_trace fuel query v' s'
           | _ => []
           end
    else [].
Proof. reflexivity. Qed.

Lemma self_flapping_at script t cs :
  self (flapping_at script t cs) = self flapping_seen.
Proof. vm_compute. reflexivity. Qed.

Lemma flapping_first k t cs :
  nt_iteration all_nodes nt_start (flapping_at (flapping (S k)) t cs)
  = (Ok (found_one "a" 1 ["b"], Continue),
     flapping_at (Success [worker "b" "running"] :: flapping k) (t + 3)
       (("get_instance", "a") :: ("search", all_nodes) :: cs)).
Proof. vm_compute. reflexivity. Qed.

Lemma flapping_a k t cs :
  nt_iteration all_nodes (found_one "b" 0 ["a"])
    (flapping_at (flapping (S k)) t cs)
  = (Ok (found_one "a" 0 ["b"], Continue),
     flapping_at (Success [worker "b" "running"] :: flapping k) (t + 3)
       (("get_instance", "a") :: ("search", all_nodes) :: cs)).
Proof. vm_compute. reflexivity. Qed.

Lemma flapping_b r k t cs :
  nt_iteration all_nodes (found_one "a" r ["b"])
    (flapping_at (Success [worker "b" "running"] :: flapping k) t cs)
  = (Ok (found_one "b" 0 ["a"], Continue),
     flapping_at (flapping k) (t + 3)
       (("get_instance", "b") :: ("search", all_nodes) :: cs)).
Proof. vm_compute. reflexivity. Qed.

Lemma flapping_pairs k t cs :
  length (nt_trace (2 * k) all_nodes (found_one "b" 0 ["a"])
            (flapping_at (flapping k) t cs)) = 2 * k.
Proof.
  revert t cs. induction k as [|k IH]; intros t cs; [done|].
  replace (2 * S k) with (S (S (2 * k))) by lia.
  rewrite nt_trace_S. change (Nat.ltb _ NT_RETRIES) with true. cbn match.
  rewrite flapping_a, nt_trace_S. change (Nat.ltb _ NT_RETRIES) with true.
  cbn match. rewrite flapping_b. cbn [length]. by rewrite IH.
Qed.

Lemma flapping_searches k :
  length (nt_trace (2 * S k) all_nodes nt_start
            (flapping_at (flapping (S k)) 1000 [])) = 2 * S k.
Proof.
  replace (2 * S k) with (S (S (2 * k))) by lia.
  rewrite nt_trace_S. change (Nat.ltb _ NT_RETRIES) with true. cbn match.
  rewrite flapping_first, nt_trace_S. change (Nat.ltb _ NT_RETRIES) with true.
  cbn match. rewrite flapping_b. cbn [length]. by rewrite flapping_pairs.
Qed.


End flapping.

(** ** Tagging with verification *)

Section tagging.
Context {W : Type} {B : Backend W}.
Context (attached : W -> string -> gset string) {TS : TagStore attached}.

(** The loop returns what an attempt returns, or [False]. *)
Lemma tagging_loop_Ok (attempt_once : M W attempt) rs e s r s' :
  tagging_loop attempt_once rs e s = (Ok r, s') ->
  r = PyFalse \/ exists s0, attempt_once s0 = (Ok (AReturn r), s').
Proof.
  revert e s. induction rs as [|retry rs IH]; intros e s; cbn [tagging_loop].
  { destruct e as [|[x|]]; try discriminate. intros [= <- <-]. by left. }
  intros H. apply bind_Ok in H as (r0 & s1 & E & H).
  destruct r0 as [x|[v| |]].
  - bind_inv H. by eapply IH.
  - injection H as <- <-. right. exists s. by apply catch_Ok_inr.
  - by eapply IH.
  - bind_inv H. by eapply IH.
Qed.

Lemma global_tagging_Ok fuel crn f_name tags s r s' :
  _global_tagging_with_retries fuel crn f_name tags s = (Ok r, s') ->
  r = PyFalse \/
  exists fuel' s0, fuel = S fuel' /\
    tagging_attempt
      (_global_tagging_with_retries fuel' crn "list_tags" None)
      crn f_name tags s0 = (Ok (AReturn r), s').
Proof.
  destruct fuel as [|fuel']; [discriminate|].
  cbn [_global_tagging_with_retries]. rewrite log_in_out_eq. intros H.
  apply tagging_loop_Ok in H as [->|[s0 H]]; [by left|]. right. eauto.
Qed.

(** A listing that succeeds is the set of attached tags. *)
Lemma list_tags_verified fuel crn s names s' :
  _global_tagging_with_retries fuel crn "list_tags" None s
  = (Ok (TagItems names), s') ->
  list_to_set names = attached (world s') crn.
Proof.
  intros H. apply global_tagging_Ok in H as [?|(f & s0 & -> & H)];
    [discriminate|].
  unfold tagging_attempt in H. cbn [String.eqb Ascii.eqb Bool.eqb] in H.
  do 2 bind_inv H. injection H as <- <-.
  apply call_Ok in E0 as [Hc _]. by eapply list_tags_reads.
Qed.

Lemma nested_listing fuel crn (k : list string -> M W attempt) s r s' :
  (listed <- _global_tagging_with_retries fuel crn "list_tags" None;;
   node_tags <- tag_names listed;; k node_tags) s = (Ok r, s') ->
  exists names s1,
    list_to_set names = attached (world s1) crn /\ k names s1 = (Ok r, s').
Proof.
  intros H. apply bind_Ok in H as (listed & s1 & Hl & H).
  apply bind_Ok in H as (names & s2 & Hn & H).
  destruct listed as [?|l|]; try discriminate. injection Hn as <- <-.
  exists l, s1. split; [by eapply list_tags_verified | done].
Qed.

(** After a verified attach every requested tag is attached. *)
Lemma attach_verified fuel crn l s r s' :
  _global_tagging_with_retries fuel crn "attach_tag" (Some l) s = (Ok r, s') ->
  truthy r = true ->
  forall t, t ∈ l -> t ∈ attached (world s') crn.
Proof.
  intros H Hr. apply global_tagging_Ok in H as [->|(f & s0 & -> & H)];
    [discriminate|].
  unfold tagging_attempt in H. cbn [String.eqb Ascii.eqb Bool.eqb] in H.
  do 3 bind_inv H. destruct a1; [discriminate|]. cbn [negb] in H.
  apply nested_listing in H as (names & s4 & Hnames & H).
  apply bind_Ok in H as (wanted & s5 & Hw & H). injection Hw as <- <-.
  case_bool_decide as Hd; [|discriminate]. injection H as _ <-.
  intros t Ht. rewrite <- Hnames.
  destruct (decide (t ∈ (list_to_set names : gset string))) as [|Hn]; [done|].
  exfalso. eapply (not_elem_of_empty (C := gset string) t). rewrite <- Hd.
  apply elem_of_difference. split; [|done]. by apply elem_of_list_to_set.
Qed.

(** After a verified detach none of the given tags is attached. *)
Lemma detach_verified fuel crn l s r s' :
  _global_tagging_with_retries fuel crn "detach_tag" (Some l) s = (Ok r, s') ->
  truthy r = true ->
  forall t, t ∈ l -> t ∉ attached (world s') crn.
Proof.
  intros H Hr. apply global_tagging_Ok in H as [->|(f & s0 & -> & H)];
    [discriminate|].
  unfold tagging_attempt in H. cbn [String.eqb Ascii.eqb Bool.eqb] in H.
  do 3 bind_inv H. destruct a1; [discriminate|]. cbn [negb] in H.
  apply nested_listing in H as (names & s4 & Hnames & H).
  apply bind_Ok in H as (unwanted & s5 & Hw & H). injection Hw as <- <-.
  case_bool_decide as Hd; [|discriminate]. injection H as _ <-.
  intros t Ht Hin. rewrite <- Hnames in Hin.
  eapply (not_elem_of_empty (C := gset string) t). rewrite <- Hd.
  apply elem_of_intersection. split; [done|]. by apply elem_of_list_to_set.
Qed.

(** While tags are detached and listed, a tag that is not detached
    stays. *)
Section stays.
Variables (crn t : string).

Lemma stays_get_self : keeps (attached_in attached crn t) get_self (fun _ => True).
Proof. intros s Hs. done. Qed.

Lemma stays_modify_self f : keeps (attached_in attached crn t) (modify_self f) (fun _ => True).
Proof. intros s Hs. done. Qed.

Lemma stays_sleep seconds : keeps (attached_in attached crn t) (sleep seconds) (fun _ => True).
Proof.
  intros s Hs. split; [|done]. unfold attached_in. cbn. by rewrite time_sleep_keeps.
Qed.

Lemma stays_list_tags h : keeps (attached_in attached crn t) (call (list_tags h crn)) (fun _ => True).
Proof.
  intros s Hs. split; [|done]. unfold attached_in, call.
  destruct (list_tags h crn (world s)) as [[a|e] w] eqn:E; cbn;
    by rewrite (list_tags_keeps _ _ _ _ _ crn E).
Qed.

Lemma stays_detach_tag h l :
  t ∉ l -> keeps (attached_in attached crn t) (call (detach_tag h crn (Some l))) (fun _ => True).
Proof.
  intros Hl s Hs. split; [|done]. unfold attached_in, call.
  destruct (detach_tag h crn (Some l) (world s)) as [[a|e] w] eqn:E; cbn;
    by eapply detach_tag_keeps.
Qed.

Lemma stays_first_is_error r : keeps (attached_in attached crn t) (first_is_error r) (fun _ => True).
Proof.
  unfold first_is_error.
  destruct (results r); [apply keeps_raise | by apply keeps_ret].
Qed.

Lemma stays_tag_names r : keeps (attached_in attached crn t) (tag_names r) (fun _ => True).
Proof. destruct r; first [apply keeps_raise | by apply keeps_ret]. Qed.

Lemma stays_after_attempt retry :
  keeps (attached_in attached crn t) (tagging_after_attempt retry) (fun _ => True).
Proof.
  unfold tagging_after_attempt.
  eapply keeps_bind; [|intros _ _; apply stays_sleep].
  instantiate (1 := fun _ => True).
  destruct (Nat.eqb _ _); [apply stays_modify_self | by apply keeps_ret].
Qed.

Lemma stays_tagging_loop (attempt_once : M W attempt) rs e :
  keeps (attached_in attached crn t) attempt_once (fun _ => True) ->
  keeps (attached_in attached crn t) (tagging_loop attempt_once rs e) (fun _ => True).
Proof.
  intros Ha. revert e.
  induction rs as [|retry rs IH]; intros e; cbn [tagging_loop].
  { destruct e as [|[x|]]; first [apply keeps_raise | by apply keeps_ret]. }
  eapply keeps_bind; [apply keeps_catch, Ha|].
  intros [x|[v| |]] _.
  - eapply keeps_bind; [apply stays_after_attempt | intros _ _; apply IH].
  - by apply keeps_ret.
  - apply IH.
  - eapply keeps_bind; [apply stays_after_attempt | intros _ _; apply IH].
Qed.

Lemma stays_listing fuel :
  keeps (attached_in attached crn t) (_global_tagging_with_retries fuel crn "list_tags" None)
    (fun _ => True).
Proof.
  destruct fuel as [|fuel]; cbn [_global_tagging_with_retries];
    [apply keeps_diverge|].
  apply keeps_log_in_out, stays_tagging_loop.
  unfold tagging_attempt. cbn [String.eqb Ascii.eqb Bool.eqb].
  eapply keeps_bind; [apply stays_get_self|]. intros p _.
  eapply keeps_bind; [apply stays_list_tags|]. intros items _.
  by apply keeps_ret.
Qed.

Lemma stays_detaching fuel l :
  t ∉ l ->
  keeps (attached_in attached crn t) (_global_tagging_with_retries fuel crn "detach_tag" (Some l))
    (fun _ => True).
Proof.
  intros Hl.
  destruct fuel as [|fuel]; cbn [_global_tagging_with_retries];
    [apply keeps_diverge|].
  apply keeps_log_in_out, stays_tagging_loop.
  unfold tagging_attempt. cbn [String.eqb Ascii.eqb Bool.eqb].
  eapply keeps_bind; [apply stays_get_self|]. intros p _.
  eapply keeps_bind; [by apply stays_detach_tag|]. intros res _.
  eapply keeps_bind; [apply stays_first_is_error|]. intros is_error _.
  destruct (negb is_error); [|by apply keeps_ret].
  eapply keeps_bind; [apply stays_listing|]. intros listed _.
  eapply keeps_bind; [apply stays_tag_names|]. intros names _.
  eapply keeps_bind.
  { instantiate (1 := fun _ => True). by apply keeps_ret. }
  intros unwanted _. destruct (negb _); by apply keeps_ret.
Qed.

End stays.

(** [l.remove(x)] on a list without repetitions. *)
Lemma list_remove_Some x l l' :
  NoDup l -> list_remove x l = Some l' ->
  (x ∈ l) /\ (x ∉ l') /\ (forall y, y ∈ l -> y <> x -> y ∈ l').
Proof.
  revert l'. induction l as [|y l IH]; intros l' Hnd; cbn [list_remove];
    [discriminate|].
  apply NoDup_cons in Hnd as [Hy Hnd].
  destruct (String.eqb_spec x y) as [->|Hne].
  - intros [= <-]. split; [apply elem_of_cons; by left|]. split; [done|].
    intros z [->|Hz]%elem_of_cons Hzy; done.
  - destruct (list_remove x l) as [r|]; [|discriminate]. intros [= <-].
    destruct (IH r Hnd eq_refl) as (H1 & H2 & H3). split; [|split].
    + apply elem_of_cons. by right.
    + intros [?|?]%elem_of_cons; done.
    + intros z [->|Hz]%elem_of_cons Hzx; apply elem_of_cons; auto.
Qed.

Lemma to_gen2_tags_get key value tags :
  odict.get key tags = Some value ->
  (key +:+ ":" +:+ value) ∈ to_gen2_tags tags.
Proof.
  induction tags as [|[k v] tags IH]; cbn [odict.get]; [discriminate|].
  unfold to_gen2_tags. cbn [fmap list_fmap].
  destruct (String.eqb_spec key k) as [->|Hne].
  - intros [= <-]. apply elem_of_cons. by left.
  - intros H. apply elem_of_cons. right. by apply IH.
Qed.

Lemma ALL_STATUS_TAGS_NoDup : NoDup ALL_STATUS_TAGS.
Proof. apply (bool_decide_unpack _). vm_compute. exact Logic.I. Qed.

(** C7.  On a tagging service that lists what is attached, when
    [set_node_tags] is given a ["ray-node-status"] and returns, the new
    status is one of the six enumerated status tags and it is the only one
    of them attached to the node, whichever were attached before. *)
Theorem set_node_tags_one_status fuel node_id tags s s' :
  set_node_tags fuel node_id tags s = (Ok tt, s') ->
  is_Some (odict.get "ray-node-status" tags) ->
  exists node s1 new_status,
    _get_node fuel node_id s = (Ok node, s1)
    /\ odict.get "ray-node-status" tags = Some new_status
    /\ ("ray-node-status:" +:+ new_status) ∈ ALL_STATUS_TAGS
    /\ (forall t, t ∈ ALL_STATUS_TAGS ->
          (t ∈ attached (world s') (node_crn node)
           <-> t = "ray-node-status:" +:+ new_status)).
Proof.
  unfold set_node_tags. rewrite log_in_out_eq. intros H [new_status Hs].
  apply bind_Ok in H as (node & s1 & Hnode & H).
  apply bind_Ok in H as (ra & s2 & Hattach & H).
  destruct (truthy ra) eqn:Hra; [|discriminate]. cbn [negb] in H.
  rewrite Hs in H.
  destruct (list_remove _ ALL_STATUS_TAGS) as [to_detach|] eqn:Hrem;
    [|discriminate].
  apply bind_Ok in H as (rd & s3 & Hdetach & H).
  destruct (truthy rd) eqn:Hrd; [|discriminate]. cbn [negb] in H.
  injection H as <-.
  apply (list_remove_Some _ _ _ ALL_STATUS_TAGS_NoDup) in Hrem
    as (Hin & Hout & Hrest).
  exists node, s1, new_status. repeat split; [done..| |].
  - (* an attached status tag is the new one *)
    intros Ht. destruct (decide (t = "ray-node-status:" +:+ new_status))
      as [|Hne]; [done|]. exfalso.
    cbn in Ht. rewrite time_sleep_keeps in Ht.
    by apply (detach_verified _ _ _ _ _ _ Hdetach Hrd t (Hrest t H Hne)).
  - (* the new one is attached *)
    intros ->. cbn. rewrite time_sleep_keeps.
    pose proof (stays_detaching (node_crn node)
                  ("ray-node-status:" +:+ new_status) fuel to_detach Hout s2)
      as [Hk _].
    { apply (attach_verified _ _ _ _ _ _ Hattach Hra).
      by apply (to_gen2_tags_get "ray-node-status"). }
    by rewrite Hdetach in Hk.
Qed.

End tagging.

(** ** Creating an instance *)

Section create_instance.
Context {W : Type} {B : Backend W}.

(** C8.  When [create_instance] fails with [e]: if [e] is a 400 whose
    message says "already exists", [_create_instance] returns the first
    instance that [list_instances] gives for the name and does not raise;
    if [e] is a 400 whose message says "over quota" (and not "already
    exists"), it raises [e] again; and it raises every error that is not a
    400 "already exists". *)
Theorem create_instance_error_handling name base_config (s : state W)
    proto e w' :
  instance_prototype_of (self s) name base_config s = (Ok proto, s) ->
  create_instance (ibm_vpc_client (self s)) proto (world s) = (Failure e, w') ->
  (forall message first rest w'',
     e = ApiException 400 message ->
     contains "already exists" message = true ->
     list_instances (ibm_vpc_client (self s)) name w'
     = (Success (first :: rest), w'') ->
     _create_instance name base_config s
     = (Ok (Some first), State w'' (self s)))
  /\ (forall message,
        e = ApiException 400 message ->
        contains "already exists" message = false ->
        contains "over quota" message = true ->
        _create_instance name base_config s = (Raise e, State w' (self s)))
  /\ ((forall message,
         e = ApiException 400 message ->
         contains "already exists" message = false) ->
      _create_instance name base_config s = (Raise e, State w' (self s))).
Proof.
  intros Hproto Hcreate.
  assert (_create_instance name base_config s
          = (r <- catch_api (raise e);;
             match r with
             | inr resp => ret (Some resp)
             | inl e =>
                 match e with
                 | ApiException code message =>
                     if Z.eqb code 400 && contains "already exists" message
                     then _get_instance_data name
                     else if Z.eqb code 400 && contains "over quota" message
                          then raise e else raise e
                 | _ => raise e
                 end
             end) (State w' (self s))) as Heq.
  { unfold _create_instance. unfold bind at 1, get_self.
    unfold bind at 1. rewrite Hproto. unfold bind at 1, catch_api, call.
    rewrite Hcreate. cbn. unfold bind, catch_api, raise.
    by destruct (is_ApiException e). }
  split; [|split].
  - intros message first rest w'' -> Hm Hlist. rewrite Heq.
    cbn. rewrite Hm. cbn. unfold _get_instance_data, bind, get_self, call.
    cbn. by rewrite Hlist.
  - intros message -> Hm Hq. rewrite Heq. cbn. by rewrite Hm, Hq.
  - intros Hother. rewrite Heq.
    destruct e as [c msg| | | | | | | | |]; try done. cbn.
    destruct (Z.eqb_spec c 400) as [->|]; cbn; [|done].
    rewrite (Hother msg eq_refl). by destruct (contains "over quota" msg).
Qed.

End create_instance.

(** ** Addresses *)

Section addresses.
Context {W : Type} {B : Backend W}.

Lemma first_address_none n :
  no_floating_ip n -> first_address (node_get_floating_ips n) = None.
Proof.
  unfold no_floating_ip, first_address.
  by destruct (node_get_floating_ips n) as [[|ip l]|].
Qed.

(** C10.  [external_ip] returns [None] and does not raise when the node
    is got from the cache (or fetched) and then refreshed, and neither
    record carries a floating ip: so it is without hybrid addresses, and
    so it is with them when the name of the node is that of a head
    node. *)
Theorem external_ip_none_without_floating_ip fuel node_id (s : state W)
    cached s1 refreshed s2 :
  _get_cached_node fuel node_id s = (Ok cached, s1) ->
  no_floating_ip cached ->
  _get_node fuel node_id s1 = (Ok refreshed, s2) ->
  no_floating_ip refreshed ->
  (use_hybrid_ips (self s) = true ->
   _get_node_type (self s1) (node_name cached) = Some "head") ->
  external_ip fuel node_id s = (Ok None, s2).
Proof.
  intros Hc Hnc Hr Hnr Hhead.
  unfold external_ip. rewrite log_in_out_eq. unfold bind at 1, get_self.
  destruct (use_hybrid_ips (self s)).
  - unfold _get_hybrid_ip. unfold bind at 1. rewrite Hc.
    unfold bind at 1, get_self. rewrite (Hhead eq_refl).
    rewrite bool_decide_eq_true_2 by done.
    rewrite (first_address_none _ Hnc). unfold bind. rewrite Hr.
    by rewrite (first_address_none _ Hnr).
  - unfold bind at 1. rewrite Hc. rewrite (first_address_none _ Hnc).
    unfold bind. rewrite Hr. by rewrite (first_address_none _ Hnr).
Qed.

End addresses.

(** ** The simulated backend *)

Section sim_facts.
Import Sim Scenario.

(** What an operation of the simulated service does, whatever faults are
    set: it fails and leaves all but the list of calls and faults as it
    was, or it answers. *)
Lemma operation_cases {A} op arg (answer : cloud -> response A * cloud) c r c' :
  operation op arg answer c = (r, c') ->
  (tag_store c' = tag_store c /\ exists e, r = Failure e)
  \/ exists c0, tag_store c0 = tag_store c /\ answer c0 = (r, c').
Proof.
  unfold operation. destruct (odict.get _ _) as [e|].
  { intros [= <- <-]. left. eauto. }
  destruct (take_fault _ _) as [[e rest]|].
  { intros [= <- <-]. left. eauto. }
  intros H. right. eexists. split; [|exact H]. done.
Qed.

Lemma sim_tag_store : TagStore attached.
Proof.
  split.
  - intros h crn w names w' H. cbn in H.
    apply operation_cases in H as [[_ [e [=]]]|(c0 & Hc & [= <- <-])]. done.
  - intros h crn w r w' crn' H. cbn in H. unfold attached, tags_at.
    apply operation_cases in H as [[-> _]|(c0 & <- & [= _ <-])]; done.
  - done.
  - intros h crn l w r w' t H Hl Ht. cbn in H. unfold attached, tags_at in *.
    apply operation_cases in H as [[-> _]|(c0 & Hc & H)]; [done|].
    rewrite <- Hc in Ht. unfold change_tags in H.
    destruct (tags_frozen c0); injection H as _ <-; [done|]. cbn.
    rewrite lookup_insert_eq. cbn. apply elem_of_list_to_set.
    unfold remove_tags, tags_at. apply list_elem_of_In, filter_In.
    apply elem_of_list_to_set, list_elem_of_In in Ht. split; [done|].
    by rewrite bool_decide_eq_false_2.
Qed.

End sim_facts.

(** ** The claims on the simulated backend *)

Section scenarios.
Import Sim Scenario.

(** C1, witness: instance ["i-1"] is stopped by [terminate_node]. *)
Lemma terminated_node_stays_masked_witness :
  purged "i-1" (self reuse_stopped)
  /\ (forall fuel' tag_filters (s2 : state cloud),
        masked "i-1" (self s2) ->
        masked "i-1" (self (non_terminated_nodes fuel' tag_filters s2).2)
        /\ (forall node_ids,
              (non_terminated_nodes fuel' tag_filters s2).1 = Ok node_ids ->
              "i-1" ∉ node_ids)).
Proof.
  apply (terminated_node_stays_masked fuel "i-1" reuse_start reuse_stopped).
  - vm_compute. reflexivity.
  - intros _ m w'. vm_compute. discriminate.
Defined.

(** C1, as stated, fails.  [terminate_node] stops ["i-1"] and puts it
    among the deleted ids, and the next listing leaves it out.  Then
    [create_node] restarts the stopped node and takes it out of the
    deleted ids: the listing after that returns the id again and puts it
    back into the cached nodes. *)
Lemma reused_node_is_listed_again :
  (terminate_node fuel "i-1" reuse_start).1 = Ok tt
  /\ deleted_nodes (self reuse_stopped) = ["i-1"]
  /\ (non_terminated_nodes fuel [] reuse_stopped).1 = Ok []
  /\ created_ids (create_node fuel cfg worker_tags 2 reuse_stopped).1
     = ["i-1"; new_id]
  /\ deleted_nodes (self reuse_created) = []
  /\ (non_terminated_nodes fuel [] reuse_created).1 = Ok ["i-1"; new_id]
  /\ node_name
       <$> cached_nodes (self (non_terminated_nodes fuel [] reuse_created).2)
           !! "i-1"
     = Some "ray-c1-worker-i-1".
Proof. vm_compute. repeat split. Qed.


(** C3: the code at the failing input.  A worker was created two hundred
    seconds ago and the search does not find it.  The body of
    [non_terminated_nodes] raises [TypeError] where it subtracts the time
    from the pending entry; the decorated method retries and ends in
    [UnboundLocalError].  The instance is not deleted and stays in the
    pending dictionary. *)
Theorem expired_pending_node_is_not_deleted :
  odict.keys (pending_nodes (self created_long_ago)) = [new_id]
  /\ (time_time (world created_long_ago) - time_time (world created))%Z = 200%Z
  /\ (non_terminated_nodes_body fuel (_delete_node fuel) [] created_long_ago).1
     = Raise (TypeError "unsupported operand type(s) for -: 'dict' and 'float'")
  /\ (non_terminated_nodes fuel [] created_long_ago).1
     = Raise (UnboundLocalError "e")
  /\ odict.keys
       (pending_nodes (self (non_terminated_nodes fuel [] created_long_ago).2))
     = [new_id]
  /\ count_calls "delete_instance"
       (world (non_terminated_nodes fuel [] created_long_ago).2) = 0.
Proof. vm_compute. repeat split. Qed.

(** C4: the code at the failing input.  A worker has just been created
    and the search does not find it yet.  [non_terminated_nodes] does not
    return a list with its id: it raises, and the cached nodes do not get
    the id. *)
Theorem new_pending_node_is_not_listed :
  odict.keys (pending_nodes (self created)) = [new_id]
  /\ (non_terminated_nodes_body fuel (_delete_node fuel) [] created).1
     = Raise (TypeError "unsupported operand type(s) for -: 'dict' and 'float'")
  /\ (non_terminated_nodes fuel [] created).1 = Raise (UnboundLocalError "e")
  /\ cached_nodes (self (non_terminated_nodes fuel [] created).2) !! new_id
     = None.
Proof. vm_compute. repeat split. Qed.

(** C5: the code at the failing input.  The search service answers every
    call with a 503.  The body of [non_terminated_nodes] raises that
    [ApiException]; the decorated method makes ten attempts, makes new
    clients after each, and raises [UnboundLocalError] in the end. *)
Theorem retry_on_except_loses_the_exception :
  (non_terminated_nodes_body fuel (_delete_node fuel) [] search_down).1
  = Raise (ApiException 503 "service unavailable")
  /\ (non_terminated_nodes fuel [] search_down).1
     = Raise (UnboundLocalError "e")
  /\ count_calls "search" (world (non_terminated_nodes fuel [] search_down).2)
     = 10
  /\ ibm_vpc_client (self (non_terminated_nodes fuel [] search_down).2) = 10
  /\ global_search_service (self (non_terminated_nodes fuel [] search_down).2)
     = 10.
Proof. vm_compute. repeat split. Qed.

(** C6: the code at the failing input.  When the tags are never taken and
    nothing is raised, the result is [False].  When [attach_tag] raises,
    in every attempt or in the first one only, the retries end in
    [UnboundLocalError] and not in the exception of the service. *)
Theorem tagging_retries_lose_the_exception :
  (_global_tagging_with_retries fuel "crn:i-1" "attach_tag"
     (Some ["ray-node-type:worker"]) tags_never_taken).1 = Ok PyFalse
  /\ (_global_tagging_with_retries fuel "crn:i-1" "attach_tag"
        (Some ["ray-node-type:worker"]) attach_down).1
     = Raise (UnboundLocalError "e")
  /\ count_calls "attach_tag"
       (world (_global_tagging_with_retries fuel "crn:i-1" "attach_tag"
                 (Some ["ray-node-type:worker"]) attach_down).2) = 10
  /\ (_global_tagging_with_retries fuel "crn:i-1" "attach_tag"
        (Some ["ray-node-type:worker"]) attach_fails_once).1
     = Raise (UnboundLocalError "e").
Proof. vm_compute. repeat split. Qed.

(** C7, witness: the status of ["i-1"] goes from setting-up to
    up-to-date. *)
Lemma set_node_tags_one_status_witness :
  exists node s1 new_status,
    _get_node fuel "i-1" setting_up = (Ok node, s1)
    /\ odict.get "ray-node-status" [("ray-node-status", "up-to-date")]
       = Some new_status
    /\ ("ray-node-status:" +:+ new_status) ∈ ALL_STATUS_TAGS
    /\ (forall t, t ∈ ALL_STATUS_TAGS ->
          (t ∈ attached (world up_to_date) (node_crn node)
           <-> t = "ray-node-status:" +:+ new_status)).
Proof.
  apply (set_node_tags_one_status attached (TS := sim_tag_store) fuel "i-1"
           [("ray-node-status", "up-to-date")] setting_up up_to_date).
  - vm_compute. reflexivity.
  - eexists. reflexivity.
Defined.

(** C8, witness: the name is taken and the instance of that name is
    returned. *)
Lemma create_instance_error_handling_witness :
  (_create_instance taken_name cfg name_taken).1 = Ok (Some taken_instance).
Proof.
  edestruct (create_instance_error_handling taken_name cfg name_taken)
    as [H _].
  - reflexivity.
  - reflexivity.
  - erewrite H; [reflexivity | reflexivity | reflexivity | reflexivity].
Defined.

(** C9: the code at the failing input.  A provider that has just been
    made is asked for three nodes while a stopped node of the cluster
    exists.  [create_node] restarts the node and tags it, and then raises
    [ValueError] where it removes the id from the deleted ids, which do
    not hold it; no instance is created and no dictionary is returned. *)
Theorem create_node_reuse_raises_value_error :
  deleted_nodes (self fresh_with_stopped) = []
  /\ (create_node fuel cfg worker_tags 3 fresh_with_stopped).1
     = Raise (ValueError "list.remove(x): x not in list")
  /\ inst_status
       <$> instances (world (create_node fuel cfg worker_tags 3
                               fresh_with_stopped).2)
     = ["running"]
  /\ tags_at "crn:i-1"
       (world (create_node fuel cfg worker_tags 3 fresh_with_stopped).2)
     = to_gen2_tags worker_tags
  /\ count_calls "create_instance"
       (world (create_node fuel cfg worker_tags 3 fresh_with_stopped).2) = 0.
Proof. vm_compute. repeat split. Qed.

(** C10, witness: with hybrid addresses, a head node that has no floating
    ip. *)
Lemma external_ip_none_without_floating_ip_witness :
  (external_ip fuel "h-1" hybrid_head).1 = Ok None.
Proof.
  erewrite (external_ip_none_without_floating_ip fuel "h-1" hybrid_head);
    [reflexivity | vm_compute; reflexivity | reflexivity
    | vm_compute; reflexivity | reflexivity | intros _; vm_compute; reflexivity ].
Defined.

End scenarios.

(** ** What the methods leave as it is *)

Section frame.
Context {W : Type} {B : Backend W}.
Variable J : provider -> Prop.
Hypothesis J_clients : forall v t s p, J p -> J (set_clients v t s p).

Lemma frame_init_clients : keeps (on_self (W := W) J) _init_clients (fun _ => True).
Proof.
  apply keeps_log_in_out. apply (keeps_modify_self J). intros p Hp.
  by apply J_clients.
Qed.

Lemma frame_retry_on_except {A} (func : M W A) Q :
  keeps (on_self J) func Q -> keeps (on_self J) (retry_on_except func) Q.
Proof.
  intros Hf. unfold retry_on_except. generalize (Bound (@None exn)).
  induction (seq 0 RETRIES) as [|r rs IH]; intros e;
    cbn [retry_on_except_loop].
  { destruct e as [|[x|]]; apply keeps_raise. }
  eapply keeps_bind; [by apply keeps_catch|].
  intros [x|a] Ha; [|apply keeps_ret; auto].
  eapply keeps_bind; [apply frame_init_clients|]. intros _ _.
  eapply keeps_bind; [apply (keeps_sleep J)|]. intros _ _.
  apply IH.
Qed.

Lemma frame_tagging_after_attempt retry :
  keeps (on_self (W := W) J) (tagging_after_attempt retry) (fun _ => True).
Proof.
  unfold tagging_after_attempt.
  eapply keeps_bind; [|intros _ _; apply (keeps_sleep J)].
  instantiate (1 := fun _ => True).
  destruct (Nat.eqb _ _); [|by apply keeps_ret].
  apply (keeps_modify_self J). intros p Hp. by apply J_clients.
Qed.

Lemma frame_tagging_loop (attempt_once : M W attempt) rs e :
  keeps (on_self J) attempt_once (fun _ => True) ->
  keeps (on_self J) (tagging_loop attempt_once rs e) (fun _ => True).
Proof.
  intros Ha. revert e. induction rs as [|retry rs IH]; intros e;
    cbn [tagging_loop].
  { destruct e as [|[x|]]; [apply keeps_raise.. | by apply keeps_ret]. }
  eapply keeps_bind; [by apply keeps_catch|].
  intros [x|[v| |]] _.
  - eapply keeps_bind; [apply frame_tagging_after_attempt|]. intros _ _. apply IH.
  - by apply keeps_ret.
  - apply IH.
  - eapply keeps_bind; [apply frame_tagging_after_attempt|]. intros _ _. apply IH.
Qed.

Lemma frame_first_is_error r :
  keeps (on_self (W := W) J) (first_is_error r) (fun _ => True).
Proof.
  unfold first_is_error. destruct (results r); [apply keeps_raise | by apply keeps_ret].
Qed.

Lemma frame_tag_names r :
  keeps (on_self (W := W) J) (tag_names r) (fun _ => True).
Proof. destruct r; [apply keeps_raise | by apply keeps_ret | apply keeps_raise]. Qed.

Lemma frame_set_of tags :
  keeps (on_self (W := W) J) (set_of tags) (fun _ => True).
Proof. destruct tags; [by apply keeps_ret | apply keeps_raise]. Qed.

Lemma frame_tagging_attempt (list_tags_again : M W tagging_ret) crn f_name tags :
  keeps (on_self J) list_tags_again (fun _ => True) ->
  keeps (on_self J) (tagging_attempt list_tags_again crn f_name tags)
    (fun _ => True).
Proof.
  intros Hl. unfold tagging_attempt.
  destruct (String.eqb f_name "attach_tag"); [|destruct (String.eqb f_name "list_tags")].
  - eapply keeps_bind; [apply (keeps_get_self J)|]. intros p _.
    eapply keeps_bind; [apply (keeps_call J)|]. intros r _.
    eapply keeps_bind; [apply frame_first_is_error|]. intros [] _; cbn [negb];
      [by apply keeps_ret|].
    eapply keeps_bind; [apply Hl|]. intros listed _.
    eapply keeps_bind; [apply frame_tag_names|]. intros names _.
    eapply keeps_bind; [apply frame_set_of|]. intros wanted _.
    destruct (negb _); by apply keeps_ret.
  - eapply keeps_bind; [apply (keeps_get_self J)|]. intros p _.
    eapply keeps_bind; [apply (keeps_call J)|]. intros r _.
    by apply keeps_ret.
  - eapply keeps_bind; [apply (keeps_get_self J)|]. intros p _.
    eapply keeps_bind; [apply (keeps_call J)|]. intros r _.
    eapply keeps_bind; [apply frame_first_is_error|]. intros [] _; cbn [negb];
      [by apply keeps_ret|].
    eapply keeps_bind; [apply Hl|]. intros listed _.
    eapply keeps_bind; [apply frame_tag_names|]. intros names _.
    eapply keeps_bind; [apply frame_set_of|]. intros wanted _.
    destruct (negb _); by apply keeps_ret.
Qed.

Lemma frame_global_tagging fuel crn f_name tags :
  keeps (on_self J) (_global_tagging_with_retries fuel crn f_name tags)
    (fun _ => True).
Proof.
  revert f_name tags. induction fuel as [|fuel IH]; intros f_name tags;
    cbn [_global_tagging_with_retries]; [apply keeps_diverge|].
  apply keeps_log_in_out, frame_tagging_loop, frame_tagging_attempt, IH.
Qed.

(** [_get_node] and [_delete_node] around a listing that keeps [J]. *)
Lemma frame_get_node_with
    (listing : list (string * string) -> M W (list string)) fuel node_id :
  (forall tag_filters, keeps (on_self J) (listing tag_filters) (fun _ => True)) ->
  keeps (on_self J) (get_node_with listing fuel node_id) (fun _ => True).
Proof.
  intros Hl. unfold get_node_with.
  eapply keeps_bind; [apply Hl|]. intros _ _.
  eapply keeps_bind; [apply (keeps_get_self J)|]. intros p _.
  destruct (cached_nodes p !! node_id); [by apply keeps_ret|].
  eapply keeps_bind; [apply (keeps_call J)|]. intros node _.
  eapply keeps_bind; [apply frame_global_tagging|]. intros listed _.
  eapply keeps_bind; [apply frame_tag_names|]. intros names _.
  by apply keeps_ret.
Qed.

Lemma frame_delete_recyclable fips :
  keeps (on_self (W := W) J) (delete_recyclable fips) (fun _ => True).
Proof.
  induction fips as [|ip fips IH]; cbn [delete_recyclable]; [by apply keeps_ret|].
  eapply keeps_bind; [|intros _ _; apply IH]. instantiate (1 := fun _ => True).
  destruct (String.prefix _ _); [|by apply keeps_ret].
  eapply keeps_bind; [apply (keeps_get_self J)|]. intros p _.
  apply (keeps_call J).
Qed.

Lemma keeps_catch_api (I : state W -> Prop) {A} (m : M W A) Q :
  keeps I m Q -> keeps I (catch_api m) (fun r => forall a, r = inr a -> Q a).
Proof.
  intros Hm s Hs. unfold catch_api. destruct (Hm s Hs) as [H1 H2].
  destruct (m s) as [[a| e |] s1]; cbn in *.
  - split; [done|]. intros ? [= <-] ? [= <-]. auto.
  - destruct (is_ApiException e); cbn; split; try done.
    intros ? [= <-] ? [=].
  - split; [done | discriminate].
Qed.

Lemma frame_delete_node_with (_get_node : string -> M W node) resource_id :
  (forall node_id, keeps (on_self J) (_get_node node_id) (fun _ => True)) ->
  keeps (on_self J) (delete_node_with _get_node resource_id) (fun _ => True).
Proof.
  intros Hg. unfold delete_node_with.
  eapply keeps_bind.
  { apply keeps_catch_api. instantiate (1 := fun _ => True).
    eapply keeps_bind; [apply keeps_catch, Hg|]. intros got _.
    eapply keeps_bind; [apply (keeps_get_self J)|]. intros p _.
    eapply keeps_bind; [apply (keeps_call J)|]. intros _ _.
    apply frame_delete_recyclable. }
  intros [e|u] _; [|by apply keeps_ret].
  destruct e; try apply keeps_raise.
  destruct (Z.eqb _ _); [by apply keeps_ret | apply keeps_raise].
Qed.

End frame.

(** A property of the provider that none of the caches and clients bears
    on is kept by every method that only queries. *)
Section frame_queries.
Context {W : Type} {B : Backend W}.
Variable J : provider -> Prop.
Hypothesis J_clients : forall v t s p, J p -> J (set_clients v t s p).
Hypothesis J_cached : forall c p, J p -> J (set_cached_nodes c p).
Hypothesis J_pending : forall d p, J p -> J (set_pending_nodes d p).
Hypothesis J_prev : forall m p, J p -> J (set_prev_nodes m p).

Lemma frame_is_instance_not_found e :
  keeps (on_self (W := W) J) (is_instance_not_found e) (fun _ => True).
Proof.
  unfold is_instance_not_found.
  destruct (exn_message e); [by apply keeps_ret | apply keeps_raise].
Qed.

Lemma frame_collect_nodes items nodes :
  keeps (on_self (W := W) J) (collect_nodes items nodes) (fun _ => True).
Proof.
  revert nodes.
  induction items as [|node items IH]; intros nodes; cbn [collect_nodes].
  { by apply keeps_ret. }
  eapply keeps_bind; [apply (keeps_get_self J)|].
  intros p _. case_bool_decide; [by apply IH|].
  destruct (negb _); [by apply IH|].
  eapply keeps_bind; [apply keeps_catch, (keeps_call J)|].
  intros [e|_] _.
  - eapply keeps_bind; [apply frame_is_instance_not_found|].
    intros [] _; [by apply IH | apply keeps_raise].
  - case_bool_decide; [|apply IH].
    eapply keeps_bind.
    { instantiate (1 := fun _ => True).
      destruct (network_interfaces (doc node));
        [apply keeps_raise | by apply keeps_ret]. }
    intros n0 _.
    eapply keeps_bind; [apply (keeps_call J)|].
    intros fips _. destruct (Nat.eqb _ _); apply IH.
Qed.

Lemma frame_prev_nodes_update key f :
  keeps (on_self (W := W) J) (prev_nodes_update key f) (fun _ => True).
Proof.
  unfold prev_nodes_update.
  eapply keeps_bind; [apply (keeps_get_self J)|]. intros p _.
  eapply keeps_bind; [apply keeps_subscript|]. intros ids _.
  apply (keeps_modify_self J). intros q Hq. by apply J_prev.
Qed.

Lemma frame_save_prev_nodes query nodes :
  keeps (on_self (W := W) J) (save_prev_nodes query nodes) (fun _ => True).
Proof.
  induction nodes as [|n nodes IH]; cbn [save_prev_nodes];
    [by apply keeps_ret|].
  eapply keeps_bind; [|intros _ _; apply IH].
  case_bool_decide; apply frame_prev_nodes_update.
Qed.

Lemma frame_nt_iteration query v :
  keeps (on_self (W := W) J) (nt_iteration query v) (fun _ => True).
Proof.
  unfold nt_iteration.
  eapply keeps_bind; [apply (keeps_get_self J)|]. intros p _.
  eapply keeps_bind; [apply (keeps_call J)|]. intros items _.
  eapply keeps_bind; [apply frame_collect_nodes|]. intros ns _.
  eapply keeps_bind; [apply (keeps_get_self J)|]. intros q _.
  eapply keeps_bind.
  { instantiate (1 := fun _ => True).
    destruct (contains HEAD query); [by apply keeps_ret|].
    eapply keeps_bind; [|intros _ _; by apply keeps_ret].
    instantiate (1 := fun _ => True).
    case_bool_decide; [|by apply keeps_ret].
    apply (keeps_modify_self J). intros q' Hq'. by apply J_prev. }
  intros prev_nodes_keys _.
  destruct (negb _).
  - destruct (_ && _); [by apply keeps_ret|].
    eapply keeps_bind; [apply (keeps_sleep J)|]. intros _ _. by apply keeps_ret.
  - eapply keeps_bind; [apply frame_save_prev_nodes|]. intros _ _.
    by apply keeps_ret.
Qed.

Lemma frame_nt_while fuel query v :
  keeps (on_self (W := W) J) (nt_while fuel query v) (fun _ => True).
Proof.
  revert v. induction fuel as [|fuel IH]; intros v; cbn [nt_while].
  { apply keeps_diverge. }
  destruct (Nat.ltb _ _); [|by apply keeps_ret].
  eapply keeps_bind; [apply frame_nt_iteration|].
  intros [v' []] _; [by apply keeps_ret | by apply IH].
Qed.

Lemma frame_prune_missing query missing :
  keeps (on_self (W := W) J) (prune_missing query missing) (fun _ => True).
Proof.
  induction missing as [|n missing IH]; cbn [prune_missing];
    [by apply keeps_ret|].
  eapply keeps_bind; [apply frame_prev_nodes_update|]. intros _ _.
  eapply keeps_bind; [apply frame_prev_nodes_update|]. intros _ _.
  eapply keeps_bind; [|intros _ _; apply IH].
  apply (keeps_modify_self J). intros p Hp. by apply J_cached.
Qed.

(** The merge stops at a pending id that the search did not find: the
    entry of the pending dictionary is an instance record, and a record
    minus a number is a [TypeError].  [_delete_node] is never reached. *)
Lemma frame_merge_pending (_delete_node : string -> M W unit) found pend_ids
    node_ids :
  keeps (on_self J) (merge_pending _delete_node found pend_ids node_ids)
    (fun _ => True).
Proof.
  revert node_ids.
  induction pend_ids as [|pend_id pend_ids IH]; intros node_ids;
    cbn [merge_pending].
  { by apply keeps_ret. }
  destruct (found !! pend_id) as [n|].
  - eapply keeps_bind; [|intros _ _; by apply IH].
    instantiate (1 := fun _ => True).
    destruct (String.eqb _ _); [|by apply keeps_ret].
    apply (keeps_modify_self J). intros p Hp. by apply J_pending.
  - eapply keeps_bind; [apply (keeps_get_self J)|]. intros p _.
    eapply keeps_bind; [apply keeps_subscript|]. intros pending _.
    eapply keeps_bind; [apply (keeps_now J)|]. intros t _.
    eapply (keeps_bind _ _ _ (fun _ => False)); [apply keeps_raise|].
    intros _ [].
Qed.

Lemma frame_body fuel (_delete_node : string -> M W unit) tag_filters :
  keeps (on_self J) (non_terminated_nodes_body fuel _delete_node tag_filters)
    (fun _ => True).
Proof.
  unfold non_terminated_nodes_body.
  eapply keeps_bind; [apply (keeps_get_self J)|]. intros p _.
  eapply keeps_bind; [apply frame_nt_while|]. intros v _.
  eapply keeps_bind; [apply frame_prune_missing|]. intros _ _.
  eapply keeps_bind.
  { apply (keeps_modify_self J). intros q Hq. by apply J_cached. }
  intros _ _.
  eapply keeps_bind; [apply (keeps_get_self J)|]. intros q _.
  apply frame_merge_pending.
Qed.

Lemma frame_non_terminated_nodes fuel tag_filters :
  keeps (on_self J) (non_terminated_nodes fuel tag_filters) (fun _ => True).
Proof.
  destruct fuel as [|fuel]; cbn [non_terminated_nodes];
    [apply keeps_diverge|].
  apply keeps_log_in_out, (frame_retry_on_except J J_clients), frame_body.
Qed.

End frame_queries.

(** What the listing keeps, the methods built on it keep, as long as the
    assignments they make themselves keep it. *)
Section frame_methods.
Context {W : Type} {B : Backend W}.
Variable J : provider -> Prop.
Hypothesis J_clients : forall v t s p, J p -> J (set_clients v t s p).
Hypothesis J_listing :
  forall fuel tag_filters,
    keeps (on_self J) (non_terminated_nodes fuel tag_filters) (fun _ => True).

Lemma frame_get_node fuel node_id :
  keeps (on_self J) (_get_node fuel node_id) (fun _ => True).
Proof.
  apply (frame_get_node_with J J_clients). intros tf. apply J_listing.
Qed.

Lemma frame_delete_node fuel resource_id :
  keeps (on_self J) (_delete_node fuel resource_id) (fun _ => True).
Proof.
  apply (frame_delete_node_with J). intros id. apply frame_get_node.
Qed.

Lemma frame_get_cached_node fuel node_id :
  keeps (on_self J) (_get_cached_node fuel node_id) (fun _ => True).
Proof.
  unfold _get_cached_node.
  eapply keeps_bind; [apply (keeps_get_self J)|]. intros p _.
  destruct (cached_nodes p !! node_id); [by apply keeps_ret|].
  apply frame_get_node.
Qed.

Lemma frame_node_doc n : keeps (on_self (W := W) J) (node_doc n) (fun _ => True).
Proof. destruct n; [by apply keeps_ret | apply keeps_raise]. Qed.

Lemma frame_node_primary_ipv4 n :
  keeps (on_self (W := W) J) (node_primary_ipv4 n) (fun _ => True).
Proof.
  unfold node_primary_ipv4.
  eapply keeps_bind; [apply frame_node_doc|]. intros d _.
  destruct (network_interfaces d); [apply keeps_raise | by apply keeps_ret].
Qed.

Lemma frame_is_running fuel node_id :
  keeps (on_self J) (is_running fuel node_id) (fun _ => True).
Proof.
  apply keeps_log_in_out.
  eapply keeps_bind; [apply frame_get_cached_node|]. intros n _.
  eapply keeps_bind; [apply frame_node_doc|]. intros d _. by apply keeps_ret.
Qed.

Lemma frame_is_terminated fuel node_id :
  keeps (on_self J) (is_terminated fuel node_id) (fun _ => True).
Proof.
  apply keeps_log_in_out.
  eapply keeps_bind; [apply frame_get_cached_node|]. intros n _.
  eapply keeps_bind; [apply frame_node_doc|]. intros d _. by apply keeps_ret.
Qed.

Lemma frame_tags_to_dict_loop l d :
  keeps (on_self (W := W) J) (tags_to_dict_loop l d) (fun _ => True).
Proof.
  revert d. induction l as [|tag l IH]; intros d; cbn [tags_to_dict_loop];
    [by apply keeps_ret|].
  destruct (str_split colon tag) as [|key [|value rest]];
    [apply keeps_raise.. | apply IH].
Qed.

Lemma frame_node_tags fuel node_id :
  keeps (on_self J) (node_tags fuel node_id) (fun _ => True).
Proof.
  apply keeps_log_in_out.
  eapply keeps_bind; [apply frame_get_cached_node|]. intros n _.
  unfold _tags_to_dict.
  eapply keeps_bind; [apply (keeps_get_self J)|]. intros p _.
  destruct (contains _ _); [|by apply keeps_ret].
  eapply keeps_bind; [|intros l _; apply frame_tags_to_dict_loop].
  instantiate (1 := fun _ => True).
  destruct n as [n|i]; [by apply keeps_ret|].
  cbn. destruct (inst_tags i); [by apply keeps_ret | apply keeps_raise].
Qed.

Lemma frame_internal_ip fuel node_id :
  keeps (on_self J) (internal_ip fuel node_id) (fun _ => True).
Proof.
  apply keeps_log_in_out.
  eapply keeps_bind; [apply frame_get_cached_node|]. intros n _.
  eapply keeps_bind.
  { apply keeps_catch. instantiate (1 := fun _ => True).
    eapply keeps_bind; [apply frame_node_primary_ipv4|].
    intros [a|] _; [by apply keeps_ret | apply frame_get_node]. }
  intros r _.
  eapply keeps_bind; [|intros n' _; apply frame_node_primary_ipv4].
  instantiate (1 := fun _ => True).
  destruct r; [apply frame_get_node | by apply keeps_ret].
Qed.

Lemma frame_external_ip fuel node_id :
  keeps (on_self J) (external_ip fuel node_id) (fun _ => True).
Proof.
  assert (forall n, keeps (on_self J)
            (match first_address (node_get_floating_ips n) with
             | Some address => ret (Some address)
             | None =>
                 node <- _get_node fuel node_id;;
                 match first_address (node_get_floating_ips node) with
                 | Some address => ret (Some address)
                 | None => ret None
                 end
             end) (fun _ => True)) as Hrest.
  { intros n. destruct (first_address _); [by apply keeps_ret|].
    eapply keeps_bind; [apply frame_get_node|]. intros n' _.
    destruct (first_address _); by apply keeps_ret. }
  apply keeps_log_in_out.
  eapply keeps_bind; [apply (keeps_get_self J)|]. intros p _.
  destruct (use_hybrid_ips p).
  - unfold _get_hybrid_ip.
    eapply keeps_bind; [apply frame_get_cached_node|]. intros n _.
    eapply keeps_bind; [apply (keeps_get_self J)|]. intros q _.
    case_bool_decide; [apply Hrest | apply frame_internal_ip].
  - eapply keeps_bind; [apply frame_get_cached_node|]. intros n _.
    apply Hrest.
Qed.

Lemma frame_set_node_tags fuel node_id tags :
  keeps (on_self J) (set_node_tags fuel node_id tags) (fun _ => True).
Proof.
  apply keeps_log_in_out.
  eapply keeps_bind; [apply frame_get_node|]. intros n _.
  eapply keeps_bind; [apply (frame_global_tagging J J_clients)|]. intros r _.
  destruct (negb _); [apply keeps_raise|].
  destruct (odict.get _ _); [|by apply keeps_ret].
  destruct (list_remove _ _); [|apply keeps_raise].
  eapply keeps_bind; [apply (frame_global_tagging J J_clients)|]. intros r' _.
  destruct (negb _); [apply keeps_raise | apply (keeps_sleep J)].
Qed.

(** *** Creating and terminating *)

Hypothesis J_pending : forall d p, J p -> J (set_pending_nodes d p).
Hypothesis J_deleted : forall l p, J p -> J (set_deleted_nodes l p).
Hypothesis J_prev : forall m p, J p -> J (set_prev_nodes m p).
Hypothesis J_uncached :
  forall id p, J p -> J (set_cached_nodes (delete id (cached_nodes p)) p).

Lemma keeps_uuid4 : keeps (on_self (W := W) J) uuid4 (fun _ => True).
Proof.
  intros s Hs. unfold uuid4. by destruct (uuid4_hex (world s)).
Qed.

Lemma frame_wait_running_loop (_delete_node : string -> M W unit) fuel start
    instance_id instance :
  (forall id, keeps (on_self J) (_delete_node id) (fun _ => True)) ->
  keeps (on_self J)
    (wait_running_loop _delete_node fuel start instance_id instance)
    (fun _ => True).
Proof.
  intros Hd. revert instance. induction fuel as [|fuel IH]; intros instance;
    cbn [wait_running_loop]; [apply keeps_diverge|].
  destruct (negb _); [|by apply keeps_ret].
  eapply keeps_bind; [apply (keeps_sleep J)|]. intros _ _.
  eapply keeps_bind; [apply (keeps_get_self J)|]. intros p _.
  eapply keeps_bind; [apply (keeps_call J)|]. intros i _.
  eapply keeps_bind; [apply (keeps_now J)|]. intros t _.
  destruct (Z.ltb _ _); [|apply IH].
  eapply keeps_bind; [apply Hd|]. intros _ _. apply keeps_raise.
Qed.

Lemma frame_wait_running_with (_delete_node : string -> M W unit) fuel
    instance_id :
  (forall id, keeps (on_self J) (_delete_node id) (fun _ => True)) ->
  keeps (on_self J) (wait_running_with _delete_node fuel instance_id)
    (fun _ => True).
Proof.
  intros Hd. unfold wait_running_with.
  eapply keeps_bind; [apply (keeps_now J)|]. intros t _.
  eapply keeps_bind; [apply (keeps_get_self J)|]. intros p _.
  eapply keeps_bind; [apply (keeps_call J)|]. intros i _.
  by apply frame_wait_running_loop.
Qed.

Lemma frame_wait_running fuel instance_id :
  keeps (on_self J) (_wait_running fuel instance_id) (fun _ => True).
Proof.
  apply frame_wait_running_with. intros id. apply frame_delete_node.
Qed.

Lemma frame_get_instance_data name :
  keeps (on_self (W := W) J) (_get_instance_data name) (fun _ => True).
Proof.
  unfold _get_instance_data.
  eapply keeps_bind; [apply (keeps_get_self J)|]. intros p _.
  eapply keeps_bind; [apply (keeps_call J)|]. intros l _.
  destruct l; by apply keeps_ret.
Qed.

Lemma frame_instance_prototype_of p name cfg :
  keeps (on_self (W := W) J) (instance_prototype_of p name cfg) (fun _ => True).
Proof.
  unfold instance_prototype_of.
  repeat (eapply keeps_bind; [apply keeps_subscript|]; intros ? _).
  by apply keeps_ret.
Qed.

Lemma frame_create_instance name cfg :
  keeps (on_self (W := W) J) (_create_instance name cfg) (fun _ => True).
Proof.
  unfold _create_instance.
  eapply keeps_bind; [apply (keeps_get_self J)|]. intros p _.
  eapply keeps_bind; [apply frame_instance_prototype_of|]. intros proto _.
  eapply keeps_bind; [apply keeps_catch_api, (keeps_call J)|].
  intros [e|resp] _; [|by apply keeps_ret].
  destruct e; try apply keeps_raise.
  destruct (_ && _); [apply frame_get_instance_data|].
  destruct (_ && _); apply keeps_raise.
Qed.

Lemma frame_new_floating_ip cfg :
  keeps (on_self (W := W) J) (new_floating_ip cfg) (fun _ => True).
Proof.
  unfold new_floating_ip.
  eapply keeps_bind; [apply keeps_uuid4|]. intros hex _.
  eapply keeps_bind; [apply (keeps_get_self J)|]. intros p _.
  eapply keeps_bind; [apply keeps_subscript|]. intros z _.
  eapply keeps_bind; [apply keeps_subscript|]. intros g _.
  apply (keeps_call J).
Qed.

Lemma frame_create_floating_ip cfg :
  keeps (on_self (W := W) J) (_create_floating_ip cfg) (fun _ => True).
Proof.
  unfold _create_floating_ip.
  destruct (head_ip cfg) as [[|c rest]|]; try apply frame_new_floating_ip.
  eapply keeps_bind; [apply (keeps_get_self J)|]. intros p _.
  eapply keeps_bind; [apply (keeps_call J)|]. intros ips _.
  destruct (find_address _ _); [by apply keeps_ret|].
  apply frame_new_floating_ip.
Qed.

Lemma frame_attach_floating_ip instance fip :
  keeps (on_self (W := W) J) (_attach_floating_ip instance fip) (fun _ => True).
Proof.
  unfold _attach_floating_ip. destruct (_ && _); [by apply keeps_ret|].
  eapply keeps_bind.
  { instantiate (1 := fun _ => True).
    destruct (inst_network_interfaces instance);
      [apply keeps_raise | by apply keeps_ret]. }
  intros n0 _.
  eapply keeps_bind; [apply (keeps_get_self J)|]. intros p _.
  apply (keeps_call J).
Qed.

Lemma frame_create_node_instance fuel cfg tags :
  keeps (on_self J) (create_node_instance fuel cfg tags) (fun _ => True).
Proof.
  unfold create_node_instance.
  eapply keeps_bind; [apply keeps_subscript|]. intros name_tag _.
  destruct (negb _); [apply keeps_raise|].
  eapply keeps_bind; [apply keeps_uuid4|]. intros hex _.
  eapply keeps_bind; [apply frame_create_instance|]. intros created _.
  eapply keeps_bind.
  { instantiate (1 := fun _ => True).
    destruct created; [by apply keeps_ret | apply keeps_raise]. }
  intros instance _.
  eapply keeps_bind.
  { apply (keeps_modify_self J). intros p Hp. by apply J_pending. }
  intros _ _.
  eapply keeps_bind; [apply (keeps_get_self J)|]. intros p _.
  eapply keeps_bind.
  { instantiate (1 := fun _ => True).
    case_bool_decide; [|by apply keeps_ret].
    eapply keeps_bind; [apply frame_create_floating_ip|]. intros fip _.
    apply frame_attach_floating_ip. }
  intros _ _.
  eapply keeps_bind.
  { apply frame_wait_running_with. intros id. apply keeps_diverge. }
  intros _ _. by apply keeps_ret.
Qed.

Lemma frame_create_node_task fuel cfg tags :
  keeps (on_self J) (_create_node fuel cfg tags) (fun _ => True).
Proof.
  unfold _create_node.
  eapply keeps_bind; [apply keeps_catch, frame_create_node_instance|].
  intros [e|[name instance]] _; [by apply keeps_ret|].
  eapply keeps_bind; [apply (keeps_get_self J)|]. intros p _.
  eapply keeps_bind; [|intros r _; by apply keeps_ret].
  apply keeps_catch. instantiate (1 := fun _ => True).
  eapply keeps_bind; [apply (frame_global_tagging J J_clients)|]. intros a _.
  destruct (negb _); [apply keeps_raise | by apply keeps_ret].
Qed.

Lemma frame_submit_create_node fuel count cfg tags :
  keeps (on_self J) (submit_create_node fuel count cfg tags) (fun _ => True).
Proof.
  revert tags. induction count as [|count IH]; intros tags;
    cbn [submit_create_node]; [by apply keeps_ret|].
  eapply keeps_bind; [apply frame_create_node_task|]. intros r _.
  eapply keeps_bind; [apply IH|]. intros futures _. by apply keeps_ret.
Qed.

Lemma frame_collect_created futures acc :
  keeps (on_self (W := W) J) (collect_created futures acc) (fun _ => True).
Proof.
  revert acc. induction futures as [|[e|d] futures IH]; intros acc;
    cbn [collect_created]; [by apply keeps_ret | apply keeps_raise | apply IH].
Qed.

Lemma frame_filter_stopped items nodes :
  keeps (on_self (W := W) J) (filter_stopped items nodes) (fun _ => True).
Proof.
  revert nodes. induction items as [|node items IH]; intros nodes;
    cbn [filter_stopped]; [by apply keeps_ret|].
  eapply keeps_bind; [apply (keeps_get_self J)|]. intros p _.
  eapply keeps_bind; [apply keeps_catch, (keeps_call J)|].
  intros [e|instance] _.
  - eapply keeps_bind.
    { instantiate (1 := fun _ => True). unfold is_instance_not_found.
      destruct (exn_message e); [by apply keeps_ret | apply keeps_raise]. }
    intros [] _; [apply IH | apply keeps_raise].
  - case_bool_decide; apply IH.
Qed.

Lemma frame_stopped_nodes tags :
  keeps (on_self (W := W) J) (_stopped_nodes tags) (fun _ => True).
Proof.
  unfold _stopped_nodes.
  eapply keeps_bind; [apply (keeps_get_self J)|]. intros p _.
  eapply keeps_bind.
  { instantiate (1 := fun _ => True). unfold stopped_query.
    eapply keeps_bind; [apply keeps_subscript|]. intros kind _.
    eapply keeps_bind; [apply keeps_subscript|]. intros launch _.
    by apply keeps_ret. }
  intros query _.
  eapply keeps_bind; [apply keeps_catch_api, (keeps_call J)|]. intros r _.
  eapply keeps_bind; [|intros items _; apply frame_filter_stopped].
  instantiate (1 := fun _ => True).
  destruct r as [e|items]; [|by apply keeps_ret].
  eapply keeps_bind.
  { apply (keeps_modify_self J). intros q Hq. by apply J_clients. }
  intros _ _.
  eapply keeps_bind; [apply (keeps_get_self J)|]. intros q _.
  apply (keeps_call J).
Qed.

Lemma frame_start_instances stopped_nodes :
  keeps (on_self (W := W) J) (start_instances stopped_nodes) (fun _ => True).
Proof.
  induction stopped_nodes as [|node nodes IH]; cbn [start_instances];
    [by apply keeps_ret|].
  eapply keeps_bind; [apply (keeps_get_self J)|]. intros p _.
  eapply keeps_bind; [apply (keeps_call J)|]. intros _ _. apply IH.
Qed.

Lemma frame_retag_stopped fuel ids tags :
  keeps (on_self J) (retag_stopped fuel ids tags) (fun _ => True).
Proof.
  induction ids as [|node_id ids IH]; cbn [retag_stopped];
    [by apply keeps_ret|].
  eapply keeps_bind; [apply frame_set_node_tags|]. intros _ _.
  eapply keeps_bind; [apply (keeps_get_self J)|]. intros p _.
  eapply keeps_bind; [|intros _ _; apply IH].
  destruct (list_remove _ _); [|apply keeps_raise].
  apply (keeps_modify_self J). intros q Hq. by apply J_deleted.
Qed.

Lemma frame_create_node fuel cfg tags count :
  keeps (on_self J) (create_node fuel cfg tags count) (fun _ => True).
Proof.
  apply keeps_log_in_out.
  eapply keeps_bind; [apply (keeps_get_self J)|]. intros p _.
  eapply keeps_bind.
  { instantiate (1 := fun _ => True).
    destruct (cache_stopped_nodes p); [|by apply keeps_ret].
    eapply keeps_bind; [apply frame_stopped_nodes|]. intros stopped _.
    eapply keeps_bind; [apply frame_start_instances|]. intros _ _.
    eapply keeps_bind; [apply (keeps_sleep J)|]. intros _ _.
    eapply keeps_bind; [apply frame_retag_stopped|]. intros _ _.
    by apply keeps_ret. }
  intros reused _.
  eapply keeps_bind.
  { instantiate (1 := fun _ => True). unfold thread_pool_executor.
    destruct (Z.leb _ _); [apply keeps_raise | by apply keeps_ret]. }
  intros _ _.
  eapply keeps_bind; [apply frame_submit_create_node|]. intros futures _.
  eapply keeps_bind; [apply frame_collect_created|]. intros created _.
  by apply keeps_ret.
Qed.

Lemma frame_terminate_node fuel node_id :
  keeps (on_self J) (terminate_node fuel node_id) (fun _ => True).
Proof.
  apply keeps_log_in_out.
  eapply keeps_bind.
  { apply keeps_catch_api. instantiate (1 := fun _ => True).
    eapply keeps_bind; [apply (keeps_get_self J)|]. intros p _.
    eapply keeps_bind.
    { instantiate (1 := fun _ => True).
      destruct (cache_stopped_nodes p);
        [apply (keeps_call J) | apply frame_delete_node]. }
    intros _ _.
    eapply keeps_bind.
    { apply (keeps_modify_self J). intros q Hq. by apply J_deleted. }
    intros _ _.
    eapply keeps_bind.
    { apply (keeps_modify_self J). intros q Hq. by apply J_prev. }
    intros _ _.
    apply (keeps_modify_self J). intros q Hq. by apply J_uncached. }
  intros [e|u] _; [|by apply keeps_ret].
  destruct e; try apply keeps_raise.
  destruct (Z.eqb _ _); [by apply keeps_ret | apply keeps_raise].
Qed.

Lemma frame_terminate_nodes fuel node_ids :
  keeps (on_self J) (terminate_nodes fuel node_ids) (fun _ => True).
Proof.
  apply keeps_log_in_out. destruct node_ids as [|id0 ids0]; [by apply keeps_ret|].
  eapply keeps_bind.
  { instantiate (1 := fun _ => True). unfold thread_pool_executor.
    destruct (Z.leb _ _); [apply keeps_raise | by apply keeps_ret]. }
  intros _ _.
  eapply keeps_bind.
  { instantiate (1 := fun _ => True).
    induction (id0 :: ids0) as [|node_id node_ids IH];
      cbn [submit_terminate_node]; [by apply keeps_ret|].
    eapply keeps_bind; [apply keeps_catch, frame_terminate_node|]. intros r _.
    eapply keeps_bind; [apply IH|]. intros futures _. by apply keeps_ret. }
  intros futures _.
  induction futures as [|[e|u] futures IH]; cbn [collect_terminated];
    [by apply keeps_ret | apply keeps_raise | apply IH].
Qed.

End frame_methods.

Section settings.
Context {W : Type} {B : Backend W}.

Lemma same_settings_refl p : same_settings p p.
Proof. by repeat split. Qed.

Lemma same_settings_clients p0 v t s p :
  same_settings p0 p -> same_settings p0 (set_clients v t s p).
Proof. intros H. exact H. Qed.

Lemma same_settings_cached p0 c p :
  same_settings p0 p -> same_settings p0 (set_cached_nodes c p).
Proof. intros H. exact H. Qed.

Lemma same_settings_pending p0 d p :
  same_settings p0 p -> same_settings p0 (set_pending_nodes d p).
Proof. intros H. exact H. Qed.

Lemma same_settings_prev p0 m p :
  same_settings p0 p -> same_settings p0 (set_prev_nodes m p).
Proof. intros H. exact H. Qed.

Lemma settings_listing p0 fuel tag_filters :
  keeps (on_self (W := W) (same_settings p0))
    (non_terminated_nodes fuel tag_filters) (fun _ => True).
Proof.
  apply frame_non_terminated_nodes;
    auto using same_settings_clients, same_settings_cached,
      same_settings_pending, same_settings_prev.
Qed.

(** What a query leaves as it was, however it ends. *)
Lemma query_keeps_settings {A} (m : M W A) (s : state W) :
  (forall p0, keeps (on_self (same_settings p0)) m (fun _ => True)) ->
  same_settings (self s) (self (m s).2).
Proof. intros H. apply (H (self s) s). apply same_settings_refl. Qed.

(** X1.  The methods that query the cluster or set tags never touch the
    settings of the provider (cluster name, zone, hybrid addresses, stopping
    instead of deleting) nor its deleted ids, whatever the backend answers
    and however they end: only [terminate_node] and [create_node] change the
    deleted ids. *)
Theorem queries_keep_settings_and_deleted_ids fuel (s : state W) :
  (forall tag_filters,
     same_settings (self s) (self (non_terminated_nodes fuel tag_filters s).2))
  /\ (forall node_id,
        same_settings (self s) (self (is_running fuel node_id s).2)
        /\ same_settings (self s) (self (is_terminated fuel node_id s).2)
        /\ same_settings (self s) (self (node_tags fuel node_id s).2)
        /\ same_settings (self s) (self (internal_ip fuel node_id s).2)
        /\ same_settings (self s) (self (external_ip fuel node_id s).2))
  /\ (forall node_id tags,
        same_settings (self s) (self (set_node_tags fuel node_id tags s).2)).
Proof.
  split; [|split].
  - intros tag_filters. apply query_keeps_settings. intros p0.
    apply settings_listing.
  - intros node_id. split; [|split; [|split; [|split]]];
      apply query_keeps_settings; intros p0;
      [ apply frame_is_running | apply frame_is_terminated
      | apply frame_node_tags | apply frame_internal_ip
      | apply frame_external_ip ];
      auto using same_settings_clients, settings_listing.
  - intros node_id tags. apply query_keeps_settings. intros p0.
    apply frame_set_node_tags; auto using same_settings_clients,
      settings_listing.
Qed.

End settings.

(** ** The two retry mechanisms *)

Section retry_outcomes.
Context {W : Type} {B : Backend W}.

Lemma init_clients_Ok (s : state W) : exists s', _init_clients s = (Ok tt, s').
Proof. unfold _init_clients. rewrite log_in_out_eq. cbn. eauto. Qed.

(** How the loop of [retry_on_except] ends, and what [func] did for it. *)
Lemma retry_on_except_loop_cases {A} (func : M W A) retries e s :
  retries <> [] ->
  match retry_on_except_loop func retries e s with
  | (Ok a, s') => exists s0, func s0 = (Ok a, s')
  | (Raise x, s') =>
      x = UnboundLocalError "e" /\ exists y s0 s1, func s0 = (Raise y, s1)
  | (Diverge, s') => exists s0, func s0 = (Diverge, s')
  end.
Proof.
  revert e s. induction retries as [|retry retries IH]; intros e s Hne; [done|].
  cbn [retry_on_except_loop]. unfold bind at 1, catch.
  destruct (func s) as [[a|y|] s1] eqn:E; [by exists s| |by exists s].
  unfold bind at 1. destruct (init_clients_Ok s1) as [s2 ->].
  unfold bind at 1. cbn [sleep].
  destruct retries as [|retry' retries].
  - cbn. split; [done|]. eauto.
  - by apply IH.
Qed.

(** X2.  What the decorator [retry_on_except] makes of [func]: a result
    of the first attempt is passed on as it is; every result it returns was
    returned by an attempt of [func], which ended in the same state; it
    raises only after [func] has raised, and then what it raises is
    [UnboundLocalError] for its variable [e], never the exception of
    [func]. *)
Theorem retry_on_except_outcomes {A} (func : M W A) (s : state W) :
  (forall a s', func s = (Ok a, s') -> retry_on_except func s = (Ok a, s'))
  /\ (forall a s', retry_on_except func s = (Ok a, s') ->
        exists s0, func s0 = (Ok a, s'))
  /\ (forall x s', retry_on_except func s = (Raise x, s') ->
        x = UnboundLocalError "e"
        /\ exists y s0 s1, func s0 = (Raise y, s1)).
Proof.
  pose proof (retry_on_except_loop_cases func (seq 0 RETRIES) (Bound None) s)
    as H.
  split; [|split].
  - intros a s' E. unfold retry_on_except. cbn [seq RETRIES retry_on_except_loop].
    unfold bind at 1, catch. by rewrite E.
  - intros a s' E. unfold retry_on_except in E. rewrite E in H. by apply H.
  - intros x s' E. unfold retry_on_except in E. rewrite E in H. by apply H.
Qed.

(** An attempt to list tags returns the names that the service listed. *)
Lemma listing_attempt (again : M W tagging_ret) crn s a s' :
  tagging_attempt again crn "list_tags" None s = (Ok a, s') ->
  exists names,
    a = AReturn (TagItems names)
    /\ list_tags (global_tagging_service (self s)) crn (world s)
       = (Success names, world s').
Proof.
  unfold tagging_attempt. cbn [String.eqb Ascii.eqb Bool.eqb]. intros H.
  do 2 bind_inv H. injection H as <- <-. injection E as <- <-.
  apply call_Ok in E0 as [Hc _]. eauto.
Qed.

(** When every attempt returns a value or raises, so does the loop: it
    does not end in [False]. *)
Lemma tagging_loop_returns_value (attempt_once : M W attempt) rs e s r s' :
  (forall s0 a s1, attempt_once s0 = (Ok a, s1) -> exists v, a = AReturn v) ->
  rs <> [] \/ e = Unbound ->
  tagging_loop attempt_once rs e s = (Ok r, s') ->
  exists s0, attempt_once s0 = (Ok (AReturn r), s').
Proof.
  intros Ha. revert e s. induction rs as [|retry rs IH]; intros e s He;
    cbn [tagging_loop].
  { destruct He as [He | ->]; [done | discriminate]. }
  intros H. apply bind_Ok in H as (r0 & s1 & E & H).
  destruct r0 as [x|a].
  - bind_inv H. eapply IH; [|exact H]. by right.
  - apply catch_Ok_inr in E. destruct (Ha _ _ _ E) as [v ->].
    injection H as <- <-. eauto.
Qed.

Lemma listing_Ok fuel crn (s : state W) r s' :
  _global_tagging_with_retries fuel crn "list_tags" None s = (Ok r, s') ->
  exists names h w,
    r = TagItems names /\ list_tags h crn w = (Success names, world s').
Proof.
  intros E. destruct fuel as [|fuel]; [discriminate|].
  cbn [_global_tagging_with_retries] in E. rewrite log_in_out_eq in E.
  apply tagging_loop_returns_value in E as [s0 E]; [| |by left].
  - apply listing_attempt in E as (names & Heq & E). injection Heq as ->.
    eauto 6.
  - intros s0 a s1 H. apply listing_attempt in H as (names & -> & _). eauto.
Qed.

(** X3.  Asked to list the tags of a resource,
    [_global_tagging_with_retries] returns the list of names that the
    tagging service answered to [list_tags] in the state it ends in, or it
    does not return: [False] is never the result, so the callers that
    iterate over the result meet a list; and what it raises is
    [UnboundLocalError]. *)
Theorem list_tags_returns_the_listing fuel crn (s : state W) :
  match _global_tagging_with_retries fuel crn "list_tags" None s with
  | (Ok r, s') =>
      exists names h w,
        r = TagItems names /\ list_tags h crn w = (Success names, world s')
  | (Raise x, _) => x = UnboundLocalError "e"
  | (Diverge, _) => True
  end.
Proof.
  destruct (_global_tagging_with_retries fuel crn "list_tags" None s)
    as [[r|x|] s'] eqn:E;
    [by eapply listing_Ok | by eapply global_tagging_raises | done].
Qed.

(** The nested listing of an attach or detach. *)
Lemma nested_listing_names fuel crn (k : list string -> M W attempt) s r s' :
  (listed <- _global_tagging_with_retries fuel crn "list_tags" None;;
   node_tags <- tag_names listed;; k node_tags) s = (Ok r, s') ->
  exists names h w s1,
    list_tags h crn w = (Success names, world s1) /\ k names s1 = (Ok r, s').
Proof.
  intros H. apply bind_Ok in H as (listed & s1 & Hl & H).
  apply bind_Ok in H as (names & s2 & Hn & H).
  apply listing_Ok in Hl as (l & h & w & -> & Hw).
  injection Hn as <- <-. eauto 8.
Qed.

End retry_outcomes.

Section verification.
Context {W : Type} {B : Backend W}.

(** X4.  [_global_tagging_with_retries] returns a true value for an
    attach or a detach only after it has read the tags back: the state it
    ends in is that of an answer of [list_tags] for the resource, and that
    answer has all the tags it was to attach, or none of those it was to
    detach.  Nothing is assumed of the tagging service. *)
Theorem tagging_is_verified_by_listing fuel crn l (s : state W) r s' :
  truthy r = true ->
  (_global_tagging_with_retries fuel crn "attach_tag" (Some l) s = (Ok r, s') ->
   exists names h w,
     list_tags h crn w = (Success names, world s')
     /\ (forall t, t ∈ l -> t ∈ names))
  /\ (_global_tagging_with_retries fuel crn "detach_tag" (Some l) s
      = (Ok r, s') ->
      exists names h w,
        list_tags h crn w = (Success names, world s')
        /\ (forall t, t ∈ l -> t ∉ names)).
Proof.
  intros Hr. split; intros H.
  - apply global_tagging_Ok in H as [->|(f & s0 & -> & H)]; [discriminate|].
    unfold tagging_attempt in H. cbn [String.eqb Ascii.eqb Bool.eqb] in H.
    do 3 bind_inv H. destruct a1; [discriminate|]. cbn [negb] in H.
    apply nested_listing_names in H as (names & h & w & s4 & Hnames & H).
    apply bind_Ok in H as (wanted & s5 & Hw & H). injection Hw as <- <-.
    case_bool_decide as Hd; [|discriminate]. injection H as _ <-.
    exists names, h, w. split; [done|]. intros t Ht.
    destruct (decide (t ∈ names)) as [|Hn]; [done|]. exfalso.
    eapply (not_elem_of_empty (C := gset string) t). rewrite <- Hd.
    apply elem_of_difference. split; [by apply elem_of_list_to_set|].
    by rewrite elem_of_list_to_set.
  - apply global_tagging_Ok in H as [->|(f & s0 & -> & H)]; [discriminate|].
    unfold tagging_attempt in H. cbn [String.eqb Ascii.eqb Bool.eqb] in H.
    do 3 bind_inv H. destruct a1; [discriminate|]. cbn [negb] in H.
    apply nested_listing_names in H as (names & h & w & s4 & Hnames & H).
    apply bind_Ok in H as (unwanted & s5 & Hw & H). injection Hw as <- <-.
    case_bool_decide as Hd; [|discriminate]. injection H as _ <-.
    exists names, h, w. split; [done|]. intros t Ht Hin.
    eapply (not_elem_of_empty (C := gset string) t). rewrite <- Hd.
    apply elem_of_intersection. split; by apply elem_of_list_to_set.
Qed.

End verification.

(** ** What a listing returns *)

Section listing.
Context {W : Type} {B : Backend W}.

Lemma eligible_same_settings p0 p n :
  same_settings p0 p -> eligible p0 n -> eligible p n.
Proof.
  intros (Hc & _ & _ & _ & Hd) (H1 & H2 & H3). unfold eligible.
  rewrite Hd. split; [done|]. split; [done|].
  unfold _get_node_type in *. by rewrite Hc.
Qed.

Lemma same_settings_sym p0 p : same_settings p0 p -> same_settings p p0.
Proof. intros (?&?&?&?&?). by repeat split. Qed.

(** The loop over the search items keeps the eligible ones only. *)
Lemma eligible_collect_nodes p0 items nodes :
  Forall (eligible p0) nodes ->
  keeps (on_self (W := W) (same_settings p0)) (collect_nodes items nodes)
    (Forall (eligible p0)).
Proof.
  revert nodes.
  induction items as [|node items IH]; intros nodes Hn; cbn [collect_nodes].
  { by apply keeps_ret. }
  eapply keeps_bind; [apply (keeps_get_self (same_settings p0))|].
  intros p Hp. case_bool_decide as Hd; [by apply IH|].
  destruct (bool_decide (status (doc node) ∈ _)) eqn:Hst; cbn [negb];
    [|by apply IH].
  apply bool_decide_eq_true in Hst.
  eapply keeps_bind; [apply keeps_catch, (keeps_call (same_settings p0))|].
  intros [e|_] _.
  - eapply keeps_bind.
    { instantiate (1 := fun _ => True). unfold is_instance_not_found.
      destruct (exn_message e); [by apply keeps_ret | apply keeps_raise]. }
    intros [] _; [by apply IH | apply keeps_raise].
  - case_bool_decide as Hhead.
    + eapply keeps_bind.
      { instantiate (1 := fun _ => True).
        destruct (network_interfaces (doc node));
          [apply keeps_raise | by apply keeps_ret]. }
      intros n0 _.
      eapply keeps_bind; [apply (keeps_call (same_settings p0))|].
      intros fips _. destruct fips as [|ip ips]; cbn [length Nat.eqb];
        [by apply IH|].
      apply IH. apply Forall_app. split; [done|]. constructor; [|done].
      apply (eligible_same_settings p); [by apply same_settings_sym|].
      repeat split; cbn; [done..|]. eauto.
    + apply IH. apply Forall_app. split; [done|]. constructor; [|done].
      apply (eligible_same_settings p); [by apply same_settings_sym|].
      repeat split; [done..|]. intros Hh. by destruct Hhead.
Qed.

Lemma eligible_nt_iteration p0 query v :
  keeps (on_self (W := W) (same_settings p0)) (nt_iteration query v)
    (fun r => found_eligible p0 r.1).
Proof.
  unfold nt_iteration.
  eapply keeps_bind; [apply (keeps_get_self (same_settings p0))|]. intros p _.
  eapply keeps_bind; [apply (keeps_call (same_settings p0))|]. intros items _.
  eapply keeps_bind; [apply eligible_collect_nodes; constructor|].
  intros ns Hns.
  assert (Hfound : forall r m,
            found_eligible p0 {| retry := r; missing_nodes := m; nodes := ns;
                                 found_nodes := by_resource_id ns |}).
  { intros. by split. }
  eapply keeps_bind; [apply (keeps_get_self (same_settings p0))|]. intros q _.
  eapply keeps_bind.
  { instantiate (1 := fun _ => True).
    destruct (contains HEAD query); [by apply keeps_ret|].
    eapply keeps_bind; [|intros _ _; by apply keeps_ret].
    instantiate (1 := fun _ => True).
    case_bool_decide; [|by apply keeps_ret].
    apply (keeps_modify_self (same_settings p0)). intros q' Hq'. exact Hq'. }
  intros prev_nodes_keys _.
  destruct (negb _).
  - destruct (_ && _); [apply keeps_ret, Hfound|].
    eapply keeps_bind; [apply (keeps_sleep (same_settings p0))|]. intros _ _.
    apply keeps_ret, Hfound.
  - eapply keeps_bind.
    { apply frame_save_prev_nodes. intros m p1 Hp1. exact Hp1. }
    intros _ _. apply keeps_ret, Hfound.
Qed.

Lemma eligible_nt_while p0 fuel query v :
  found_eligible p0 v ->
  keeps (on_self (W := W) (same_settings p0)) (nt_while fuel query v)
    (found_eligible p0).
Proof.
  revert v. induction fuel as [|fuel IH]; intros v Hv; cbn [nt_while].
  { apply keeps_diverge. }
  destruct (Nat.ltb _ _); [|by apply keeps_ret].
  eapply keeps_bind; [apply eligible_nt_iteration|].
  intros [v' []] Hv'; [by apply keeps_ret | by apply IH].
Qed.

(** The dictionary of the found nodes has an entry for every node, made
    of one of the nodes of that id. *)
Lemma by_resource_id_elem nodes n :
  n ∈ nodes ->
  exists n', by_resource_id nodes !! resource_id n = Some n'
             /\ n' ∈ nodes /\ resource_id n' = resource_id n.
Proof.
  unfold by_resource_id.
  assert (forall (m : gmap string item) id,
            (exists n', m !! id = Some n' /\ resource_id n' = id)
            \/ (exists n, n ∈ nodes /\ resource_id n = id) ->
            exists n',
              fold_left (fun m n => <[resource_id n := n]> m) nodes m !! id
              = Some n'
              /\ resource_id n' = id
              /\ (n' ∈ nodes \/ m !! id = Some n')) as H.
  { induction nodes as [|x nodes IH]; intros m id Hm; cbn [fold_left].
    - destruct Hm as [(n' & Hn' & Hid)|(x & Hx & _)]; [eauto|].
      by apply elem_of_nil in Hx.
    - destruct (IH (<[resource_id x := x]> m) id) as (n' & Hl & Hid & Hin).
      + destruct (decide (resource_id x = id)) as [Heq|Hne].
        * left. exists x. by rewrite <- Heq, lookup_insert_eq.
        * destruct Hm as [(n' & Hn' & Hid)|(y & Hy & Hid)].
          -- left. exists n'. by rewrite lookup_insert_ne.
          -- apply elem_of_cons in Hy as [->|Hy]; [done|]. right. eauto.
      + exists n'. split; [done|]. split; [done|].
        destruct Hin as [Hin|Hin]; [left; by apply elem_of_cons; right|].
        destruct (decide (resource_id x = id)) as [Heq|Hne].
        * rewrite <- Heq, lookup_insert_eq in Hin. injection Hin as <-.
          left. by apply elem_of_cons; left.
        * rewrite lookup_insert_ne in Hin by done. by right. }
  intros Hn. destruct (H ∅ (resource_id n)) as (n' & Hl & Hid & Hin).
  { right. eauto. }
  exists n'. split; [done|]. split; [|done].
  destruct Hin as [|Hin]; [done|]. by rewrite lookup_empty in Hin.
Qed.

(** The merge of the pending nodes returns only when every pending id
    was found by the search; then it returns the ids it was given and
    leaves the cached nodes as they were. *)
Lemma merge_pending_Ok _delete_node found pend_ids node_ids (s : state W)
    l s' :
  merge_pending _delete_node found pend_ids node_ids s = (Ok l, s') ->
  l = node_ids /\ cached_nodes (self s') = cached_nodes (self s)
  /\ Forall (fun id => is_Some (found !! id)) pend_ids.
Proof.
  revert s. induction pend_ids as [|pend_id pend_ids IH]; intros s;
    cbn [merge_pending].
  { intros [= <- <-]. by repeat split. }
  destruct (found !! pend_id) as [n|] eqn:Hf.
  - intros H. bind_inv H. apply IH in H as (-> & Hc & Hall).
    split; [done|]. split.
    + rewrite Hc. destruct (String.eqb _ _); injection E as _ <-; done.
    + constructor; [by rewrite Hf | done].
  - intros H. do 4 bind_inv H. discriminate.
Qed.

Lemma body_Ok fuel _delete_node tag_filters (s : state W) node_ids s' :
  non_terminated_nodes_body fuel _delete_node tag_filters s
  = (Ok node_ids, s') ->
  forall node_id, node_id ∈ node_ids ->
    exists n, cached_nodes (self s') !! node_id = Some (Item n)
              /\ resource_id n = node_id /\ eligible (self s) n.
Proof.
  unfold non_terminated_nodes_body. intros H.
  apply bind_Ok in H as (p & s1 & E & H). injection E as <- <-.
  apply bind_Ok in H as (v & s2 & Ew & H).
  apply bind_Ok in H as ([] & s3 & Ep & H).
  apply bind_Ok in H as ([] & s4 & Em & H). injection Em as <-.
  apply bind_Ok in H as (q & s5 & E & H). injection E as <- <-.
  apply merge_pending_Ok in H as (-> & Hc & _).
  destruct (eligible_nt_while (self s) fuel (build_query (self s) tag_filters)
              nt_start) with (s := s) as [_ Hv].
  { split; [constructor | done]. }
  { apply same_settings_refl. }
  rewrite Ew in Hv. destruct (Hv v eq_refl) as [Hel Hfound].
  intros node_id Hin. apply list_elem_of_fmap in Hin as (n & -> & Hn).
  apply by_resource_id_elem in Hn as (n' & Hl & Hn' & Hid).
  exists n'. split; [|split; [done|]].
  - rewrite Hc. cbn. apply lookup_union_Some_l.
    by rewrite lookup_fmap, Hfound, Hl.
  - rewrite Forall_forall in Hel. by apply Hel.
Qed.

Lemma settings_body p0 fuel _delete_node tag_filters :
  keeps (on_self (W := W) (same_settings p0))
    (non_terminated_nodes_body fuel _delete_node tag_filters) (fun _ => True).
Proof.
  apply frame_body;
    auto using same_settings_cached, same_settings_pending,
      same_settings_prev.
Qed.

(** A result of [retry_on_except] is the result of an attempt that
    started in a state where what [func] keeps still held. *)
Lemma retry_on_except_Ok (J : provider -> Prop) {A} (func : M W A) s a s' :
  (forall v t x p, J p -> J (set_clients v t x p)) ->
  keeps (on_self J) func (fun _ => True) ->
  J (self s) ->
  retry_on_except func s = (Ok a, s') ->
  exists s0, J (self s0) /\ func s0 = (Ok a, s').
Proof.
  intros Jc Hf. unfold retry_on_except. generalize (Bound (@None exn)).
  revert s. induction (seq 0 RETRIES) as [|r rs IH]; intros s e Hs;
    cbn [retry_on_except_loop].
  { destruct e as [|[x|]]; discriminate. }
  intros H. apply bind_Ok in H as (r0 & s1 & E & H).
  destruct r0 as [x|a0].
  - destruct (Hf s Hs) as [Hs1 _].
    assert (on_self J s1) as Hs1'.
    { revert E Hs1. unfold catch. destruct (func s) as [[?|?|] ?]; cbn;
        try discriminate. by intros [= _ <-]. }
    apply bind_Ok in H as ([] & s2 & Ei & H).
    apply bind_Ok in H as ([] & s3 & Es & H). injection Es as <-.
    apply (IH _ Unbound) in H; [done|].
    destruct (frame_init_clients J Jc s1 Hs1') as [Hs2 _].
    by rewrite Ei in Hs2.
  - injection H as <- <-. apply catch_Ok_inr in E. eauto.
Qed.

(** Where the node is a search item in the cache with a live status, the
    two status methods answer from the cache. *)
Lemma status_of_cached_item fuel (s : state W) node_id n :
  cached_nodes (self s) !! node_id = Some (Item n) ->
  is_running fuel node_id s
  = (Ok (String.eqb (status (doc n)) "running"), s)
  /\ is_terminated fuel node_id s
     = (Ok (negb (bool_decide
                    (status (doc n) ∈ ["running"; "starting"; "pending"]))),
        s).
Proof.
  intros Hc. unfold is_running, is_terminated. rewrite !log_in_out_eq.
  unfold _get_cached_node, bind, get_self. by rewrite Hc.
Qed.

(** The ids of a listing are cached as eligible items. *)
Lemma listing_Ok_cached fuel tag_filters (s : state W) node_ids s' node_id :
  non_terminated_nodes fuel tag_filters s = (Ok node_ids, s') ->
  node_id ∈ node_ids ->
  exists n,
    cached_nodes (self s') !! node_id = Some (Item n)
    /\ resource_id n = node_id
    /\ eligible (self s') n.
Proof.
  intros H Hin. destruct fuel as [|fuel]; [discriminate|].
  cbn [non_terminated_nodes] in H. rewrite log_in_out_eq in H.
  apply (retry_on_except_Ok (same_settings (self s))) in H
    as (s0 & Hs0 & H); [|done|apply settings_body|apply same_settings_refl].
  pose proof (body_Ok _ _ _ _ _ _ H _ Hin) as (n & Hc & Hid & Hel).
  assert (same_settings (self s) (self s')) as Hs'.
  { destruct (settings_body (self s) (S fuel)
                (delete_node_with
                   (get_node_with (non_terminated_nodes fuel) (S fuel)))
                tag_filters s0 Hs0) as [Hk _].
    by rewrite H in Hk. }
  exists n. split; [done|]. split; [done|].
  apply (eligible_same_settings (self s)); [done|].
  apply (eligible_same_settings (self s0)); [by apply same_settings_sym|done].
Qed.

(** X5.  Every id that [non_terminated_nodes] returns is, in the state it
    ends in, the key of a search item of that id in the cached nodes; the
    id is not among the deleted ids, the status of the item is pending,
    starting or running, and when its name is that of a head node it
    carries a non-empty list of floating ips.  So, right after the
    listing, [is_terminated] answers [False] for every listed id and
    [is_running] answers by the status, both from the cache: they leave
    the state as it is. *)
Theorem listed_nodes_are_cached_and_live fuel tag_filters (s : state W)
    node_ids s' node_id :
  non_terminated_nodes fuel tag_filters s = (Ok node_ids, s') ->
  node_id ∈ node_ids ->
  exists n,
    cached_nodes (self s') !! node_id = Some (Item n)
    /\ resource_id n = node_id
    /\ eligible (self s') n
    /\ forall fuel',
         is_terminated fuel' node_id s' = (Ok false, s')
         /\ is_running fuel' node_id s'
            = (Ok (String.eqb (status (doc n)) "running"), s').
Proof.
  intros H Hin.
  destruct (listing_Ok_cached _ _ _ _ _ _ H Hin) as (n & Hc & Hid & Hel).
  exists n. split; [done|]. split; [done|]. split; [done|].
  intros fuel'. split.
  - destruct (status_of_cached_item fuel' s' node_id n Hc) as [_ ->].
    destruct Hel as (_ & Hst & _). f_equal. f_equal.
    apply negb_false_iff, bool_decide_eq_true.
    set_unfold. tauto.
  - by destruct (status_of_cached_item fuel' s' node_id n Hc) as [-> _].
Qed.

(** X6.  A head node that [non_terminated_nodes] has listed has an
    external address: right after the listing [external_ip] returns the
    address of the first floating ip of the cached item, with hybrid
    addresses or without, and leaves the state as it is. *)
Theorem listed_head_node_has_an_external_ip fuel tag_filters (s : state W)
    node_ids s' node_id :
  non_terminated_nodes fuel tag_filters s = (Ok node_ids, s') ->
  node_id ∈ node_ids ->
  exists n,
    cached_nodes (self s') !! node_id = Some (Item n)
    /\ (_get_node_type (self s') (name n) = Some "head" ->
        exists ip ips,
          floating_ips n = Some (ip :: ips)
          /\ forall fuel',
               external_ip fuel' node_id s'
               = (Ok (Some (fip_address ip)), s')).
Proof.
  intros H Hin.
  destruct (listing_Ok_cached _ _ _ _ _ _ H Hin)
    as (n & Hc & Hid & _ & _ & Hfip).
  exists n. split; [done|]. intros Hhead.
  destruct (Hfip Hhead) as (ip & ips & Hips). exists ip, ips.
  split; [done|]. intros fuel'.
  unfold external_ip. rewrite log_in_out_eq. unfold bind at 1, get_self.
  destruct (use_hybrid_ips (self s')).
  - unfold _get_hybrid_ip. unfold bind at 1, _get_cached_node.
    unfold bind at 1, get_self. rewrite Hc. cbn [ret].
    unfold bind at 1, get_self. cbn [node_name]. rewrite Hhead.
    rewrite bool_decide_eq_true_2 by done.
    cbn [node_get_floating_ips]. by rewrite Hips.
  - unfold bind at 1, _get_cached_node. unfold bind at 1, get_self.
    rewrite Hc. cbn [ret node_get_floating_ips]. by rewrite Hips.
Qed.

End listing.

(** ** The search query *)

Section query.
Context {W : Type} {B : Backend W}.

Lemma append_nil (b : string) : "" +:+ b = b.
Proof. reflexivity. Qed.

Lemma append_cons c (a b : string) : String c a +:+ b = String c (a +:+ b).
Proof. reflexivity. Qed.

Lemma prefix_nil s : String.prefix "" s = true.
Proof. by destruct s. Qed.

Lemma prefix_cons c x s :
  String.prefix (String c x) (String c s) = String.prefix x s.
Proof. cbn. by destruct (Ascii.ascii_dec c c). Qed.

Lemma prefix_app a b : String.prefix a (a +:+ b) = true.
Proof.
  induction a as [|c a IH]; [apply prefix_nil|].
  by rewrite append_cons, prefix_cons.
Qed.

Lemma prefix_app_l x a b :
  String.prefix x a = true -> String.prefix x (a +:+ b) = true.
Proof.
  revert a. induction x as [|c x IH]; intros a; [intros _; apply prefix_nil|].
  destruct a as [|c' a]; [done|]. rewrite append_cons. cbn [String.prefix].
  destruct (Ascii.ascii_dec c c'); [apply IH | done].
Qed.

Lemma contains_prefix x s : String.prefix x s = true -> contains x s = true.
Proof. intros H. destruct s; cbn [contains]; by rewrite H. Qed.

Lemma contains_app_l x a b :
  contains x a = true -> contains x (a +:+ b) = true.
Proof.
  induction a as [|c a IH].
  - cbn [contains]. rewrite orb_false_r. intros H. apply contains_prefix.
    by apply (prefix_app_l x "" b).
  - rewrite append_cons. cbn [contains].
    intros [H|H]%orb_true_iff; apply orb_true_iff.
    + left. by apply (prefix_app_l x (String c a) b).
    + right. by apply IH.
Qed.

Lemma contains_app_r x a b :
  contains x b = true -> contains x (a +:+ b) = true.
Proof.
  intros H. induction a as [|c a IH]; [done|].
  rewrite append_cons. cbn [contains]. apply orb_true_iff. by right.
Qed.

Lemma append_assoc (a b c : string) : (a +:+ b) +:+ c = a +:+ (b +:+ c).
Proof.
  induction a as [|x a IH]; [done|]. by rewrite !append_cons, IH.
Qed.

(** *** Sorting the filters *)

Lemma leb_trans a b c :
  String.leb a b = true -> String.leb b c = true -> String.leb a c = true.
Proof.
  unfold String.leb.
  destruct (String.compare a b) eqn:Hab; [|
    |discriminate]; intros _;
    destruct (String.compare b c) eqn:Hbc; try discriminate; intros _.
  - apply String.compare_eq_iff in Hab, Hbc. subst.
    pose proof (proj2 (OrderedTypeEx.String_as_OT.cmp_eq c c) eq_refl) as Hcc.
    unfold OrderedTypeEx.String_as_OT.cmp in Hcc. by rewrite Hcc.
  - apply String.compare_eq_iff in Hab. subst. by rewrite Hbc.
  - apply String.compare_eq_iff in Hbc. subst. by rewrite Hab.
  - apply OrderedTypeEx.String_as_OT.cmp_lt in Hab, Hbc.
    pose proof (OrderedTypeEx.String_as_OT.lt_trans _ _ _ Hab Hbc) as Hac.
    apply OrderedTypeEx.String_as_OT.cmp_lt in Hac.
    unfold OrderedTypeEx.String_as_OT.cmp in Hac. by rewrite Hac.
Qed.

Lemma item_le_total a b : item_le a b \/ item_le b a.
Proof.
  unfold item_le, item_leb. destruct (String.eqb_spec a.1 b.1) as [Heq|Hne].
  - rewrite Heq, String.eqb_refl. apply String.leb_total.
  - destruct (String.eqb_spec b.1 a.1); [congruence|]. apply String.leb_total.
Qed.

Lemma item_le_antisym : AntiSymm eq item_le.
Proof.
  intros [k1 v1] [k2 v2]. unfold item_le, item_leb. cbn.
  destruct (String.eqb_spec k1 k2) as [->|Hne].
  - rewrite String.eqb_refl. intros H1 H2.
    by rewrite (String.leb_antisym _ _ H1 H2).
  - destruct (String.eqb_spec k2 k1); [congruence|]. intros H1 H2.
    by destruct Hne; apply String.leb_antisym.
Qed.

Lemma item_le_trans : Transitive item_le.
Proof.
  intros [k1 v1] [k2 v2] [k3 v3]. unfold item_le, item_leb. cbn.
  destruct (String.eqb_spec k1 k2) as [->|H12];
    destruct (String.eqb_spec k2 k3) as [->|H23]; intros Ha Hb.
  - by eapply leb_trans.
  - done.
  - destruct (String.eqb_spec k1 k3); [congruence | done].
  - destruct (String.eqb_spec k1 k3) as [->|H13].
    + destruct H12. by apply String.leb_antisym.
    + by eapply leb_trans.
Qed.

Lemma insert_item_perm x l : insert_item x l ≡ₚ x :: l.
Proof.
  induction l as [|y l IH]; cbn [insert_item]; [done|].
  destruct (item_leb x y); [done|]. rewrite IH. apply Permutation_swap.
Qed.

Lemma sorted_items_perm l : sorted_items l ≡ₚ l.
Proof.
  induction l as [|x l IH]; cbn; [done|].
  fold (sorted_items l). by rewrite insert_item_perm, IH.
Qed.

Lemma insert_item_Sorted x l :
  Sorted item_le l -> Sorted item_le (insert_item x l).
Proof.
  induction l as [|y l IH]; cbn [insert_item]; intros Hl.
  { repeat constructor. }
  destruct (item_leb x y) eqn:Hxy.
  - constructor; [done|]. by constructor.
  - apply Sorted_inv in Hl as [Hl Hy]. constructor; [by apply IH|].
    assert (item_le y x) as Hyx.
    { destruct (item_le_total x y) as [H|H]; [|done].
      unfold item_le in H. congruence. }
    destruct l as [|z l]; cbn [insert_item]; [by constructor|].
    destruct (item_leb x z); constructor; [done|].
    by apply HdRel_inv in Hy.
Qed.

Lemma sorted_items_Sorted l : Sorted item_le (sorted_items l).
Proof.
  induction l as [|x l IH]; cbn; [constructor|].
  fold (sorted_items l). by apply insert_item_Sorted.
Qed.

(** X7.  The query depends on the tag filters as a dictionary, not on
    the order in which the dictionary lists them: two lists of the same
    filters give the same query. *)
Theorem build_query_ignores_the_order p tag_filters tag_filters' :
  tag_filters ≡ₚ tag_filters' ->
  build_query p tag_filters = build_query p tag_filters'.
Proof.
  intros Hp. unfold build_query. f_equal.
  apply (@Sorted_unique _ item_le item_le_trans item_le_antisym);
    [apply sorted_items_Sorted..|].
  by rewrite !sorted_items_perm.
Qed.

(** Every filter is a tag of the query. *)
Lemma build_query_contains p tag_filters k v :
  (k, v) ∈ tag_filters ->
  contains (k +:+ ":" +:+ v) (build_query p tag_filters) = true.
Proof.
  intros Hin. unfold build_query.
  rewrite <- (sorted_items_perm tag_filters) in Hin.
  generalize ("tags:" +:+ dquote +:+ TAG_RAY_CLUSTER_NAME +:+ ":"
                +:+ cluster_name p +:+ dquote).
  induction (sorted_items tag_filters) as [|kv l IH]; intros q; cbn [fold_left].
  { by apply elem_of_nil in Hin. }
  apply elem_of_cons in Hin as [<-|Hin]; [|by apply IH].
  assert (forall l q, contains (k +:+ ":" +:+ v) q = true ->
            contains (k +:+ ":" +:+ v)
              (fold_left
                 (fun query kv =>
                    query +:+ " AND tags:" +:+ dquote +:+ kv.1 +:+ ":"
                      +:+ kv.2 +:+ dquote) l q) = true) as Hmono.
  { clear. induction l as [|kv l IH]; intros q Hq; cbn [fold_left]; [done|].
    by apply IH, contains_app_l. }
  apply Hmono. cbn [fst snd].
  do 3 apply contains_app_r.
  replace (k +:+ ":" +:+ v +:+ dquote) with ((k +:+ ":" +:+ v) +:+ dquote)
    by (by rewrite !append_assoc).
  apply contains_prefix, prefix_app.
Qed.

(** With both tags in the query no iteration ends in [continue]. *)
Lemma nt_iteration_breaks query v (s : state W) v' c s' :
  contains "ray-node-status:uninitialized" query = true ->
  contains "ray-node-type:head" query = true ->
  nt_iteration query v s = (Ok (v', c), s') -> c = Break.
Proof.
  intros H1 H2. unfold nt_iteration. rewrite H1, H2. cbn [andb]. intros H.
  do 5 bind_inv H. destruct (negb _).
  - by injection H as _ <-.
  - bind_inv H. by injection H as _ <-.
Qed.


End query.

Section pending.
Context {W : Type} {B : Backend W}.

Lemma by_resource_id_lookup nodes id n :
  by_resource_id nodes !! id = Some n -> n ∈ nodes /\ resource_id n = id.
Proof.
  unfold by_resource_id.
  assert (forall m : gmap string item,
            fold_left (fun m n => <[resource_id n := n]> m) nodes m !! id
            = Some n ->
            (n ∈ nodes /\ resource_id n = id) \/ m !! id = Some n) as H.
  { induction nodes as [|x nodes IH]; intros m; cbn [fold_left]; [by right|].
    intros Hl. apply IH in Hl as [[Hin Hid]|Hl].
    - left. split; [by apply elem_of_cons; right | done].
    - destruct (decide (resource_id x = id)) as [Heq|Hne].
      + rewrite <- Heq, lookup_insert_eq in Hl. injection Hl as <-.
        left. split; [by apply elem_of_cons; left | done].
      + rewrite lookup_insert_ne in Hl by done. by right. }
  intros Hl. apply H in Hl as [|Hl]; [done|]. by rewrite lookup_empty in Hl.
Qed.

Lemma keys_pop k (d : list (string * instance)) id :
  id ∈ odict.keys (odict.pop k d) -> id ∈ odict.keys d.
Proof.
  unfold odict.keys. induction d as [|[k' v] d IH]; cbn; [done|].
  destruct (String.eqb k k'); cbn.
  - intros H. by apply elem_of_cons; right.
  - intros [->|H]%elem_of_cons; apply elem_of_cons; [by left|].
    right. by apply IH.
Qed.

(** The merge of the pending nodes only takes ids out of the pending
    dictionary. *)
Lemma merge_pending_keys _delete_node found pend_ids node_ids (s : state W)
    l s' id :
  merge_pending _delete_node found pend_ids node_ids s = (Ok l, s') ->
  id ∈ odict.keys (pending_nodes (self s')) ->
  id ∈ odict.keys (pending_nodes (self s)).
Proof.
  revert s. induction pend_ids as [|pend_id pend_ids IH]; intros s;
    cbn [merge_pending].
  { by intros [= _ <-]. }
  destruct (found !! pend_id) as [n|] eqn:Hf.
  - intros H Hin. bind_inv H. specialize (IH _ H Hin).
    destruct (String.eqb _ _); injection E as _ <-; [|done].
    cbn in IH. by eapply keys_pop.
  - intros H. do 4 bind_inv H. discriminate.
Qed.

(** The loop and the pruning leave the pending dictionary alone. *)
Lemma pending_nt_while (d : list (string * instance)) fuel query v :
  keeps (on_self (W := W) (fun p => pending_nodes p = d))
    (nt_while fuel query v) (fun _ => True).
Proof. by apply frame_nt_while. Qed.

Lemma pending_prune_missing (d : list (string * instance)) query missing :
  keeps (on_self (W := W) (fun p => pending_nodes p = d))
    (prune_missing query missing) (fun _ => True).
Proof. by apply frame_prune_missing. Qed.

Lemma body_Ok_pending fuel _delete_node tag_filters (s : state W) node_ids s'
    pend_id :
  non_terminated_nodes_body fuel _delete_node tag_filters s
  = (Ok node_ids, s') ->
  pend_id ∈ odict.keys (pending_nodes (self s')) ->
  pend_id ∈ odict.keys (pending_nodes (self s)) /\ pend_id ∈ node_ids.
Proof.
  unfold non_terminated_nodes_body. intros H Hin.
  apply bind_Ok in H as (p & s1 & E & H). injection E as <- <-.
  apply bind_Ok in H as (v & s2 & Ew & H).
  apply bind_Ok in H as ([] & s3 & Ep & H).
  apply bind_Ok in H as ([] & s4 & Em & H). injection Em as <-.
  apply bind_Ok in H as (q & s5 & E & H). injection E as <- <-.
  pose proof (merge_pending_keys _ _ _ _ _ _ _ _ H Hin) as Hin4.
  apply merge_pending_Ok in H as (-> & _ & Hall).
  destruct (eligible_nt_while (self s) fuel (build_query (self s) tag_filters)
              nt_start) with (s := s) as [_ Hv].
  { split; [constructor | done]. }
  { apply same_settings_refl. }
  rewrite Ew in Hv. destruct (Hv v eq_refl) as [_ Hfound].
  destruct (pending_nt_while (pending_nodes (self s)) fuel
              (build_query (self s) tag_filters) nt_start s eq_refl)
    as [Hp2 _].
  rewrite Ew in Hp2.
  destruct (pending_prune_missing (pending_nodes (self s))
              (build_query (self s) tag_filters) (missing_nodes v) s2 Hp2)
    as [Hp3 _].
  rewrite Ep in Hp3. unfold on_self in Hp2, Hp3. cbn in Hp3, Hin4, Hall.
  rewrite Hp3 in Hin4, Hall. split; [done|].
  rewrite Forall_forall in Hall. destruct (Hall _ Hin4) as [n Hn].
  rewrite Hfound in Hn. apply by_resource_id_lookup in Hn as [Hn <-].
  apply list_elem_of_fmap. eauto.
Qed.

(** X9.  A listing returns only when the search has found every node
    that is pending: each id that is in the pending dictionary when
    [non_terminated_nodes] returns is in the list it returns, and the cached
    node of that id is the item of the search, not the instance record of
    the pending dictionary.  (A pending id that the search does not find
    makes the listing raise.) *)
Theorem pending_ids_left_by_a_listing_are_listed fuel tag_filters
    (s : state W) node_ids s' pend_id :
  non_terminated_nodes fuel tag_filters s = (Ok node_ids, s') ->
  pend_id ∈ odict.keys (pending_nodes (self s')) ->
  pend_id ∈ node_ids
  /\ exists n, cached_nodes (self s') !! pend_id = Some (Item n)
               /\ resource_id n = pend_id.
Proof.
  intros H Hin. destruct fuel as [|fuel]; [discriminate|].
  cbn [non_terminated_nodes] in H. rewrite log_in_out_eq in H.
  apply (retry_on_except_Ok (fun _ => True)) in H as (s0 & _ & H); try done.
  destruct (body_Ok_pending _ _ _ _ _ _ _ H Hin) as [_ Hl].
  split; [done|].
  destruct (body_Ok _ _ _ _ _ _ H _ Hl) as (n & Hc & Hid & _). eauto.
Qed.

End pending.

(** ** Terminating nodes *)

Section terminating.
Context {W : Type} {B : Backend W}.

Lemma masked_delete_node id fuel resource_id :
  keeps (masked_in (W := W) id) (_delete_node fuel resource_id) (fun _ => True).
Proof.
  apply (frame_delete_node_with (masked id)). intros node_id.
  apply (frame_get_node_with (masked id)); [by intros v t x p Hp|].
  intros tf s Hs. split; [|done].
  exact (proj1 (masked_non_terminated_nodes id fuel tf s Hs)).
Qed.

(** Terminating a node leaves the nodes terminated before masked. *)
Lemma masked_terminate_node id fuel node_id :
  keeps (masked_in (W := W) id) (terminate_node fuel node_id) (fun _ => True).
Proof.
  apply keeps_log_in_out.
  eapply keeps_bind.
  { apply keeps_catch_api. instantiate (1 := fun _ => True).
    eapply keeps_bind; [apply (keeps_get_self (masked id))|]. intros p _.
    eapply keeps_bind.
    { instantiate (1 := fun _ => True).
      destruct (cache_stopped_nodes p);
        [apply (keeps_call (masked id)) | apply masked_delete_node]. }
    intros _ _.
    eapply keeps_bind.
    { apply (keeps_modify_self (masked id)). intros q [Hd Hc]. split; [|done].
      cbn. apply elem_of_app. by left. }
    intros _ _.
    eapply keeps_bind.
    { apply (keeps_modify_self (masked id)). intros q Hq. exact Hq. }
    intros _ _.
    apply (keeps_modify_self (masked id)). intros q [Hd Hc]. split; [done|].
    cbn. rewrite lookup_delete. by case_decide. }
  intros [e|u] _; [|by apply keeps_ret].
  destruct e; try apply keeps_raise.
  destruct (Z.eqb _ _); [by apply keeps_ret | apply keeps_raise].
Qed.

(** Terminating a node does not change the mode of the provider. *)
Lemma mode_terminate_node (b : bool) fuel node_id :
  keeps (on_self (W := W) (fun p => cache_stopped_nodes p = b))
    (terminate_node fuel node_id) (fun _ => True).
Proof.
  apply frame_terminate_node; try done.
  intros fuel' tf. by apply frame_non_terminated_nodes.
Qed.

Lemma masked_submit_terminate_node id fuel node_ids :
  keeps (masked_in (W := W) id) (submit_terminate_node fuel node_ids)
    (fun _ => True).
Proof.
  induction node_ids as [|node_id node_ids IH]; cbn [submit_terminate_node];
    [by apply keeps_ret|].
  eapply keeps_bind; [apply keeps_catch, masked_terminate_node|]. intros r _.
  eapply keeps_bind; [apply IH|]. intros futures _. by apply keeps_ret.
Qed.

Lemma collect_terminated_Ok futures (s : state W) s' :
  collect_terminated futures s = (Ok tt, s') ->
  s' = s /\ Forall (fun r => r = inr tt) futures.
Proof.
  induction futures as [|[e|[]] futures IH]; cbn [collect_terminated].
  - by intros [= <-].
  - discriminate.
  - intros H. apply IH in H as [-> H]. split; [done|]. by constructor.
Qed.

Lemma submit_terminate_node_Ok fuel node_ids (s : state W) futures s' :
  cache_stopped_nodes (self s) = false ->
  submit_terminate_node fuel node_ids s = (Ok futures, s') ->
  Forall (fun r => r = inr tt) futures ->
  forall id, id ∈ node_ids -> masked id (self s').
Proof.
  revert s futures. induction node_ids as [|node_id node_ids IH];
    intros s futures Hmode; cbn [submit_terminate_node].
  { intros _ _ id Hid. by apply elem_of_nil in Hid. }
  intros H Hall. apply bind_Ok in H as (r & s1 & Et & H).
  apply bind_Ok in H as (futures' & s2 & Es & H). injection H as <- <-.
  apply Forall_cons in Hall as [-> Hall]. apply catch_Ok_inr in Et.
  assert (cache_stopped_nodes (self s1) = false) as Hmode1.
  { destruct (mode_terminate_node false fuel node_id s Hmode) as [Hk _].
    by rewrite Et in Hk. }
  intros id [->|Hid]%elem_of_cons; [|by eapply IH].
  apply terminate_node_purges in Et as [Hm _]; [|by rewrite Hmode].
  destruct (masked_submit_terminate_node node_id fuel node_ids s1 Hm)
    as [Hk _].
  by rewrite Es in Hk.
Qed.

(** X10.  A provider that deletes its nodes (it does not keep stopped
    nodes for reuse) and is asked to terminate a batch: when
    [terminate_nodes] returns, every id of the batch is among the deleted
    ids and out of the cached nodes, whether its instance was deleted or the
    service answered that it was not found.  An empty batch changes
    nothing. *)
Theorem terminate_nodes_masks_the_batch fuel node_ids (s : state W) s' :
  cache_stopped_nodes (self s) = false ->
  terminate_nodes fuel node_ids s = (Ok tt, s') ->
  (node_ids = [] -> s' = s)
  /\ forall id, id ∈ node_ids -> masked id (self s').
Proof.
  intros Hmode. unfold terminate_nodes. rewrite log_in_out_eq.
  destruct node_ids as [|node_id node_ids].
  { intros [= <-]. split; [done|]. intros id Hid. by apply elem_of_nil in Hid. }
  intros H. split; [done|].
  apply bind_Ok in H as ([] & s1 & Ex & H).
  assert (s1 = s) as ->.
  { revert Ex. unfold thread_pool_executor. destruct (Z.leb _ _);
      [discriminate | by intros [= <-]]. }
  apply bind_Ok in H as (futures & s2 & Es & H).
  apply collect_terminated_Ok in H as [-> Hall].
  by eapply submit_terminate_node_Ok.
Qed.

(** X11.  A node that the service does not find is not an error for
    [terminate_node]: it never raises the [ApiException] 404; and where the
    provider stops its nodes and the stop is answered with 404,
    [terminate_node] returns and leaves the provider as it was, so the id
    does not get among the deleted ids. *)
Theorem terminate_node_not_found fuel node_id (s : state W) :
  (forall code message s',
     terminate_node fuel node_id s = (Raise (ApiException code message), s') ->
     code <> 404%Z)
  /\ (forall message w',
        cache_stopped_nodes (self s) = true ->
        create_instance_action (ibm_vpc_client (self s)) node_id "stop"
          (world s)
        = (Failure (ApiException 404 message), w') ->
        terminate_node fuel node_id s = (Ok tt, State w' (self s))).
Proof.
  split.
  - intros code message s'. unfold terminate_node. rewrite log_in_out_eq.
    unfold bind at 1.
    destruct (catch_api _ s) as [[[e|u]| e |] s1] eqn:E; try discriminate.
    + apply catch_api_Ok_inl in E as [_ E].
      destruct e as [c msg| | | | | | | | |]; try discriminate.
      destruct (Z.eqb_spec c 404); [discriminate|]. by intros [= <- <- <-].
    + apply catch_api_Raise in E. intros [= -> <-]. discriminate.
  - intros message w' Hmode Hstop. unfold terminate_node.
    rewrite log_in_out_eq. unfold bind at 1, catch_api.
    unfold bind at 1, get_self. rewrite Hmode. unfold bind at 1, call.
    by rewrite Hstop.
Qed.

End terminating.

(** ** Creating nodes *)

Section creating.
Context {W : Type} {B : Backend W}.

(** The loop of [_wait_running] returns in the state of a query that
    found the instance running, or at once. *)
Lemma wait_running_loop_Ok (_delete_node : string -> M W unit) fuel start
    instance_id instance (s : state W) s' :
  wait_running_loop _delete_node fuel start instance_id instance s
  = (Ok tt, s') ->
  self s' = self s
  /\ ((inst_status instance = "running" /\ s' = s)
      \/ exists h w i,
           get_instance h instance_id w = (Success i, world s')
           /\ inst_status i = "running").
Proof.
  revert instance s. induction fuel as [|fuel IH]; intros instance s;
    cbn [wait_running_loop]; [discriminate|].
  destruct (String.eqb_spec (inst_status instance) "running") as [Hr|Hr];
    cbn [negb].
  { intros [= <-]. split; [done|]. by left. }
  intros H. apply bind_Ok in H as ([] & s1 & Es & H). injection Es as <-.
  apply bind_Ok in H as (p & s2 & Ep & H). injection Ep as <- <-.
  apply bind_Ok in H as (i & s3 & Ec & H).
  apply bind_Ok in H as (t & s4 & Et & H). injection Et as <- <-.
  destruct (Z.ltb _ _).
  { bind_inv H. discriminate. }
  apply call_Ok in Ec as [Hc Hself].
  apply IH in H as [Hs' Hi]. split; [by rewrite Hs', Hself|].
  right. destruct Hi as [[Hi ->]|Hi]; [|done]. eauto.
Qed.

Lemma wait_running_with_Ok (_delete_node : string -> M W unit) fuel
    instance_id (s : state W) s' :
  wait_running_with _delete_node fuel instance_id s = (Ok tt, s') ->
  self s' = self s
  /\ exists h w i,
       get_instance h instance_id w = (Success i, world s')
       /\ inst_status i = "running".
Proof.
  unfold wait_running_with. intros H.
  apply bind_Ok in H as (start & s1 & Et & H). injection Et as <- <-.
  apply bind_Ok in H as (p & s2 & Ep & H). injection Ep as <- <-.
  apply bind_Ok in H as (i & s3 & Ec & H).
  apply call_Ok in Ec as [Hc Hself].
  apply wait_running_loop_Ok in H as [Hs' Hi]. split; [by rewrite Hs', Hself|].
  destruct Hi as [[Hi ->]|Hi]; [|done]. eauto.
Qed.

(** X12.  [_wait_running] returns only on an answer of [get_instance]
    that reports the instance running: it ends in the state of that answer
    and leaves the provider object as it was.  When the first answer
    reports the instance running it returns at once, without sleeping. *)
Theorem wait_running_returns_when_running fuel instance_id (s : state W) :
  (forall s',
     _wait_running fuel instance_id s = (Ok tt, s') ->
     self s' = self s
     /\ exists h w i,
          get_instance h instance_id w = (Success i, world s')
          /\ inst_status i = "running")
  /\ (forall i w,
        get_instance (ibm_vpc_client (self s)) instance_id (world s)
        = (Success i, w) ->
        inst_status i = "running" ->
        _wait_running (S fuel) instance_id s = (Ok tt, State w (self s))).
Proof.
  split; [apply wait_running_with_Ok|].
  intros i w Hc Hr. unfold _wait_running, wait_running_with.
  unfold bind at 1, now.
  unfold bind at 1, get_self. unfold bind at 1, call. rewrite Hc.
  cbn [wait_running_loop]. by rewrite Hr.
Qed.

(** The calls of the VPC client leave the provider object alone. *)
Lemma get_instance_data_self name (s : state W) r s' :
  _get_instance_data name s = (Ok r, s') -> self s' = self s.
Proof.
  unfold _get_instance_data. intros H. do 2 bind_inv H.
  injection E as <- <-. apply call_Ok in E0 as [_ Hs].
  by destruct a0; injection H as _ <-.
Qed.

Lemma subscript_Ok {A} key (o : option A) (s : state W) a s' :
  subscript key o s = (Ok a, s') -> o = Some a /\ s' = s.
Proof. destruct o; cbn; [by intros [= <- <-] | discriminate]. Qed.

Lemma instance_prototype_of_Ok p name cfg (s : state W) proto s' :
  instance_prototype_of p name cfg s = (Ok proto, s') ->
  s' = s /\ proto_name proto = name.
Proof.
  unfold instance_prototype_of. intros H.
  repeat (let E := fresh "E" in
          apply bind_Ok in H as (? & ? & E & H);
          apply subscript_Ok in E as [_ ->]).
  by injection H as <- <-.
Qed.

Lemma create_instance_self name cfg (s : state W) r s' :
  _create_instance name cfg s = (Ok r, s') -> self s' = self s.
Proof.
  unfold _create_instance. intros H.
  apply bind_Ok in H as (p & s1 & Ep & H). injection Ep as <- <-.
  apply bind_Ok in H as (proto & s2 & Eproto & H).
  apply instance_prototype_of_Ok in Eproto as [-> _].
  apply bind_Ok in H as (r0 & s3 & Ec & H).
  destruct r0 as [e|resp].
  - apply catch_api_Ok_inl in Ec as [Ec _].
    assert (self s3 = self s) as Hs3.
    { revert Ec. unfold call. destruct (create_instance _ _ _) as [[?|?] ?];
        [discriminate|]. by intros [= _ <-]. }
    destruct e; try discriminate.
    destruct (_ && _); [|destruct (_ && _); discriminate].
    apply get_instance_data_self in H. congruence.
  - apply catch_api_Ok_inr, call_Ok in Ec as [_ Hs]. by injection H as _ <-.
Qed.

Lemma new_floating_ip_self cfg (s : state W) r s' :
  new_floating_ip cfg s = (Ok r, s') -> self s' = self s.
Proof.
  unfold new_floating_ip. intros H.
  apply bind_Ok in H as (hex & s1 & Eu & H).
  assert (self s1 = self s) as Hs1.
  { revert Eu. unfold uuid4. destruct (uuid4_hex _). by intros [= _ <-]. }
  apply bind_Ok in H as (p & s2 & Ep & H). injection Ep as <- <-.
  apply bind_Ok in H as (z & s3 & Ez & H). apply subscript_Ok in Ez as [_ ->].
  apply bind_Ok in H as (g & s4 & Eg & H). apply subscript_Ok in Eg as [_ ->].
  apply call_Ok in H as [_ Hs]. congruence.
Qed.

Lemma create_floating_ip_self cfg (s : state W) r s' :
  _create_floating_ip cfg s = (Ok r, s') -> self s' = self s.
Proof.
  unfold _create_floating_ip.
  destruct (head_ip cfg) as [[|c rest]|]; try apply new_floating_ip_self.
  intros H. apply bind_Ok in H as (p & s1 & Ep & H). injection Ep as <- <-.
  apply bind_Ok in H as (ips & s2 & Ec & H). apply call_Ok in Ec as [_ Hs].
  destruct (find_address _ _).
  - by injection H as _ <-.
  - apply new_floating_ip_self in H. congruence.
Qed.

Lemma attach_floating_ip_self instance fip (s : state W) r s' :
  _attach_floating_ip instance fip s = (Ok r, s') -> self s' = self s.
Proof.
  unfold _attach_floating_ip. destruct (_ && _); [by intros [= _ <-]|].
  intros H. apply bind_Ok in H as (n0 & s1 & En & H).
  assert (s1 = s) as ->.
  { destruct (inst_network_interfaces instance); [discriminate|].
    by injection En as _ <-. }
  apply bind_Ok in H as (p & s2 & Ep & H). injection Ep as <- <-.
  by apply call_Ok in H as [_ Hs].
Qed.

Lemma length_append (a b : string) :
  String.length (a +:+ b) = String.length a + String.length b.
Proof.
  induction a as [|c a IH]; [done|]. rewrite append_cons. cbn. by rewrite IH.
Qed.

Lemma length_substring n m s : String.length (String.substring n m s) <= m.
Proof.
  revert n m. induction s as [|c s IH]; intros n m.
  - destruct n, m; cbn; lia.
  - destruct n as [|n]; cbn.
    + destruct m as [|m]; cbn; [lia|]. specialize (IH 0 m). lia.
    + apply IH.
Qed.

(** X13.  When [_create_node] has made its instance: the name of the
    instance is the name tag, a hyphen and the first eight characters of
    the uuid that [uuid4] gave in the state of the call; the tag is of the
    pattern and short enough, and the name is at most 64 characters long;
    the instance is what [_create_instance] returned for that name, right
    after the uuid was drawn; it is in the pending dictionary under its id,
    and nothing else of the provider object has changed; and the VPC
    service has reported the instance running. *)
Theorem created_instance_is_named_and_pending fuel base_config tags
    (s : state W) name instance s' :
  create_node_instance fuel base_config tags s = (Ok (name, instance), s') ->
  (exists name_tag,
     odict.get TAG_RAY_NODE_NAME tags = Some name_tag
     /\ name_tag_matches name_tag = true
     /\ String.length name_tag
        <= INSTANCE_NAME_MAX_LEN - INSTANCE_NAME_UUID_LEN - 1
     /\ name = name_tag +:+ "-"
               +:+ String.substring 0 INSTANCE_NAME_UUID_LEN
                     (uuid4_hex (world s)).1)
  /\ String.length name <= INSTANCE_NAME_MAX_LEN
  /\ (exists s1,
        _create_instance name base_config
          (State (uuid4_hex (world s)).2 (self s))
        = (Ok (Some instance), s1))
  /\ self s'
     = set_pending_nodes
         (odict.set (inst_id instance) instance (pending_nodes (self s)))
         (self s)
  /\ exists h w i,
       get_instance h (inst_id instance) w = (Success i, world s')
       /\ inst_status i = "running".
Proof.
  unfold create_node_instance. intros H.
  apply bind_Ok in H as (name_tag & s1 & En & H).
  apply subscript_Ok in En as [Hn ->].
  destruct (Nat.leb_spec (String.length name_tag)
              (INSTANCE_NAME_MAX_LEN - INSTANCE_NAME_UUID_LEN - 1)) as [Hlen|];
    cbn [andb negb] in H; [|discriminate].
  destruct (name_tag_matches name_tag) eqn:Hm; cbn [negb] in H;
    [|discriminate].
  apply bind_Ok in H as (hex & s2 & Eu & H).
  unfold uuid4 in Eu. destruct (uuid4_hex (world s)) as [h w2] eqn:Eh.
  injection Eu as <- <-. cbn [fst snd].
  apply bind_Ok in H as (created & s3 & Ec & H).
  apply create_instance_self in Ec as Hs3. cbn [self] in Hs3.
  apply bind_Ok in H as (inst & s4 & Ei & H).
  destruct created as [inst'|]; [|discriminate]. injection Ei as <- <-.
  apply bind_Ok in H as ([] & s5 & Em & H). injection Em as <-.
  apply bind_Ok in H as (p & s6 & Ep & H). injection Ep as <- <-.
  apply bind_Ok in H as ([] & s7 & Ef & H).
  assert (self s7
          = set_pending_nodes
              (odict.set (inst_id inst') inst' (pending_nodes (self s3)))
              (self s3)) as Hs7.
  { revert Ef. case_bool_decide; [|by intros [= <-]].
    intros Ef. apply bind_Ok in Ef as (fip & s8 & Ef & Ea).
    apply create_floating_ip_self in Ef. apply attach_floating_ip_self in Ea.
    by rewrite Ea, Ef. }
  apply bind_Ok in H as ([] & s8 & Ew & H). injection H as <- <- <-.
  apply wait_running_with_Ok in Ew as [Hs8 Hrun].
  split; [by exists name_tag|]. split; [|split; [by exists s3|split; [|done]]].
  - rewrite !length_append.
    pose proof (length_substring 0 INSTANCE_NAME_UUID_LEN h).
    unfold INSTANCE_NAME_MAX_LEN, INSTANCE_NAME_UUID_LEN in *. cbn in *. lia.
  - rewrite Hs8, Hs7, Hs3. done.
Qed.

End creating.

Section reuse.
Context {W : Type} {B : Backend W}.

Lemma stopped_run_sublist h (w : W) items kept w' :
  stopped_run h w items kept w' -> kept `sublist_of` items.
Proof.
  induction 1; [done | by apply sublist_skip | by apply sublist_cons..].
Qed.

(** The loop of [_stopped_nodes] makes the checks of [stopped_run], on the
    VPC client of the provider, from the world it starts in to the world it
    ends in. *)
Lemma filter_stopped_Ok items nodes (s : state W) r s' :
  filter_stopped items nodes s = (Ok r, s') ->
  self s' = self s
  /\ exists kept,
       r = (nodes ++ kept)%list
       /\ stopped_run (ibm_vpc_client (self s)) (world s) items kept (world s').
Proof.
  revert nodes s. induction items as [|node items IH]; intros nodes s;
    cbn [filter_stopped].
  { intros [= <- <-]. split; [done|]. exists [].
    split; [by rewrite app_nil_r | constructor]. }
  intros H. apply bind_Ok in H as (p & s1 & Ep & H). injection Ep as <- <-.
  apply bind_Ok in H as (r0 & s2 & Ec & H).
  destruct r0 as [e|instance].
  - assert (get_instance (ibm_vpc_client (self s)) (resource_id node) (world s)
            = (Failure e, world s2) /\ self s2 = self s) as [Hc Hs2].
    { revert Ec. unfold catch, call.
      destruct (get_instance _ _ _) as [[?|?] ?]; [discriminate|].
      by intros [= <- <-]. }
    apply bind_Ok in H as (nf & s3 & En & H).
    unfold is_instance_not_found in En.
    destruct (exn_message e) as [m|] eqn:Hm; [|discriminate].
    injection En as <- <-.
    destruct (String.eqb_spec m "Instance not found") as [->|]; [|discriminate].
    apply IH in H as (Hs & kept & -> & Hrun).
    split; [congruence|]. exists kept. split; [done|].
    rewrite Hs2 in Hrun. by eapply stopped_run_gone.
  - apply catch_Ok_inr, call_Ok in Ec as [Hc Hs2].
    case_bool_decide as Hst.
    + apply IH in H as (Hs & kept & -> & Hrun).
      split; [congruence|]. exists (node :: kept).
      split; [by rewrite <- app_assoc|].
      rewrite Hs2 in Hrun. by eapply stopped_run_keep.
    + apply IH in H as (Hs & kept & -> & Hrun).
      split; [congruence|]. exists kept. split; [done|].
      rewrite Hs2 in Hrun. by eapply stopped_run_other.
Qed.

(** X14.  The stopped nodes that [create_node] may reuse.  When
    [_stopped_nodes] returns, it has searched with the query that it makes
    of the cluster name and of the node kind and launch configuration of
    [tags], on the search client of the provider in the world of the call;
    or, when that search failed with an [ApiException], on a new search
    client in the world that the failure left, and then the provider
    object has that new client and is otherwise as it was.  From the world
    that the search left it has asked the VPC client of the provider for
    the instance of every item of the answer, in order, and it ends in the
    world that the last question left.  It returns the items whose
    instance was reported stopped or stopping, in the order of the
    answer. *)
Theorem stopped_nodes_are_reported_stopped tags (s : state W) r s' :
  _stopped_nodes tags s = (Ok r, s') ->
  exists query items w1,
    stopped_query (self s) tags s = (Ok query, s)
    /\ ((search (global_search_service (self s)) query None (world s)
         = (Success items, w1)
         /\ self s' = self s)
        \/ (exists e w0,
              search (global_search_service (self s)) query None (world s)
              = (Failure e, w0)
              /\ is_ApiException e = true
              /\ search (S (global_search_service (self s))) query None w0
                 = (Success items, w1)
              /\ self s'
                 = set_clients (ibm_vpc_client (self s))
                     (global_tagging_service (self s))
                     (S (global_search_service (self s))) (self s)))
    /\ stopped_run (ibm_vpc_client (self s)) w1 items r (world s')
    /\ r `sublist_of` items.
Proof.
  unfold _stopped_nodes. intros H.
  apply bind_Ok in H as (p & s1 & Ep & H). injection Ep as <- <-.
  apply bind_Ok in H as (query & s2 & Eq & H).
  assert (s2 = s) as ->.
  { revert Eq. unfold stopped_query. intros Eq.
    apply bind_Ok in Eq as (kind & sa & Ek & Eq).
    apply subscript_Ok in Ek as [_ ->].
    apply bind_Ok in Eq as (launch & sb & El & Eq).
    apply subscript_Ok in El as [_ ->]. by injection Eq as _ <-. }
  apply bind_Ok in H as (r0 & s3 & Es & H).
  apply bind_Ok in H as (items & s4 & Ei & H).
  apply filter_stopped_Ok in H as (Hs' & kept & -> & Hrun).
  exists query, items, (world s4). split; [done|].
  destruct r0 as [e|items'].
  - apply catch_api_Ok_inl in Es as [Es He].
    assert (search (global_search_service (self s)) query None (world s)
            = (Failure e, world s3) /\ self s3 = self s) as [Hc Hs3].
    { revert Es. unfold call.
      destruct (search _ _ _ _) as [[?|?] ?]; [discriminate|].
      by intros [= <- <-]. }
    apply bind_Ok in Ei as ([] & s5 & Em & Ei). injection Em as <-.
    apply bind_Ok in Ei as (q & s6 & Eg & Ei). injection Eg as <- <-.
    apply call_Ok in Ei as [Hc2 Hs4]. cbn [world self] in Hc2, Hs4.
    rewrite Hs3 in Hc2, Hs4. rewrite Hs4 in Hrun, Hs'. cbn in Hrun.
    split; [right; exists e, (world s3); by rewrite Hs'|].
    split; [done | by eapply stopped_run_sublist].
  - injection Ei as <- <-. apply catch_api_Ok_inr, call_Ok in Es as [Hc Hs3].
    rewrite Hs3 in Hrun, Hs'.
    split; [by left|]. split; [done | by eapply stopped_run_sublist].
Qed.

(** A task of [create_node] that succeeds returns one instance. *)
Lemma create_node_task_Ok fuel cfg tags (s : state W) tags' d s' :
  _create_node fuel cfg tags s = (Ok (tags', inr d), s') -> one_instance d.
Proof.
  unfold _create_node. intros H.
  apply bind_Ok in H as (r & s1 & Ec & H).
  destruct r as [e|[name instance]]; [discriminate|].
  apply bind_Ok in H as (p & s2 & Ep & H).
  apply bind_Ok in H as (r & s3 & Ea & H). injection H as _ -> _.
  unfold catch in Ea. unfold bind at 1 in Ea.
  destruct (_global_tagging_with_retries _ _ _ _ _) as [[a|x|] s4];
    [|discriminate..].
  destruct (negb (truthy a)); [discriminate|].
  injection Ea as <- _. by exists instance.
Qed.

Lemma submit_create_node_Ok fuel count cfg tags (s : state W) futures s' :
  submit_create_node fuel count cfg tags s = (Ok futures, s') ->
  length futures = count
  /\ Forall (fun f => forall d, f = inr d -> one_instance d) futures.
Proof.
  revert tags s futures. induction count as [|count IH];
    intros tags s futures; cbn [submit_create_node].
  { by intros [= <- <-]. }
  intros H. apply bind_Ok in H as ([tags' r] & s1 & Et & H).
  apply bind_Ok in H as (futures' & s2 & Es & H). injection H as <- <-.
  apply IH in Es as [Hlen Hall]. split; [cbn; by rewrite Hlen|].
  constructor; [|done]. cbn. intros d ->. by eapply create_node_task_Ok.
Qed.

Lemma collect_created_Ok futures acc (s : state W) r s' :
  collect_created futures acc s = (Ok r, s') ->
  Forall (fun f => forall d, f = inr d -> one_instance d) futures ->
  forall id, (exists i, acc !! id = Some (Instance i) /\ inst_id i = id) ->
             exists i, r !! id = Some (Instance i) /\ inst_id i = id.
Proof.
  revert acc. induction futures as [|[e|d] futures IH]; intros acc;
    cbn [collect_created].
  - by intros [= <- _].
  - discriminate.
  - intros H Hall id Hid. apply Forall_cons in Hall as [Hd Hall].
    apply (IH _ H Hall). destruct (Hd d eq_refl) as [i ->].
    destruct (decide (inst_id i = id)) as [<-|Hne].
    + exists i. split; [|done].
      apply lookup_union_Some_l. by rewrite lookup_singleton_eq.
    + destruct Hid as (i' & Hi' & Hid). exists i'. split; [|done].
      rewrite lookup_union_r; [done|]. by rewrite lookup_singleton_ne.
Qed.

(** X15.  [create_node] returns only when the count is positive, and
    then at least one of the nodes it returns is an instance that it has
    made, under the id of that instance: it never returns reused nodes
    only.  (A request that the reused nodes cover ends in the [ValueError]
    of the thread pool, not in a dictionary.) *)
Theorem create_node_makes_an_instance fuel cfg tags count (s : state W) d s' :
  create_node fuel cfg tags count s = (Ok d, s') ->
  (0 < count)%Z
  /\ exists id i, d !! id = Some (Instance i) /\ inst_id i = id.
Proof.
  unfold create_node. rewrite log_in_out_eq. intros H.
  apply bind_Ok in H as (p & s1 & Ep & H). injection Ep as <- <-.
  apply bind_Ok in H as ([stopped count'] & s2 & Er & H). cbn [fst snd] in H.
  assert (count' <= count)%Z as Hle.
  { destruct (cache_stopped_nodes (self s)); [|injection Er as _ <- _; lia].
    do 4 bind_inv Er. injection Er as _ <- _. lia. }
  apply bind_Ok in H as ([] & s3 & Ex & H).
  assert (0 < count')%Z as Hpos.
  { revert Ex. unfold thread_pool_executor.
    destruct (Z.leb_spec count' 0); [discriminate | done]. }
  split; [lia|].
  apply bind_Ok in H as (futures & s4 & Es & H).
  apply bind_Ok in H as (created & s5 & Ec & H). injection H as <- <-.
  apply submit_create_node_Ok in Es as [Hlen Hall].
  destruct futures as [|[e|d1] futures]; [cbn in Hlen; lia|discriminate|].
  cbn [collect_created] in Ec.
  apply Forall_cons in Hall as [Hd Hall]. destruct (Hd d1 eq_refl) as [i ->].
  destruct (collect_created_Ok _ _ _ _ _ Ec Hall (inst_id i))
    as (i' & Hi' & Hid).
  { exists i. split; [|done].
    apply lookup_union_Some_l. by rewrite lookup_singleton_eq. }
  exists (inst_id i), i'. split; [by apply lookup_union_Some_l | done].
Qed.

End reuse.

(** ** Tags as a dictionary *)

Section tags_dict.
Context {W : Type} {B : Backend W}.

Lemma colon_free_cons c k :
  colon_free (String c k) -> Ascii.eqb c colon = false /\ colon_free k.
Proof.
  unfold colon_free. cbn [contains String.prefix].
  intros [H1 H2]%orb_false_iff. split; [|done].
  destruct (Ascii.eqb_spec c colon) as [->|]; [|done].
  cbn in H1. by rewrite prefix_nil in H1.
Qed.

Lemma str_split_colon_free v : colon_free v -> str_split colon v = [v].
Proof.
  induction v as [|c v IH]; [done|]. intros [Hc Hv]%colon_free_cons.
  cbn [str_split]. by rewrite Hc, (IH Hv).
Qed.

Lemma str_split_tag k v :
  colon_free k -> str_split colon (k +:+ ":" +:+ v) = k :: str_split colon v.
Proof.
  induction k as [|c k IH].
  - intros _. by rewrite append_nil.
  - intros [Hc Hk]%colon_free_cons. rewrite append_cons. cbn [str_split].
    by rewrite Hc, (IH Hk).
Qed.

Lemma odict_get_set {V} k (v : V) d : odict.get k (odict.set k v d) = Some v.
Proof.
  induction d as [|[k' v'] d IH]; cbn; [by rewrite String.eqb_refl|].
  destruct (String.eqb k k') eqn:E; cbn; by rewrite ?String.eqb_refl, ?E.
Qed.

Lemma odict_get_set_ne {V} k k' (v : V) d :
  k <> k' -> odict.get k (odict.set k' v d) = odict.get k d.
Proof.
  intros Hne. induction d as [|[k0 v0] d IH]; cbn.
  - by destruct (String.eqb_spec k k').
  - destruct (String.eqb_spec k' k0) as [->|]; cbn.
    + destruct (String.eqb_spec k k0); [congruence | done].
    + destruct (String.eqb_spec k k0); [done | apply IH].
Qed.

(** The loop reads back a list made by [to_gen2_tags]. *)
Lemma tags_to_dict_loop_gen2 d acc (s : state W) :
  Forall (fun kv => colon_free kv.1 /\ colon_free kv.2) d ->
  tags_to_dict_loop (to_gen2_tags d) acc s
  = (Ok (fold_left (fun a kv => odict.set kv.1 kv.2 a) d acc), s).
Proof.
  revert acc. induction d as [|[k v] d IH]; intros acc Hd; [done|].
  apply Forall_cons in Hd as [[Hk Hv] Hd]. cbn [fst snd] in Hk, Hv.
  cbn [to_gen2_tags fmap list_fmap tags_to_dict_loop fold_left fst snd].
  rewrite (str_split_tag k v Hk), (str_split_colon_free v Hv).
  by apply IH.
Qed.

Lemma fold_set_get (d : list (string * string)) acc k :
  NoDup d.*1 ->
  (forall v, (k, v) ∈ d ->
     odict.get k (fold_left (fun a kv => odict.set kv.1 kv.2 a) d acc)
     = Some v)
  /\ (k ∉ d.*1 ->
      odict.get k (fold_left (fun a kv => odict.set kv.1 kv.2 a) d acc)
      = odict.get k acc).
Proof.
  revert acc. induction d as [|[k' v'] d IH]; intros acc Hnd.
  { split; [intros v Hv; by apply elem_of_nil in Hv | done]. }
  apply NoDup_cons in Hnd as [Hk' Hnd]. cbn [fold_left fst snd].
  destruct (IH (odict.set k' v' acc) Hnd) as [IH1 IH2]. split.
  - intros v [Heq|Hin]%elem_of_cons; [|by apply IH1].
    injection Heq as -> ->. rewrite IH2 by done. apply odict_get_set.
  - intros Hk. cbn in Hk. apply not_elem_of_cons in Hk as [Hne Hk].
    rewrite IH2 by done. by apply odict_get_set_ne.
Qed.

(** X16.  [node_tags] reads the tags of a cached search item back into the
    dictionary they were made from: when the item carries the tags that
    [to_gen2_tags] makes of a dictionary whose keys and values have no
    colon, and its name has the cluster name in it, the dictionary returned
    has every key of that dictionary with its value; a key that the
    dictionary does not have is read from the name of the node (cluster
    name, kind and node name).  The state is left as it is. *)
Theorem node_tags_reads_back_the_tags fuel node_id n d (s : state W) :
  cached_nodes (self s) !! node_id = Some (Item n) ->
  contains (cluster_name (self s)) (name n) = true ->
  tags n = to_gen2_tags d ->
  NoDup d.*1 ->
  Forall (fun kv => colon_free kv.1 /\ colon_free kv.2) d ->
  exists r,
    node_tags fuel node_id s = (Ok r, s)
    /\ (forall k v, (k, v) ∈ d -> odict.get k r = Some v)
    /\ (forall k, k ∉ d.*1 ->
          odict.get k r
          = odict.get k
              [ (TAG_RAY_CLUSTER_NAME, cluster_name (self s));
                (TAG_RAY_NODE_KIND,
                 if contains (cluster_name (self s) +:+ "-" +:+ WORKER) (name n)
                 then WORKER else HEAD);
                (TAG_RAY_NODE_NAME, name n) ]).
Proof.
  intros Hc Hname Htags Hnd Hd. eexists. split; [|split].
  - unfold node_tags. rewrite log_in_out_eq.
    unfold bind at 1, _get_cached_node. unfold bind at 1, get_self.
    rewrite Hc. cbn [ret]. unfold _tags_to_dict, bind at 1, get_self.
    cbn [node_name]. rewrite Hname. unfold bind at 1. cbn [node_tags_of ret].
    rewrite Htags. by apply tags_to_dict_loop_gen2.
  - intros k v Hin. by apply fold_set_get.
  - intros k Hk. rewrite (proj2 (fold_set_get d _ k Hnd) Hk). done.
Qed.

(** A tag that is a label stops the loop. *)
Lemma tags_to_dict_loop_label l tag acc (s : state W) :
  tag ∈ l -> colon_free tag ->
  tags_to_dict_loop l acc s
  = (Raise (IndexError "list index out of range"), s).
Proof.
  intros Hin Hfree. revert acc.
  induction l as [|t l IH]; intros acc; [by apply elem_of_nil in Hin|].
  cbn [tags_to_dict_loop]. apply elem_of_cons in Hin as [<-|Hin].
  - by rewrite (str_split_colon_free tag Hfree).
  - destruct (str_split colon t) as [|k [|v rest]]; [done..|by apply IH].
Qed.

(** X17.  A tag without a colon (a label, which the tagging service
    allows) on a node of the cluster makes [node_tags] raise [IndexError]:
    the tag is split at the colon and the second piece is read. *)
Theorem node_tags_raises_on_a_label fuel node_id n tag (s : state W) :
  cached_nodes (self s) !! node_id = Some (Item n) ->
  contains (cluster_name (self s)) (name n) = true ->
  tag ∈ tags n ->
  colon_free tag ->
  node_tags fuel node_id s
  = (Raise (IndexError "list index out of range"), s).
Proof.
  intros Hc Hname Hin Hfree.
  unfold node_tags. rewrite log_in_out_eq.
  unfold bind at 1, _get_cached_node. unfold bind at 1, get_self.
  rewrite Hc. cbn [ret]. unfold _tags_to_dict, bind at 1, get_self.
  cbn [node_name]. rewrite Hname. unfold bind at 1. cbn [node_tags_of ret].
  by eapply tags_to_dict_loop_label.
Qed.

End tags_dict.

(** ** The cached nodes *)

Section live_cache.
Context {W : Type} {B : Backend W}.

Lemma keeps_and (I1 I2 : state W -> Prop) {A} (m : M W A) (Q1 Q2 : A -> Prop) :
  keeps I1 m Q1 -> keeps I2 m Q2 ->
  keeps (fun s => I1 s /\ I2 s) m (fun a => Q1 a /\ Q2 a).
Proof.
  intros H1 H2 s [Hs1 Hs2]. destruct (H1 s Hs1) as [Ha Hb].
  destruct (H2 s Hs2) as [Hc Hd]. split; [done|]. intros a Ha'. auto.
Qed.

Lemma cache_live_delete id p :
  cache_live p -> cache_live (set_cached_nodes (delete id (cached_nodes p)) p).
Proof.
  intros Hp id' n. cbn. rewrite lookup_delete_Some. intros [_ H].
  by apply (Hp id').
Qed.

Lemma live_prune_missing query missing :
  keeps (on_self (W := W) cache_live) (prune_missing query missing)
    (fun _ => True).
Proof.
  induction missing as [|n missing IH]; cbn [prune_missing];
    [by apply keeps_ret|].
  eapply keeps_bind; [by apply frame_prev_nodes_update|]. intros _ _.
  eapply keeps_bind; [by apply frame_prev_nodes_update|]. intros _ _.
  eapply keeps_bind; [|intros _ _; apply IH].
  apply (keeps_modify_self cache_live). intros p Hp. by apply cache_live_delete.
Qed.

Lemma live_body p0 fuel _delete_node tag_filters :
  keeps (fun s : state W =>
           on_self (same_settings p0) s /\ on_self cache_live s)
    (non_terminated_nodes_body fuel _delete_node tag_filters) (fun _ => True).
Proof.
  set (J := fun p => same_settings p0 p /\ cache_live p).
  unfold non_terminated_nodes_body.
  eapply keeps_bind; [apply (keeps_get_self J)|]. intros p _.
  eapply keeps_bind.
  { apply keeps_and.
    - apply (eligible_nt_while p0). split; [constructor | done].
    - by apply (frame_nt_while cache_live). }
  intros v [[Hel Hfound] _].
  eapply keeps_bind.
  { apply keeps_and; [by apply frame_prune_missing | apply live_prune_missing]. }
  intros _ _.
  eapply keeps_bind.
  { apply (keeps_modify_self J). intros q [Hq Hlive]. split; [done|].
    intros id n. cbn. rewrite lookup_union_Some_raw, lookup_fmap.
    intros [Hn|[_ Hn]]; [|by apply (Hlive id)].
    destruct (found_nodes v !! id) as [it|] eqn:Hit; [|done].
    injection Hn as <-. exists it. split; [done|].
    rewrite Hfound in Hit. apply by_resource_id_lookup in Hit as [Hit _].
    rewrite Forall_forall in Hel. by destruct (Hel it Hit) as (_ & Hst & _). }
  intros _ _.
  eapply keeps_bind; [apply (keeps_get_self J)|]. intros q _.
  by apply (frame_merge_pending J).
Qed.

(** A listing keeps the cache to live items. *)
Lemma live_listing fuel tag_filters :
  keeps (on_self (W := W) cache_live) (non_terminated_nodes fuel tag_filters)
    (fun _ => True).
Proof.
  intros s Hs. split; [|done].
  destruct fuel as [|fuel]; cbn [non_terminated_nodes]; [done|].
  set (J := fun p => same_settings (self s) p /\ cache_live p).
  assert (keeps (on_self J)
            (log_in_out
               (retry_on_except
                  (non_terminated_nodes_body (S fuel)
                     (delete_node_with
                        (get_node_with (non_terminated_nodes fuel) (S fuel)))
                     tag_filters))) (fun _ => True)) as Hk.
  { apply keeps_log_in_out, (frame_retry_on_except J); [by intros v t x p Hp|].
    apply live_body. }
  destruct (Hk s) as [[_ H] _]; [|exact H].
  split; [apply same_settings_refl | done].
Qed.

(** The node that [_get_cached_node] returns is a live item of the cache
    it leaves, or an instance record. *)
Lemma get_cached_node_live fuel node_id (s : state W) n s' :
  cache_live (self s) ->
  _get_cached_node fuel node_id s = (Ok n, s') ->
  cache_live (self s')
  /\ ((exists i, n = Instance i)
      \/ (cached_nodes (self s') !! node_id = Some n)).
Proof.
  intros Hs. unfold _get_cached_node. unfold bind at 1, get_self.
  destruct (cached_nodes (self s) !! node_id) as [n0|] eqn:Hc.
  { intros [= <- <-]. split; [done|]. by right. }
  unfold _get_node, get_node_with. intros H.
  apply bind_Ok in H as (l & s1 & El & H).
  pose proof (live_listing fuel [] s Hs) as [Hs1 _]. rewrite El in Hs1.
  apply bind_Ok in H as (p & s2 & Ep & H). injection Ep as <- <-.
  destruct (cached_nodes (self s1) !! node_id) as [n1|] eqn:Hc1.
  { injection H as <- <-. split; [done|]. by right. }
  apply bind_Ok in H as (i & s3 & Ei & H).
  apply bind_Ok in H as (listed & s4 & Et & H).
  apply bind_Ok in H as (names & s5 & En & H). injection H as <- <-.
  assert (s5 = s4) as ->.
  { destruct listed; try discriminate. by injection En as _ <-. }
  split; [|left; eauto].
  destruct (keeps_call cache_live
              (get_instance (ibm_vpc_client (self s1)) node_id) s1 Hs1)
    as [Hs3 _].
  rewrite Ei in Hs3.
  destruct (frame_global_tagging cache_live) with
    (fuel := fuel) (crn := inst_crn i) (f_name := "list_tags")
    (tags := @None (list string)) (s := s3) as [Hs4 _]; [done..|].
  by rewrite Et in Hs4.
Qed.

(** X18.  When every cached node is a live item of the search, as in a
    provider that has just been made and in every state that its methods
    reach from there, [is_terminated] never answers [True]: when it
    returns, the answer is [False], and the node is a cached item of the
    search with status pending, starting or running.  (For a node that the
    search does not list, it raises: the instance record that [_get_node]
    fetches has no ["doc"].) *)
Theorem is_terminated_never_answers_true fuel node_id (s : state W) b s' :
  cache_live (self s) ->
  is_terminated fuel node_id s = (Ok b, s') ->
  b = false
  /\ exists it,
       cached_nodes (self s') !! node_id = Some (Item it)
       /\ status (doc it) ∈ ["pending"; "starting"; "running"].
Proof.
  intros Hs. unfold is_terminated. rewrite log_in_out_eq. intros H.
  apply bind_Ok in H as (n & s1 & En & H).
  apply get_cached_node_live in En as [Hs1 Hn]; [|done].
  apply bind_Ok in H as (d & s2 & Ed & H). injection H as <- <-.
  destruct Hn as [[i ->]|Hc]; [discriminate|].
  destruct (Hs1 _ _ Hc) as (it & -> & Hst). injection Ed as <- <-.
  split; [|eauto].
  apply negb_false_iff, bool_decide_eq_true. set_unfold. tauto.
Qed.

(** X19.  From a state where every cached node is a live item of the
    search, every method of the provider ends in such a state, however it
    ends: the cache never holds an instance record, nor an item that was
    stopped, failed or deleted when it was cached. *)
Theorem cached_nodes_stay_live_items fuel (s : state W) :
  cache_live (self s) ->
  (forall tag_filters,
     cache_live (self (non_terminated_nodes fuel tag_filters s).2))
  /\ (forall node_id,
        cache_live (self (is_running fuel node_id s).2)
        /\ cache_live (self (is_terminated fuel node_id s).2)
        /\ cache_live (self (node_tags fuel node_id s).2)
        /\ cache_live (self (internal_ip fuel node_id s).2)
        /\ cache_live (self (external_ip fuel node_id s).2)
        /\ cache_live (self (terminate_node fuel node_id s).2))
  /\ (forall node_id tags,
        cache_live (self (set_node_tags fuel node_id tags s).2))
  /\ (forall base_config tags count,
        cache_live (self (create_node fuel base_config tags count s).2))
  /\ (forall node_ids, cache_live (self (terminate_nodes fuel node_ids s).2)).
Proof.
  intros Hs.
  assert (forall v t x p, cache_live p -> cache_live (set_clients v t x p))
    as Jc by (by intros v t x p Hp).
  assert (forall d p, cache_live p -> cache_live (set_pending_nodes d p))
    as Jp by (by intros d p Hp).
  assert (forall l p, cache_live p -> cache_live (set_deleted_nodes l p))
    as Jd by (by intros l p Hp).
  assert (forall m p, cache_live p -> cache_live (set_prev_nodes m p))
    as Jv by (by intros m p Hp).
  pose proof (@live_listing) as Jl.
  pose proof cache_live_delete as Ju.
  split; [|split; [|split; [|split]]].
  - intros tf. exact (proj1 (live_listing fuel tf s Hs)).
  - intros node_id. split; [|split; [|split; [|split; [|split]]]].
    + exact (proj1 (frame_is_running cache_live Jc Jl fuel node_id s Hs)).
    + exact (proj1 (frame_is_terminated cache_live Jc Jl fuel node_id s Hs)).
    + exact (proj1 (frame_node_tags cache_live Jc Jl fuel node_id s Hs)).
    + exact (proj1 (frame_internal_ip cache_live Jc Jl fuel node_id s Hs)).
    + exact (proj1 (frame_external_ip cache_live Jc Jl fuel node_id s Hs)).
    + exact (proj1 (frame_terminate_node cache_live Jc Jl Jd Jv Ju fuel
                      node_id s Hs)).
  - intros node_id tags.
    exact (proj1 (frame_set_node_tags cache_live Jc Jl fuel node_id tags s Hs)).
  - intros cfg tags count.
    exact (proj1 (frame_create_node cache_live Jc Jl Jp Jd fuel cfg tags count
                    s Hs)).
  - intros node_ids.
    exact (proj1 (frame_terminate_nodes cache_live Jc Jl Jd Jv Ju fuel node_ids
                    s Hs)).
Qed.

End live_cache.

(** ** The further properties on the simulated backend *)

Section more_scenarios.
Import Sim Scenario.

(** X4, witness: the new status of ["i-1"] is attached and read back. *)
Lemma tagging_is_verified_by_listing_witness :
  exists names h w,
    list_tags h "crn:i-1" w
    = (Success names,
       world (_global_tagging_with_retries fuel "crn:i-1" "attach_tag"
                (Some ["ray-node-status:up-to-date"]) setting_up).2)
    /\ (forall t, t ∈ ["ray-node-status:up-to-date"] -> t ∈ names).
Proof.
  apply (tagging_is_verified_by_listing fuel "crn:i-1"
           ["ray-node-status:up-to-date"] setting_up
           (TagResults {| results := [false] |})).
  - reflexivity.
  - vm_compute. reflexivity.
Defined.

(** X5, witness: the listing finds the worker ["i-1"]. *)
Lemma listed_nodes_are_cached_and_live_witness :
  exists n,
    cached_nodes (self listed) !! "i-1" = Some (Item n)
    /\ resource_id n = "i-1"
    /\ eligible (self listed) n
    /\ forall fuel',
         is_terminated fuel' "i-1" listed = (Ok false, listed)
         /\ is_running fuel' "i-1" listed
            = (Ok (String.eqb (status (doc n)) "running"), listed).
Proof.
  apply (listed_nodes_are_cached_and_live fuel [] setting_up ["i-1"]).
  - vm_compute. reflexivity.
  - apply list_elem_of_singleton. reflexivity.
Defined.

(** X6, witness: the head node ["h-1"] and its floating ip. *)
Lemma listed_head_node_has_an_external_ip_witness :
  exists n,
    cached_nodes (self (non_terminated_nodes fuel [] head_up).2) !! "h-1"
    = Some (Item n)
    /\ (_get_node_type (self (non_terminated_nodes fuel [] head_up).2) (name n)
        = Some "head" ->
        exists ip ips,
          floating_ips n = Some (ip :: ips)
          /\ forall fuel',
               external_ip fuel' "h-1" (non_terminated_nodes fuel [] head_up).2
               = (Ok (Some (fip_address ip)),
                  (non_terminated_nodes fuel [] head_up).2)).
Proof.
  apply (listed_head_node_has_an_external_ip fuel [] head_up ["h-1"]).
  - vm_compute. reflexivity.
  - apply list_elem_of_singleton. reflexivity.
Defined.


(** X7, witness: two filters, in either order. *)
Lemma build_query_ignores_the_order_witness :
  build_query (init false)
    [("ray-node-type", "worker"); ("ray-node-status", "up-to-date")]
  = build_query (init false)
      [("ray-node-status", "up-to-date"); ("ray-node-type", "worker")].
Proof.
  apply (build_query_ignores_the_order (init false)). apply Permutation_swap.
Defined.

(** X16, witness: the tags of the listed worker ["i-1"]. *)
Lemma node_tags_reads_back_the_tags_witness :
  exists r,
    node_tags fuel "i-1" listed = (Ok r, listed)
    /\ (forall k v,
          (k, v) ∈ [("ray-cluster-name", "c1"); ("ray-node-type", "worker")] ->
          odict.get k r = Some v)
    /\ (forall k,
          k ∉ [("ray-cluster-name", "c1"); ("ray-node-type", "worker")].*1 ->
          odict.get k r
          = odict.get k
              [ (TAG_RAY_CLUSTER_NAME, cluster_name (self listed));
                (TAG_RAY_NODE_KIND,
                 if contains (cluster_name (self listed) +:+ "-" +:+ WORKER)
                      (name (worker "i-1" "running"))
                 then WORKER else HEAD);
                (TAG_RAY_NODE_NAME, name (worker "i-1" "running")) ]).
Proof.
  apply (node_tags_reads_back_the_tags fuel "i-1" (worker "i-1" "running")
           [("ray-cluster-name", "c1"); ("ray-node-type", "worker")] listed).
  - vm_compute. reflexivity.
  - vm_compute. reflexivity.
  - reflexivity.
  - apply (bool_decide_unpack _). vm_compute. exact Logic.I.
  - repeat constructor.
Defined.

(** X17, witness: the worker with the label ["production"]. *)
Lemma node_tags_raises_on_a_label_witness :
  node_tags fuel "i-2" labelled
  = (Raise (IndexError "list index out of range"), labelled).
Proof.
  apply (node_tags_raises_on_a_label fuel "i-2" labelled_worker "production"
           labelled).
  - vm_compute. reflexivity.
  - vm_compute. reflexivity.
  - apply elem_of_cons. right. apply elem_of_cons. right.
    apply elem_of_cons. by left.
  - reflexivity.
Defined.

(** X9, witness: the new worker is pending and the search has found it
    starting. *)
Lemma pending_ids_left_by_a_listing_are_listed_witness :
  new_id ∈ [new_id]
  /\ exists n,
       cached_nodes (self (non_terminated_nodes fuel [] created_and_indexed).2)
         !! new_id = Some (Item n)
       /\ resource_id n = new_id.
Proof.
  apply (pending_ids_left_by_a_listing_are_listed fuel [] created_and_indexed
           [new_id] (non_terminated_nodes fuel [] created_and_indexed).2).
  - vm_compute. reflexivity.
  - vm_compute. apply list_elem_of_singleton. reflexivity.
Defined.

(** X13, witness: the worker of [created]. *)
Lemma created_instance_is_named_and_pending_witness :
  (exists name_tag,
     odict.get TAG_RAY_NODE_NAME worker_tags = Some name_tag
     /\ name_tag_matches name_tag = true
     /\ String.length name_tag
        <= INSTANCE_NAME_MAX_LEN - INSTANCE_NAME_UUID_LEN - 1
     /\ "ray-c1-worker-aaaaaaaa"
        = name_tag +:+ "-"
          +:+ String.substring 0 INSTANCE_NAME_UUID_LEN
                (uuid4_hex (world before_create)).1)
  /\ String.length "ray-c1-worker-aaaaaaaa" <= INSTANCE_NAME_MAX_LEN
  /\ (exists s1,
        _create_instance "ray-c1-worker-aaaaaaaa" cfg
          (State (uuid4_hex (world before_create)).2 (self before_create))
        = (Ok (Some new_worker), s1))
  /\ self (create_node_instance fuel cfg worker_tags before_create).2
     = set_pending_nodes
         (odict.set (inst_id new_worker) new_worker
            (pending_nodes (self before_create)))
         (self before_create)
  /\ exists h w i,
       get_instance h (inst_id new_worker) w
       = (Success i,
          world (create_node_instance fuel cfg worker_tags before_create).2)
       /\ inst_status i = "running".
Proof.
  apply (created_instance_is_named_and_pending fuel cfg worker_tags
           before_create "ray-c1-worker-aaaaaaaa" new_worker
           (create_node_instance fuel cfg worker_tags before_create).2).
  vm_compute. reflexivity.
Defined.

(** X15, witness: one node is reused and one is made. *)
Lemma create_node_makes_an_instance_witness :
  (0 < 2)%Z
  /\ exists id i, created_dict !! id = Some (Instance i) /\ inst_id i = id.
Proof.
  apply (create_node_makes_an_instance fuel cfg worker_tags 2 reuse_stopped
           created_dict reuse_created).
  vm_compute. reflexivity.
Defined.

(** X10, witness: both workers are terminated. *)
Lemma terminate_nodes_masks_the_batch_witness :
  (["a"; "b"] = [] -> (terminate_nodes fuel ["a"; "b"] two_workers).2
                      = two_workers)
  /\ forall id,
       id ∈ ["a"; "b"] ->
       masked id (self (terminate_nodes fuel ["a"; "b"] two_workers).2).
Proof.
  apply (terminate_nodes_masks_the_batch fuel ["a"; "b"] two_workers).
  - reflexivity.
  - vm_compute. reflexivity.
Defined.

(** X14, witness: the stopped worker ["i-1"]. *)
Lemma stopped_nodes_are_reported_stopped_witness :
  exists query items w1,
    stopped_query (self fresh_with_stopped) worker_tags fresh_with_stopped
    = (Ok query, fresh_with_stopped)
    /\ ((search (global_search_service (self fresh_with_stopped)) query None
           (world fresh_with_stopped)
         = (Success items, w1)
         /\ self (_stopped_nodes worker_tags fresh_with_stopped).2
            = self fresh_with_stopped)
        \/ (exists e w0,
              search (global_search_service (self fresh_with_stopped)) query
                None (world fresh_with_stopped)
              = (Failure e, w0)
              /\ is_ApiException e = true
              /\ search (S (global_search_service (self fresh_with_stopped)))
                   query None w0
                 = (Success items, w1)
              /\ self (_stopped_nodes worker_tags fresh_with_stopped).2
                 = set_clients (ibm_vpc_client (self fresh_with_stopped))
                     (global_tagging_service (self fresh_with_stopped))
                     (S (global_search_service (self fresh_with_stopped)))
                     (self fresh_with_stopped)))
    /\ stopped_run (ibm_vpc_client (self fresh_with_stopped)) w1 items
         [worker "i-1" "stopped"]
         (world (_stopped_nodes worker_tags fresh_with_stopped).2)
    /\ [worker "i-1" "stopped"] `sublist_of` items.
Proof.
  apply (stopped_nodes_are_reported_stopped worker_tags fresh_with_stopped
           [worker "i-1" "stopped"]
           (_stopped_nodes worker_tags fresh_with_stopped).2).
  vm_compute. reflexivity.
Defined.

(** X19, witness: the provider that has listed the worker ["i-1"] and
    holds it in its cache. *)
Lemma cached_nodes_stay_live_items_witness :
  (forall tag_filters,
     cache_live (self (non_terminated_nodes fuel tag_filters listed).2))
  /\ (forall node_id,
        cache_live (self (is_running fuel node_id listed).2)
        /\ cache_live (self (is_terminated fuel node_id listed).2)
        /\ cache_live (self (node_tags fuel node_id listed).2)
        /\ cache_live (self (internal_ip fuel node_id listed).2)
        /\ cache_live (self (external_ip fuel node_id listed).2)
        /\ cache_live (self (terminate_node fuel node_id listed).2))
  /\ (forall node_id tags,
        cache_live (self (set_node_tags fuel node_id tags listed).2))
  /\ (forall base_config tags count,
        cache_live (self (create_node fuel base_config tags count listed).2))
  /\ (forall node_ids,
        cache_live (self (terminate_nodes fuel node_ids listed).2)).
Proof.
  apply (cached_nodes_stay_live_items fuel listed).
  assert (cached_nodes (self listed)
          = {[ "i-1" := Item (worker "i-1" "running") ]}) as Hc
    by (vm_compute; reflexivity).
  intros id n H. rewrite Hc in H.
  apply lookup_singleton_Some in H as [_ <-].
  exists (worker "i-1" "running"). split; [reflexivity|].
  apply elem_of_cons. right. apply elem_of_cons. right.
  apply elem_of_cons. by left.
Defined.

(** X18, witness: the worker ["i-1"] is not terminated. *)
Lemma is_terminated_never_answers_true_witness :
  false = false
  /\ exists it,
       cached_nodes (self (is_terminated fuel "i-1" setting_up).2) !! "i-1"
       = Some (Item it)
       /\ status (doc it) ∈ ["pending"; "starting"; "running"].
Proof.
  apply (is_terminated_never_answers_true fuel "i-1" setting_up false
           (is_terminated fuel "i-1" setting_up).2).
  - intros id n H. cbn in H. by rewrite lookup_empty in H.
  - vm_compute. reflexivity.
Defined.

End more_scenarios.
